(** * MSRW: the internal scheduler and the retry helper

    A shallow embedding of [src/scheduler/InternalScheduler.ts] and of
    [src/util/core/Retry.ts], with the properties of the scheduled-task
    engine stated over it.

    Conventions of the embedding.
    - A JavaScript string is the list of its UTF-16 code units.
    - A JavaScript number that is only ever an integer in the code (hours,
      minutes, attempt counters, timestamps, millisecond settings of the
      scheduler) is a [Z]; a number on which the code rounds ([Math.floor],
      [Math.ceil]) or that may be fractional is a [Q], with the arithmetic
      taken exactly; the non-finite values appear only where the code
      tests for them ([Number.isFinite]).  This is the arithmetic of the
      code as long as no value leaves the range in which binary64 is
      exact.  Where a property depends on the rounding, [applyJitter] and
      the delays of [Retry.run] are embedded a second time on binary64
      values (modules [Binary64] and [Rounded]), every operation rounded
      to nearest, and the property is stated there.
    - [Math.random()] and [new Date()] are inputs of the functions that
      call them.
    - An [async] function is cut at its [await]s: every piece between two
      suspension points is one function (a turn of the event loop), and the
      event loop is a transition function on a state that holds the object's
      fields and the suspended calls. *)

From Stdlib Require Import ZArith QArith Qround Qabs Qminmax Qpower Qreduction.
From Stdlib Require Import Lqa Lia.
From Stdlib Require Import Bool String Ascii DecimalString List.
From Equations Require Import Equations.
Import ListNotations.

Local Open Scope Z_scope.

(* ===================================================================== *)
(** * JavaScript values used by the two files *)
(* ===================================================================== *)

Module JS.

(** Strings: lists of UTF-16 code units. *)
Definition jsstring := list N.

(** An ASCII literal as a JavaScript string. *)
Definition lit (s : string) : jsstring :=
  List.map N_of_ascii (list_ascii_of_string s).

(** WhiteSpace and LineTerminator of ECMAScript, the code units removed by
    [String.prototype.trim]. *)
Definition isWhiteSpace (c : N) : bool :=
  ((9 <=? c) && (c <=? 13) || (c =? 32) || (c =? 160) || (c =? 5760)
   || (8192 <=? c) && (c <=? 8202)
   || (c =? 8232) || (c =? 8233) || (c =? 8239) || (c =? 8287)
   || (c =? 12288) || (c =? 65279))%N.

Fixpoint trimStart (s : jsstring) : jsstring :=
  match s with
  | c :: s' => if isWhiteSpace c then trimStart s' else s
  | [] => []
  end.

Definition trimEnd (s : jsstring) : jsstring := rev (trimStart (rev s)).

Definition trim (s : jsstring) : jsstring := trimEnd (trimStart s).

(** [\d] of a regular expression: the ten ASCII digits. *)
Definition isDigit (c : N) : bool := ((48 <=? c) && (c <=? 57))%N.

(** [parseInt(s, 10)] on a string of decimal digits (the only strings the
    scheduler passes to it are groups matched by [\d{1,2}] and [\d{2}]). *)
Definition parseInt10 (s : jsstring) : Z :=
  fold_left (fun acc c => acc * 10 + (Z.of_N c - 48)) s 0.

(** [String(n)] for an integer [n]. *)
Definition String_of_int (n : Z) : jsstring :=
  lit (NilZero.string_of_int (Z.to_int n)).

(** [s.padStart(n, c)] with a one-character filler. *)
Definition padStart (n : nat) (c : N) (s : jsstring) : jsstring :=
  repeat c (n - length s) ++ s.

(** [s.split(' ')]. *)
Fixpoint split_on (sep : N) (s : jsstring) : list jsstring :=
  match s with
  | [] => [[]]
  | c :: s' =>
      if (c =? sep)%N then [] :: split_on sep s'
      else match split_on sep s' with
           | p :: ps => (c :: p) :: ps
           | [] => [[c]]
           end
  end.

Definition jsstring_eqb (a b : jsstring) : bool :=
  if list_eq_dec N.eq_dec a b then true else false.

(** Truthiness of an optional string: [undefined] and [''] are falsy. *)
Definition truthy_string (s : option jsstring) : bool :=
  match s with
  | None | Some [] => false
  | Some (_ :: _) => true
  end.

(** Truthiness of an optional boolean. *)
Definition truthy_bool (b : option bool) : bool :=
  match b with Some true => true | _ => false end.

(** A configuration number as [Number.isFinite] sees it. *)
Inductive jsnum : Type :=
| Num (q : Q)
| NaN
| Infinity
| NegInfinity.

(** [Number.isFinite(x) ? Number(x) : d] for an optional field [x]. *)
Definition finite_or (x : option jsnum) (d : Q) : Q :=
  match x with
  | Some (Num q) => q
  | _ => d
  end.

Definition isFinite (x : option jsnum) : bool :=
  match x with
  | Some (Num _) => true
  | _ => false
  end.

(** A value that was thrown (type [unknown]): an [Error] object with its
    message, [undefined], or any other value with its [String(v)]. *)
Inductive thrown : Type :=
| ErrorObj (message : jsstring)
| Undefined
| Other (repr : jsstring).

(** [String(e)] for a thrown value that is not an [Error]. *)
Definition String_of_thrown (e : thrown) : jsstring :=
  match e with
  | ErrorObj m => lit "Error: " ++ m
  | Undefined => lit "undefined"
  | Other s => s
  end.

(** [e instanceof Error ? e.message : String(e)]. *)
Definition errorMessage (e : thrown) : jsstring :=
  match e with
  | ErrorObj m => m
  | _ => String_of_thrown e
  end.

(** [e instanceof Error ? e : new Error(String(e))]. *)
Definition asError (e : thrown) : thrown :=
  match e with
  | ErrorObj m => ErrorObj m
  | _ => ErrorObj (String_of_thrown e)
  end.

Definition isErrorObj (e : thrown) : bool :=
  match e with ErrorObj _ => true | _ => false end.

End JS.

Import JS.

(* ===================================================================== *)
(** * Schedule resolution: [buildSchedule], [applyJitter], [getRandomInt] *)
(* ===================================================================== *)

Module Resolver.

Record JitterConfig : Type := {
  jitter_enabled : option bool;
  minMinutesBefore : option jsnum;
  maxMinutesAfter : option jsnum
}.

Record CronConfig : Type := { schedule : option jsstring }.

Record ScheduleConfig : Type := {
  enabled : option bool;
  time : option jsstring;
  cron : option CronConfig;
  jitter : option JitterConfig
}.

Record Jittered : Type := {
  hour : Z;
  minute : Z;
  offsetMinutes : Z
}.

Record Schedule : Type := {
  cronExpr : option jsstring;
  displayTime : jsstring;
  jitterApplied : Z
}.

(** [getRandomInt(minInclusive, maxInclusive)], [random] being the value
    returned by [Math.random()]. *)
Definition getRandomInt (minInclusive maxInclusive : Q) (random : Q) : Z :=
  let min := Qceiling minInclusive in
  let max := Qfloor maxInclusive in
  Qfloor (random * inject_Z (max - min + 1)) + min.

Definition minutesInDay : Z := 24 * 60.

(** [while (totalMinutes < 0) totalMinutes += minutesInDay]. *)
Equations? raise_total (totalMinutes : Z) : Z
  by wf (Z.to_nat (- totalMinutes)) lt :=
  raise_total totalMinutes with Z_lt_dec totalMinutes 0 => {
    | left _ => raise_total (totalMinutes + minutesInDay)
    | right _ => totalMinutes }.
Proof. unfold minutesInDay. lia. Qed.

(** [while (totalMinutes >= minutesInDay) totalMinutes -= minutesInDay]. *)
Equations? lower_total (totalMinutes : Z) : Z
  by wf (Z.to_nat totalMinutes) lt :=
  lower_total totalMinutes with Z_ge_dec totalMinutes minutesInDay => {
    | left _ => lower_total (totalMinutes - minutesInDay)
    | right _ => totalMinutes }.
Proof. unfold minutesInDay in *. lia. Qed.

(** The optional-chained reads of [applyJitter]. *)
Definition jitter_is_enabled (j : option JitterConfig) : bool :=
  match j with
  | Some c => match jitter_enabled c with Some true => true | _ => false end
  | None => false
  end.

Definition jitter_before (j : option JitterConfig) : Q :=
  finite_or (match j with Some c => minMinutesBefore c | None => None end) 20.

Definition jitter_after (j : option JitterConfig) : Q :=
  finite_or (match j with Some c => maxMinutesAfter c | None => None end) 30.

Definition applyJitter (hour minute : Z) (jitter : option JitterConfig)
    (random : Q) : Jittered :=
  let enabled := jitter_is_enabled jitter in
  let before := jitter_before jitter in
  let after := jitter_after jitter in
  if negb enabled || (Qeq_bool before 0 && Qeq_bool after 0) then
    {| hour := hour; minute := minute; offsetMinutes := 0 |}
  else
    let minOffset := Qopp (Qabs before) in
    let maxOffset := Qabs after in
    let offset := getRandomInt minOffset maxOffset random in
    let totalMinutes := hour * 60 + minute + offset in
    let totalMinutes := raise_total totalMinutes in
    let totalMinutes := lower_total totalMinutes in
    let jitteredHour := totalMinutes / 60 in
    let jitteredMinute := Z.rem totalMinutes 60 in
    {| hour := jitteredHour; minute := jitteredMinute;
       offsetMinutes := offset |}.

(** [/^(\d{1,2}):(\d{2})$/.exec(s)]: the two groups of a match. *)
Definition timeMatch (s : jsstring) : option (jsstring * jsstring) :=
  match s with
  | [h1; c; m1; m2] =>
      if isDigit h1 && (c =? 58)%N && isDigit m1 && isDigit m2
      then Some ([h1], [m1; m2]) else None
  | [h1; h2; c; m1; m2] =>
      if isDigit h1 && isDigit h2 && (c =? 58)%N && isDigit m1 && isDigit m2
      then Some ([h1; h2], [m1; m2]) else None
  | _ => None
  end.

(** [`${hour.padStart(2, '0')}:${minute.padStart(2, '0')}`]. *)
Definition clock_label (hour minute : jsstring) : jsstring :=
  padStart 2 48%N hour ++ lit ":" ++ padStart 2 48%N minute.

(** [`${minute} ${hour} * * *`]. *)
Definition daily_expression (minute hour : Z) : jsstring :=
  String_of_int minute ++ lit " " ++ String_of_int hour ++ lit " * * *".

Definition extractTimeFromCron (cronExpr : jsstring) : jsstring :=
  match split_on 32%N cronExpr with
  | minute :: hour :: _ =>
      if truthy_string (Some minute) && truthy_string (Some hour)
         && negb (jsstring_eqb minute (lit "*"))
         && negb (jsstring_eqb hour (lit "*"))
      then clock_label hour minute
      else cronExpr
  | _ => cronExpr
  end.

Definition legacy_schedule (c : ScheduleConfig) : option jsstring :=
  match cron c with Some cc => schedule cc | None => None end.

(** The check of lines 90-95 on a configured time: the trimmed string
    matches the pattern and both numbers are in range. *)
Definition wellFormedTime (t : jsstring) : bool :=
  match timeMatch (trim t) with
  | Some (g1, g2) =>
      (parseInt10 g1 >=? 0) && (parseInt10 g1 <=? 23)
      && (parseInt10 g2 >=? 0) && (parseInt10 g2 <=? 59)
  | None => false
  end.

Definition invalidSchedule : Schedule :=
  {| cronExpr := None; displayTime := []; jitterApplied := 0 |}.

Definition buildSchedule (scheduleConfig : ScheduleConfig) (random : Q)
    : Schedule :=
  let invalid := invalidSchedule in
  if truthy_string (time scheduleConfig) then
    (* Priority 1: simple time format *)
    match time scheduleConfig with
    | Some t =>
        match timeMatch (trim t) with
        | Some (g1, g2) =>
            let hours := parseInt10 g1 in
            let minutes := parseInt10 g2 in
            if (hours >=? 0) && (hours <=? 23)
               && (minutes >=? 0) && (minutes <=? 59) then
              let j := applyJitter hours minutes (jitter scheduleConfig) random in
              {| cronExpr := Some (daily_expression (minute j) (hour j));
                 displayTime :=
                   clock_label (String_of_int hours) (String_of_int minutes);
                 jitterApplied := offsetMinutes j |}
            else invalid
        | None => invalid
        end
    | None => invalid
    end
  else if truthy_string (legacy_schedule scheduleConfig) then
    (* Priority 2: compatibility format *)
    match legacy_schedule scheduleConfig with
    | Some e =>
        {| cronExpr := Some e; displayTime := extractTimeFromCron e;
           jitterApplied := 0 |}
    | None => invalid
    end
  else
    (* Default: 9 AM daily *)
    let j := applyJitter 9 0 (jitter scheduleConfig) random in
    {| cronExpr := Some (daily_expression (minute j) (hour j));
       displayTime := lit "09:00";
       jitterApplied := offsetMinutes j |}.

End Resolver.


Import Resolver.

(* ===================================================================== *)
(** * The scheduler object *)
(* ===================================================================== *)

Module Engine.

Record CrashRecovery : Type := {
  maxRestarts : option Z;
  backoffBaseMs : option Z
}.

Record Config : Type := {
  scheduling : option ScheduleConfig;
  crashRecovery : option CrashRecovery
}.

(** The handle returned by [cron.schedule]. *)
Record ScheduledTask : Type := {
  expression : jsstring;
  timezone : jsstring
}.

(** The mutable fields of [InternalScheduler] ([config] and
    [taskCallback] never change and are parameters below). *)
Record Scheduler : Type := {
  cronJob : option ScheduledTask;
  isRunning : bool;
  lastRunTime : option Z;
  lastCronExpression : option jsstring
}.

Definition fresh : Scheduler :=
  {| cronJob := None; isRunning := false; lastRunTime := None;
     lastCronExpression := None |}.

(** The log lines, by the place that writes them; the texts that embed
    [getNextRunTime()] carry no data here. *)
Inductive message : Type :=
| SchedulerDisabled
| InvalidScheduleFormat
| InvalidSchedule (cronExpr : jsstring)
| SchedulerStarted (timeLabel : jsstring) (jitterApplied : Z)
| SkippingRun
| RunTriggered
| RunCompleted
| NextRun
| RunFailed (attempts total : Z) (errorMsg : jsstring)
| Retrying (backoff : Z)
| MaxRetriesExceeded (total : Z)
| SchedulerStopped
| RescheduleSkipped
| Rescheduled (timeLabel : jsstring) (jitterApplied : Z)
| ManualTrigger.

(** What a turn does to the outside. *)
Inductive effect : Type :=
| Log (m : message)
| TaskCallback                       (* this.taskCallback() is called *)
| SetTimeout (ms : Z)                (* setTimeout(resolve, ms) *)
| CronSchedule (job : ScheduledTask) (* cron.schedule(expr, ..) *)
| CronStop (job : ScheduledTask).    (* job.stop() *)

(** A synchronous stretch of code: it reads and writes the fields and
    emits effects, in order. *)
Definition M (A : Type) : Type := Scheduler -> A * Scheduler * list effect.

Definition ret {A} (a : A) : M A := fun s => (a, s, []).

Definition bind {A B} (m : M A) (k : A -> M B) : M B :=
  fun s =>
    let '(a, s1, e1) := m s in
    let '(b, s2, e2) := k a s1 in
    (b, s2, e1 ++ e2).

Definition get : M Scheduler := fun s => (s, s, []).
Definition emit (e : effect) : M unit := fun s => (tt, s, [e]).
Definition log (m : message) : M unit := emit (Log m).

Definition set_cronJob (j : option ScheduledTask) : M unit :=
  fun s => (tt, {| cronJob := j; isRunning := isRunning s;
                   lastRunTime := lastRunTime s;
                   lastCronExpression := lastCronExpression s |}, []).
Definition set_isRunning (b : bool) : M unit :=
  fun s => (tt, {| cronJob := cronJob s; isRunning := b;
                   lastRunTime := lastRunTime s;
                   lastCronExpression := lastCronExpression s |}, []).
Definition set_lastRunTime (t : option Z) : M unit :=
  fun s => (tt, {| cronJob := cronJob s; isRunning := isRunning s;
                   lastRunTime := t;
                   lastCronExpression := lastCronExpression s |}, []).
Definition set_lastCronExpression (e : option jsstring) : M unit :=
  fun s => (tt, {| cronJob := cronJob s; isRunning := isRunning s;
                   lastRunTime := lastRunTime s;
                   lastCronExpression := e |}, []).

Declare Scope turn_scope.
Delimit Scope turn_scope with turn.
Notation "x <- m ;; k" := (bind m (fun x => k))
  (at level 61, m at next level, right associativity) : turn_scope.
Notation "m ;; k" := (bind m (fun _ => k))
  (at level 61, right associativity) : turn_scope.
Local Open Scope turn_scope.

(** Where a call of [runScheduledTask] is suspended. *)
Inductive suspended : Type :=
| AwaitTask (attempts : Z)      (* at [await this.taskCallback()] *)
| AwaitBackoff (attempts : Z).  (* at [await new Promise(.. setTimeout ..)] *)

(** How a call of [runScheduledTask] returns (its promise resolves to
    [undefined] each time; the label records the path). *)
Inductive exit : Type :=
| Skipped      (* overlap protection, line 167 *)
| Succeeded    (* [return] in the [try] block, line 186 *)
| LoopExit.    (* the [while] condition failed, line 207 *)

Inductive progress : Type :=
| Suspend (k : suspended)
| Return (x : exit).

Section Host.

(** [cron.validate] of node-cron, and the time zone that
    [detectTimezone()] reports.  [cron.schedule] is taken to succeed on
    every expression that [cron.validate] accepts. *)
Variable cron_validate : jsstring -> bool.
Variable detectedTimezone : jsstring.
Variable config : Config.

Definition timeLabel (s : Schedule) (cronExpr : jsstring) : jsstring :=
  if truthy_string (Some (displayTime s)) then displayTime s
  else extractTimeFromCron cronExpr.

(** [this.cronJob = cron.schedule(cronExpr, .., { timezone })]. *)
Definition arm (cronExpr : jsstring) : M unit :=
  let job := {| expression := cronExpr; timezone := detectedTimezone |} in
  emit (CronSchedule job) ;;
  set_cronJob (Some job).

Definition start (random : Q) : M bool :=
  match scheduling config with
  | Some scheduleConfig =>
      if negb (truthy_bool (enabled scheduleConfig)) then
        log SchedulerDisabled ;; ret false
      else
        let s := buildSchedule scheduleConfig random in
        match cronExpr s with
        | Some (c :: e) =>
            let cronExpr := c :: e in
            if negb (cron_validate cronExpr) then
              log (InvalidSchedule cronExpr) ;; ret false
            else
              arm cronExpr ;;
              set_lastCronExpression (Some cronExpr) ;;
              log (SchedulerStarted (timeLabel s cronExpr) (jitterApplied s)) ;;
              ret true
        | _ => log InvalidScheduleFormat ;; ret false
        end
  | None => log SchedulerDisabled ;; ret false
  end.

Definition stop : M unit :=
  s <- get ;;
  match cronJob s with
  | Some job =>
      emit (CronStop job) ;;
      log SchedulerStopped ;;
      set_cronJob None
  | None => ret tt
  end.

Definition isActive : M bool :=
  s <- get ;;
  ret (match cronJob s with Some _ => true | None => false end).

Definition rescheduleWithJitter (random : Q) : M unit :=
  match scheduling config with
  | Some scheduleConfig =>
      if negb (truthy_bool (enabled scheduleConfig))
         || negb (truthy_string (time scheduleConfig)) then ret tt
      else
        let s := buildSchedule scheduleConfig random in
        match cronExpr s with
        | Some (c :: e) =>
            let cronExpr := c :: e in
            if negb (cron_validate cronExpr) then log RescheduleSkipped
            else
              st <- get ;;
              match cronJob st with
              | Some job => emit (CronStop job)
              | None => ret tt
              end ;;
              arm cronExpr ;;
              set_lastCronExpression (Some cronExpr) ;;
              log (Rescheduled (timeLabel s cronExpr) (jitterApplied s))
        | _ => log RescheduleSkipped
        end
  | None => ret tt
  end.

(** [this.config.crashRecovery?.maxRestarts ?? 1]. *)
Definition maxRetries : Z :=
  match crashRecovery config with
  | Some c => match maxRestarts c with Some n => n | None => 1 end
  | None => 1
  end.

(** [this.config.crashRecovery?.backoffBaseMs ?? 2000]. *)
Definition backoffBase : Z :=
  match crashRecovery config with
  | Some c => match backoffBaseMs c with Some n => n | None => 2000 end
  | None => 2000
  end.

(** The delay of line 194, for the value of [attempts] after the
    increment of line 189. *)
Definition backoffFor (attempts : Z) : Z := backoffBase * attempts.

(** From the test of the [while] loop to the call of the task
    (lines 173-180), or out of the loop to line 206. *)
Definition loop (attempts : Z) (now : Z) (random : Q) : M progress :=
  if attempts <=? maxRetries then
    set_isRunning true ;;
    set_lastRunTime (Some now) ;;
    log RunTriggered ;;
    emit TaskCallback ;;
    ret (Suspend (AwaitTask attempts))
  else
    rescheduleWithJitter random ;;
    ret (Return LoopExit).

(** A call of [runScheduledTask], up to its first suspension. *)
Definition runScheduledTask (now : Z) (random : Q) : M progress :=
  s <- get ;;
  if isRunning s then
    log SkippingRun ;;
    ret (Return Skipped)
  else
    loop 0 now random.

(** The awaited task promise fulfils: lines 182-186, then [finally]. *)
Definition task_fulfilled (random : Q) : M progress :=
  log RunCompleted ;;
  log NextRun ;;
  rescheduleWithJitter random ;;
  set_isRunning false ;;
  ret (Return Succeeded).

(** The awaited task promise rejects with [error]: the [catch] block,
    up to the [await] of line 196 or, past the last attempt, through
    [finally] and back to the test of the loop. *)
Definition task_rejected (attempts : Z) (error : thrown) (now : Z)
    (random : Q) : M progress :=
  let attempts := attempts + 1 in
  let errorMsg := errorMessage error in
  log (RunFailed attempts (maxRetries + 1) errorMsg) ;;
  if attempts <=? maxRetries then
    let backoff := backoffFor attempts in
    log (Retrying backoff) ;;
    emit (SetTimeout backoff) ;;
    ret (Suspend (AwaitBackoff attempts))
  else
    log (MaxRetriesExceeded (maxRetries + 1)) ;;
    set_isRunning false ;;
    loop attempts now random.

(** The backoff timer fires: end of the [catch] block, [finally], and
    the next iteration of the loop. *)
Definition backoff_elapsed (attempts : Z) (now : Z) (random : Q)
    : M progress :=
  set_isRunning false ;;
  loop attempts now random.

Definition triggerNow (now : Z) (random : Q) : M progress :=
  log ManualTrigger ;;
  runScheduledTask now random.

(** ** The event loop *)

(** The object, the suspended calls of [runScheduledTask], and the
    effects so far (oldest first). *)
Record World : Type := {
  scheduler : Scheduler;
  calls : list suspended;
  effects : list effect
}.

Definition boot : World :=
  {| scheduler := fresh; calls := []; effects := [] |}.

(** What the environment can make happen.  [now] is the clock at that
    moment and [random] the value [Math.random()] would return in that
    turn; [i] designates a suspended call. *)
Inductive event : Type :=
| DoStart (random : Q)
| DoStop
| Fire (now : Z) (random : Q)         (* the cron job's callback runs *)
| Manual (now : Z) (random : Q)       (* triggerNow() is called *)
| TaskFulfils (i : nat) (now : Z) (random : Q)
| TaskRejects (i : nat) (error : thrown) (now : Z) (random : Q)
| TimerFires (i : nat) (now : Z) (random : Q).

Definition remove_nth {A} (i : nat) (l : list A) : list A :=
  firstn i l ++ skipn (S i) l.

Definition replace_nth {A} (i : nat) (a : A) (l : list A) : list A :=
  firstn i l ++ a :: skipn (S i) l.

(** A new call ran its first turn. *)
Definition enter (w : World) (t : M progress) : World :=
  let '(p, s, e) := t (scheduler w) in
  {| scheduler := s;
     calls := match p with
              | Suspend k => calls w ++ [k]
              | Return _ => calls w
              end;
     effects := effects w ++ e |}.

(** The suspended call [i] ran one more turn. *)
Definition resume (w : World) (i : nat) (t : M progress) : World :=
  let '(p, s, e) := t (scheduler w) in
  {| scheduler := s;
     calls := match p with
              | Suspend k => replace_nth i k (calls w)
              | Return _ => remove_nth i (calls w)
              end;
     effects := effects w ++ e |}.

(** A method that does not suspend. *)
Definition perform {A} (w : World) (t : M A) : World :=
  let '(_, s, e) := t (scheduler w) in
  {| scheduler := s; calls := calls w; effects := effects w ++ e |}.

Definition step (w : World) (ev : event) : World :=
  match ev with
  | DoStart random => perform w (start random)
  | DoStop => perform w stop
  | Fire now random => enter w (runScheduledTask now random)
  | Manual now random => enter w (triggerNow now random)
  | TaskFulfils i now random =>
      match nth_error (calls w) i with
      | Some (AwaitTask _) => resume w i (task_fulfilled random)
      | _ => w
      end
  | TaskRejects i error now random =>
      match nth_error (calls w) i with
      | Some (AwaitTask attempts) =>
          resume w i (task_rejected attempts error now random)
      | _ => w
      end
  | TimerFires i now random =>
      match nth_error (calls w) i with
      | Some (AwaitBackoff attempts) =>
          resume w i (backoff_elapsed attempts now random)
      | _ => w
      end
  end.

Definition run (w : World) (evs : list event) : World :=
  fold_left step evs w.

(** The states the object can be in. *)
Definition reachable (w : World) : Prop := exists evs, w = run boot evs.

(** A firing: the cron callback or a manual trigger. *)
Definition firing (ev : event) : bool :=
  match ev with Fire _ _ | Manual _ _ => true | _ => false end.

Definition is_call (e : effect) : bool :=
  match e with TaskCallback => true | _ => false end.

Definition is_log (e : effect) : bool :=
  match e with Log _ => true | _ => false end.

(** The effects added by [evs] from [w]. *)
Definition added (w : World) (evs : list event) : list effect :=
  skipn (length (effects w)) (effects (run w evs)).

(** The delays handed to [setTimeout], in order. *)
Fixpoint timeouts (es : list effect) : list Z :=
  match es with
  | SetTimeout ms :: es' => ms :: timeouts es'
  | _ :: es' => timeouts es'
  | [] => []
  end.

Definition invocations (es : list effect) : nat :=
  length (filter is_call es).

(** The failure lines of the log: attempt number, total, message. *)
Fixpoint failure_reports (es : list effect) : list (Z * Z * jsstring) :=
  match es with
  | Log (RunFailed attempts total errorMsg) :: es' =>
      (attempts, total, errorMsg) :: failure_reports es'
  | _ :: es' => failure_reports es'
  | [] => []
  end.

(** The state between two turns: no call is suspended and the guard is
    down, or exactly one call is suspended, the guard is up, and the
    counter of the call is within the retry budget. *)
Definition within_budget (k : suspended) : Prop :=
  match k with
  | AwaitTask attempts => 0 <= attempts <= maxRetries
  | AwaitBackoff attempts => 1 <= attempts <= maxRetries
  end.

Definition settledWorld (w : World) : Prop :=
  (calls w = [] /\ isRunning (scheduler w) = false)
  \/ (exists k, calls w = [k] /\ isRunning (scheduler w) = true
                /\ within_budget k).

(** One failed attempt as the environment produces it: the promise of
    the task rejects with [error] at [rejectedAt]; if a retry follows,
    the backoff timer fires at [resumedAt]. *)
Record failure : Type := {
  error : thrown;
  rejectedAt : Z;
  resumedAt : Z;
  draw : Q
}.

(** The events of a run whose attempts all fail, after its firing: the
    timer fires between two failures. *)
Fixpoint failures (fs : list failure) : list event :=
  match fs with
  | [] => []
  | f :: fs' =>
      TaskRejects 0 (error f) (rejectedAt f) (draw f)
      :: match fs' with
         | [] => []
         | _ :: _ => TimerFires 0 (resumedAt f) (draw f) :: failures fs'
         end
  end.

(** The failure lines such a run writes when it starts with the counter
    at [attempts]. *)
Fixpoint reports (attempts : Z) (fs : list failure)
    : list (Z * Z * jsstring) :=
  match fs with
  | [] => []
  | f :: fs' =>
      (attempts + 1, maxRetries + 1, errorMessage (error f))
      :: reports (attempts + 1) fs'
  end.

(** The delays of [n] successive retries when the counter starts at
    [attempts]. *)
Definition backoffs (attempts : Z) (n : nat) : list Z :=
  map (fun k => backoffFor (attempts + Z.of_nat k)) (seq 1 n).

End Host.

End Engine.

(* ===================================================================== *)
(** * [Retry.run] *)
(* ===================================================================== *)

Module Retry.

(** [maxAttempts] is only ever compared with the counter [attempt], a
    whole number: the field holds a whole number (a fractional value
    would act as the next whole number above it). *)
Record NumericPolicy : Type := {
  maxAttempts : Z;
  baseDelay : Q;
  maxDelay : Q;
  multiplier : Q;
  jitter : Q
}.

(** How one call of [fn], or [run] itself, settles. *)
Inductive settled (T : Type) : Type :=
| Fulfilled (v : T)
| Rejected (e : thrown).
Arguments Fulfilled {T} v.
Arguments Rejected {T} e.

Inductive effect : Type :=
| Call                 (* fn() *)
| Sleep (ms : Q).      (* await new Promise(r => setTimeout(r, ms)) *)

(** The result of [run]: how its promise settles, the last value of the
    counter [attempt], and what it did in order. *)
Record Run (T : Type) : Type := {
  outcome : settled T;
  attempts : nat;
  trace : list effect
}.
Arguments outcome {T} _.
Arguments attempts {T} _.
Arguments trace {T} _.

Section Run.

Context {T : Type}.
Variable policy : NumericPolicy.
(** [fn n] is how the call of [fn] made when [attempt] is [n] settles;
    [random n] is what [Math.random()] returns when [attempt] is [n]. *)
Variable fn : nat -> settled T.
Variable isRetryable : option (thrown -> bool).
Variable random : nat -> Q.

(** [1 + (Math.random() * 2 - 1) * this.policy.jitter]. *)
Definition jitterFactor (r : Q) : Q := 1 + (r * 2 - 1) * jitter policy.

(** The value of [sleep], line 73. *)
Definition sleepFor (delay : Q) (r : Q) : Q :=
  Qmin (maxDelay policy)
       (Qmax 0 (inject_Z (Qfloor (delay * jitterFactor r)))).

(** [this.policy.multiplier || 2]. *)
Definition effectiveMultiplier : Q :=
  if Qeq_bool (multiplier policy) 0 then 2 else multiplier policy.

(** The update of [delay], line 75. *)
Definition nextDelay (delay : Q) : Q :=
  Qmin (maxDelay policy) (inject_Z (Qfloor (delay * effectiveMultiplier))).

(** [isRetryable ? isRetryable(e) : true]. *)
Definition retryable (e : thrown) : bool :=
  match isRetryable with Some f => f e | None => true end.

(** The statement after the loop, line 78. *)
Definition rethrow (attempt : nat) (lastErr : thrown) (tr : list effect)
    : Run T :=
  {| outcome := Rejected (asError lastErr); attempts := attempt;
     trace := tr |}.

(** The [while] loop from its test on; [fuel] bounds the number of
    iterations, [None] means it ran out. *)
Fixpoint loop (fuel : nat) (attempt : nat) (delay : Q) (lastErr : thrown)
    (tr : list effect) : option (Run T) :=
  if Z.of_nat attempt <? maxAttempts policy then
    match fuel with
    | O => None
    | S fuel' =>
        match fn attempt with
        | Fulfilled v =>
            Some {| outcome := Fulfilled v; attempts := attempt;
                    trace := tr ++ [Call] |}
        | Rejected e =>
            let lastErr := e in
            let attempt := S attempt in
            let retry := retryable e in
            if negb retry || (Z.of_nat attempt >=? maxAttempts policy) then
              Some (rethrow attempt lastErr (tr ++ [Call]))
            else
              let sleep := sleepFor delay (random attempt) in
              let delay := nextDelay delay in
              loop fuel' attempt delay lastErr (tr ++ [Call; Sleep sleep])
        end
    end
  else Some (rethrow attempt lastErr tr).

Definition run : option (Run T) :=
  loop (Z.to_nat (maxAttempts policy)) 0 (baseDelay policy) Undefined [].

(** The value of [delay] after [k - 1] updates, that is, the delay that
    jitter is applied to after the [k]-th failure. *)
Definition delayAt (k : nat) : Q :=
  Nat.iter (pred k) nextDelay (baseDelay policy).

(** What [n] failed attempts, each followed by a retry, do when the
    first of them starts with the counter at [attempt] and the delay at
    [delay]. *)
Fixpoint retried (attempt : nat) (delay : Q) (n : nat) : list effect :=
  match n with
  | O => []
  | S n' =>
      Call :: Sleep (sleepFor delay (random (S attempt)))
      :: retried (S attempt) (nextDelay delay) n'
  end.

Definition calls (tr : list effect) : nat :=
  length (filter (fun e => match e with Call => true | _ => false end) tr).

Fixpoint sleeps (tr : list effect) : list Q :=
  match tr with
  | Sleep ms :: tr' => ms :: sleeps tr'
  | _ :: tr' => sleeps tr'
  | [] => []
  end.

End Run.

(** The policies the specification calls valid. *)
Definition valid (p : NumericPolicy) : Prop :=
  1 <= maxAttempts p /\
  (0 <= baseDelay p /\ 0 <= maxDelay p /\ 1 <= multiplier p /\
   0 <= jitter p /\ jitter p <= 1)%Q.

(** A whole number of milliseconds. *)
Definition whole (q : Q) : Prop := exists z : Z, (q == inject_Z z)%Q.

(** What the loop maintains about [delay] once it starts from a whole
    value that is not above the cap: [delay] is whole, or it is the cap
    and stays there. *)
Definition steady (p : NumericPolicy) (d : Q) : Prop :=
  (0 <= d /\ d <= maxDelay p
   /\ (whole d
       \/ (d == maxDelay p
           /\ maxDelay p
              <= inject_Z (Qfloor (maxDelay p * effectiveMultiplier p)))))%Q.

End Retry.

(* ===================================================================== *)
(** * [BackoffPolicy.delayFor] as the specification words it *)
(* ===================================================================== *)

Module Spec.

Record RetryPolicy : Type := {
  maxAttempts : Z;
  baseDelay : Q;
  maxDelay : Q;
  multiplier : Q;
  jitterFraction : Q
}.

Definition valid (p : RetryPolicy) : Prop :=
  1 <= maxAttempts p /\
  (0 <= baseDelay p /\ 0 <= maxDelay p /\ 1 <= multiplier p /\
   0 <= jitterFraction p /\ jitterFraction p <= 1)%Q.

(** nominal delay = baseDelay * multiplier^(attemptIndex-1), clamped to
    maxDelay. *)
Definition nominal (attemptIndex : Z) (p : RetryPolicy) : Q :=
  Qmin (maxDelay p) (baseDelay p * Qpower (multiplier p) (attemptIndex - 1)).

(** actual delay = nominal * (1 + U), re-clamped to [0, maxDelay]. *)
Definition delayFor (attemptIndex : Z) (p : RetryPolicy) (U : Q) : Q :=
  Qmax 0 (Qmin (maxDelay p) (nominal attemptIndex p * (1 + U))).

End Spec.

(* ===================================================================== *)
(** * The rest of the two files *)
(* ===================================================================== *)

(** ** Helpers for the time strings *)

Module Times.

(** [String(n).padStart(2, '0')]. *)
Definition two_digits (n : Z) : jsstring := padStart 2 48%N (String_of_int n).

(** [`HH:MM`], the way [buildSchedule] prints [displayTime]. *)
Definition hhmm (hours minutes : Z) : jsstring :=
  clock_label (String_of_int hours) (String_of_int minutes).

(** Lines 90-95 of [buildSchedule] on the trimmed string: the hours and
    minutes when the pattern matches and both are in range. *)
Definition parseClock (s : jsstring) : option (Z * Z) :=
  match timeMatch s with
  | Some (g1, g2) =>
      let hours := parseInt10 g1 in
      let minutes := parseInt10 g2 in
      if (hours >=? 0) && (hours <=? 23) && (minutes >=? 0) && (minutes <=? 59)
      then Some (hours, minutes) else None
  | None => None
  end.

Definition parseTime (t : jsstring) : option (Z * Z) := parseClock (trim t).

(** The code units of the ten digits, and the numbers below [n]. *)
Definition digit_codes : list N := map N.of_nat (seq 48 10).
Definition below (n : nat) : list Z := map Z.of_nat (seq 0 n).

(** The digits of [parseInt]: the longest run of decimal digits at the
    head of the string, [None] when there is none. *)
Fixpoint leading_digits (s : jsstring) (acc : option Z) : option Z :=
  match s with
  | c :: s' =>
      if isDigit c then
        leading_digits s'
          (Some (match acc with Some a => a | None => 0 end * 10
                 + (Z.of_N c - 48)))
      else acc
  | [] => acc
  end.

(** [parseInt(s, 10)] on any string: leading white space is skipped, a
    sign is read, then the longest run of decimal digits; [None] is [NaN]. *)
Definition parseInt (s : jsstring) : option Z :=
  match trimStart s with
  | 45%N :: s' => option_map Z.opp (leading_digits s' None)
  | 43%N :: s' => leading_digits s' None
  | s' => leading_digits s' None
  end.

(** The configuration [sc] with [t] as its time. *)
Definition with_time (sc : ScheduleConfig) (t : jsstring) : ScheduleConfig :=
  {| enabled := enabled sc; time := Some t; cron := cron sc;
     jitter := jitter sc |}.

Definition schedule_eqb (a b : Schedule) : bool :=
  match cronExpr a, cronExpr b with
  | Some x, Some y => jsstring_eqb x y
  | None, None => true
  | _, _ => false
  end
  && jsstring_eqb (displayTime a) (displayTime b)
  && (jitterApplied a =? jitterApplied b).

End Times.

Import Times.
Import Engine.

(** ** [getNextRunTime] and [getStatus] *)

Module Status.

Record StatusReport : Type := {
  active : bool;
  status_isRunning : bool;
  lastRun : option jsstring;
  nextRun : jsstring
}.

Section Host.

Variable detectedTimezone : jsstring.
Variable config : Config.

(** Lines 288-304 of [getNextRunTime], left to the host: today's date at
    [targetHour]:[targetMinute] in local time, moved to the next day when it
    is not after [now], printed by [toLocaleString] in the time zone;
    [None] when any of it throws. *)
Variable nextOccurrence : Z -> Z -> Z -> jsstring -> option jsstring.

(** [date.toLocaleString()] of the host. *)
Variable toLocaleString : Z -> jsstring.

(** The expression [getNextRunTime] looks at, lines 261-264. *)
Definition cronSchedule (s : Scheduler) (random : Q) : jsstring :=
  match lastCronExpression s with
  | Some e => e
  | None =>
      match
        match scheduling config with
        | Some scheduleConfig =>
            if truthy_string (time scheduleConfig)
            then cronExpr (buildSchedule scheduleConfig random)
            else None
        | None => None
        end
      with
      | Some e => e
      | None =>
          match
            match scheduling config with
            | Some scheduleConfig => legacy_schedule scheduleConfig
            | None => None
            end
          with
          | Some e => e
          | None => lit "0 9 * * *"
          end
      end
  end.

(** Where lines 268-286 of [getNextRunTime] lead for an expression. *)
Inductive reading : Type :=
| InvalidFormat                (* parts.length !== 5 *)
| Varies                       (* a missing or '*' minute or hour *)
| Complex                      (* parseInt gives NaN *)
| At (targetHour targetMinute : Z).

Definition read_expression (cronSchedule : jsstring) : reading :=
  let parts := split_on 32%N cronSchedule in
  if negb (length parts =? 5)%nat then InvalidFormat
  else
    match parts with
    | minute :: hour :: _ =>
        if negb (truthy_string (Some minute))
           || negb (truthy_string (Some hour))
           || jsstring_eqb minute (lit "*")
           || jsstring_eqb hour (lit "*")
        then Varies
        else
          match parseInt hour, parseInt minute with
          | Some targetHour, Some targetMinute => At targetHour targetMinute
          | _, _ => Complex
          end
    | _ => Varies
    end.

Definition getNextRunTime (s : Scheduler) (now : Z) (random : Q) : jsstring :=
  match cronJob s with
  | None => lit "unknown"
  | Some _ =>
      match read_expression (cronSchedule s random) with
      | InvalidFormat => lit "invalid schedule format"
      | Varies => lit "varies (see schedule configuration)"
      | Complex => lit "complex schedule"
      | At targetHour targetMinute =>
          match nextOccurrence now targetHour targetMinute
                  detectedTimezone with
          | Some text => text
          | None => lit "unable to calculate"
          end
      end
  end.

Definition getStatus (s : Scheduler) (now : Z) (random : Q) : StatusReport :=
  {| active := match cronJob s with Some _ => true | None => false end;
     status_isRunning := isRunning s;
     lastRun := option_map toLocaleString (lastRunTime s);
     nextRun := getNextRunTime s now random |}.

End Host.

End Status.

(** ** Cron jobs that are live, and runs that recover *)

Module Lifecycle.

Definition job_eqb (a b : ScheduledTask) : bool :=
  jsstring_eqb (expression a) (expression b)
  && jsstring_eqb (timezone a) (timezone b).

Fixpoint remove_job (j : ScheduledTask) (l : list ScheduledTask)
    : list ScheduledTask :=
  match l with
  | [] => []
  | x :: l' => if job_eqb j x then l' else x :: remove_job j l'
  end.

(** The jobs that [cron.schedule] created and [stop()] has not stopped,
    oldest first. *)
Definition live_step (l : list ScheduledTask) (e : effect)
    : list ScheduledTask :=
  match e with
  | CronSchedule j => l ++ [j]
  | CronStop j => remove_job j l
  | _ => l
  end.

Definition live_jobs (es : list effect) : list ScheduledTask :=
  fold_left live_step es [].

(** The effects on cron jobs. *)
Definition is_cron (e : effect) : bool :=
  match e with CronSchedule _ | CronStop _ => true | _ => false end.

Definition is_start (ev : event) : bool :=
  match ev with DoStart _ => true | _ => false end.

Definition is_stop (ev : event) : bool :=
  match ev with DoStop => true | _ => false end.

(** What [rescheduleWithJitter], [start] and [stop] emit: cron effects and
    their own log lines. *)
Definition is_clock_note (e : effect) : bool :=
  match e with
  | CronSchedule _ | CronStop _ => true
  | Log RescheduleSkipped | Log (Rescheduled _ _) => true
  | Log SchedulerDisabled | Log InvalidScheduleFormat
  | Log (InvalidSchedule _) | Log (SchedulerStarted _ _)
  | Log SchedulerStopped => true
  | _ => false
  end.

(** The job the object held, as the list of its [stop()] effects. *)
Definition stop_of (j : option ScheduledTask) : list effect :=
  match j with Some job => [CronStop job] | None => [] end.

(** The events of [fs] failed attempts that are each retried, followed by
    the attempt that succeeds at [fulfilledAt]. *)
Fixpoint recoveries (fs : list failure) (fulfilledAt : Z) (random : Q)
    : list event :=
  match fs with
  | [] => [TaskFulfils 0 fulfilledAt random]
  | f :: fs' =>
      TaskRejects 0 (error f) (rejectedAt f) (draw f)
      :: TimerFires 0 (resumedAt f) (draw f)
      :: recoveries fs' fulfilledAt random
  end.

(** The time the last attempt of such a run starts: the last timer, or
    [firedAt] when no attempt failed. *)
Definition last_start (fs : list failure) (firedAt : option Z) : option Z :=
  fold_left (fun _ f => Some (resumedAt f)) fs firedAt.

(** The job the object holds, as a list. *)
Definition held (s : Scheduler) : list ScheduledTask :=
  match cronJob s with Some j => [j] | None => [] end.

Definition completions (es : list effect) : nat :=
  length (filter (fun e => match e with Log RunCompleted => true | _ => false end) es).

Definition exhaustions (es : list effect) : nat :=
  length (filter (fun e => match e with Log (MaxRetriesExceeded _) => true | _ => false end) es).

Section Host.

Variable cron_validate : jsstring -> bool.
Variable detectedTimezone : jsstring.
Variable config : Config.

(** The states reached when [start()] is only called on an object that
    holds no cron job. *)
Inductive orderly : Engine.World -> Prop :=
| orderly_boot : orderly Engine.boot
| orderly_step (w : Engine.World) (ev : event) :
    orderly w ->
    (is_start ev = true -> cronJob (scheduler w) = None) ->
    orderly (Engine.step cron_validate detectedTimezone config w ev).

(** Who runs a turn: [start()], [stop()], or a call of [runScheduledTask]. *)
Inductive origin : Type := ByStart | ByStop | ByRun.

Definition origin_of (ev : event) : origin :=
  match ev with
  | DoStart _ => ByStart
  | DoStop => ByStop
  | _ => ByRun
  end.

(** How a turn changes the job the object holds, with the cron effects
    [ce] it emits: nothing changes; [stop()] stops the job and drops it;
    [start()] arms a job for the expression resolved from the
    configuration, without stopping any; a run re-arms, which happens for a
    schedule with a configured time only and stops the job held before. *)
Inductive cron_change (o : origin) (s s' : Scheduler) (ce : list effect)
    : Prop :=
| cron_unchanged :
    cronJob s' = cronJob s ->
    lastCronExpression s' = lastCronExpression s ->
    ce = [] ->
    cron_change o s s' ce
| cron_stopped (j : ScheduledTask) :
    o = ByStop ->
    cronJob s = Some j -> cronJob s' = None ->
    lastCronExpression s' = lastCronExpression s ->
    ce = [CronStop j] ->
    cron_change o s s' ce
| cron_armed (sc : ScheduleConfig) (random : Q) (e : jsstring) :
    scheduling config = Some sc -> enabled sc = Some true ->
    cronExpr (buildSchedule sc random) = Some e ->
    cron_validate e = true ->
    cronJob s' = Some {| expression := e; timezone := detectedTimezone |} ->
    lastCronExpression s' = Some e ->
    (o = ByStart
     /\ ce = [CronSchedule {| expression := e; timezone := detectedTimezone |}])
    \/ (o = ByRun /\ truthy_string (time sc) = true
        /\ ce = stop_of (cronJob s)
                ++ [CronSchedule {| expression := e;
                                    timezone := detectedTimezone |}]) ->
    cron_change o s s' ce.

(** A turn either leaves the last-run time alone and does not call the
    task, or calls the task once and stamps the last-run time. *)
Definition attempt_mark (s s' : Scheduler) (e : list effect) : Prop :=
  (lastRunTime s' = lastRunTime s /\ filter is_call e = [])
  \/ (exists now, lastRunTime s' = Some now
                  /\ filter is_call e = [TaskCallback]).

(** How one turn of a run changes the cron job and the last-run time. *)
Definition changes {A} (t : M A) (s : Scheduler) : Prop :=
  exists a s' e,
    t s = (a, s', e)
    /\ cron_change ByRun s s' (filter is_cron e)
    /\ attempt_mark s s' e.

(** What holds of the job the object holds: it was armed with the
    expression the object remembers, in the detected time zone,
    [cron.validate] accepts that expression, and it was resolved from the
    configuration. *)
Definition armed_as_remembered (s : Scheduler) : Prop :=
  forall j, cronJob s = Some j ->
    lastCronExpression s = Some (expression j)
    /\ timezone j = detectedTimezone
    /\ cron_validate (expression j) = true
    /\ exists sc random,
         scheduling config = Some sc /\ enabled sc = Some true
         /\ cronExpr (buildSchedule sc random) = Some (expression j).

End Host.

End Lifecycle.

Import Lifecycle.

(** ** The constructor of [Retry] *)

Module Policy.

(** A duration of the configuration: a number of milliseconds or a text. *)
Inductive duration : Type :=
| Ms (q : Q)
| Text (s : jsstring).

Record ConfigRetryPolicy : Type := {
  maxAttempts : option Z;
  baseDelay : option duration;
  maxDelay : option duration;
  multiplier : option Q;
  jitter : option Q
}.

Definition def : Retry.NumericPolicy :=
  {| Retry.maxAttempts := 3; Retry.baseDelay := 1000;
     Retry.maxDelay := 30000; Retry.multiplier := 2;
     Retry.jitter := 2 # 10 |}.

(** The policy [p] with another multiplier. *)
Definition with_multiplier (p : Retry.NumericPolicy) (m : Q)
    : Retry.NumericPolicy :=
  {| Retry.maxAttempts := Retry.maxAttempts p;
     Retry.baseDelay := Retry.baseDelay p;
     Retry.maxDelay := Retry.maxDelay p;
     Retry.multiplier := m;
     Retry.jitter := Retry.jitter p |}.

Definition empty : ConfigRetryPolicy :=
  {| maxAttempts := None; baseDelay := None; maxDelay := None;
     multiplier := None; jitter := None |}.

Section Host.

(** [Util.stringToMs], [None] when it throws. *)
Variable stringToMs : jsstring -> option Q.

Definition parse (v : duration) : Q :=
  match v with
  | Ms q => q
  | Text s =>
      match stringToMs s with
      | Some q => q
      | None => Retry.baseDelay def
      end
  end.

(** [new Retry(policy)]: the value of [this.policy]. *)
Definition new (policy : option ConfigRetryPolicy) : Retry.NumericPolicy :=
  let merged := match policy with Some p => p | None => empty end in
  {| Retry.maxAttempts :=
       match maxAttempts merged with
       | Some n => n | None => Retry.maxAttempts def end;
     Retry.baseDelay :=
       parse (match baseDelay merged with
              | Some d => d | None => Ms (Retry.baseDelay def) end);
     Retry.maxDelay :=
       parse (match maxDelay merged with
              | Some d => d | None => Ms (Retry.maxDelay def) end);
     Retry.multiplier :=
       match multiplier merged with
       | Some m => m | None => Retry.multiplier def end;
     Retry.jitter :=
       match jitter merged with
       | Some j => j | None => Retry.jitter def end |}.

End Host.

End Policy.

(** ** The shape of what [Retry.run] does *)

Module Trace.

(** A call followed by a sleep, any number of times: what [run] has done
    when it comes back to the test of its loop. *)
Fixpoint paired (tr : list Retry.effect) : bool :=
  match tr with
  | [] => true
  | Retry.Call :: Retry.Sleep _ :: tr' => paired tr'
  | _ => false
  end.

(** Calls with exactly one sleep between two of them: the first and the
    last effect are calls, and no two calls and no two sleeps follow each
    other. *)
Fixpoint spaced (tr : list Retry.effect) : bool :=
  match tr with
  | [Retry.Call] => true
  | Retry.Call :: Retry.Sleep _ :: tr' => spaced tr'
  | _ => false
  end.

End Trace.

(* ===================================================================== *)
(** * The arithmetic of the two files on doubles *)
(* ===================================================================== *)

(** The functions above take the numbers of the code as exact integers and
    rationals.  That is what the code computes as long as no value leaves
    the range in which binary64 is exact; [applyJitter] and the delays of
    [Retry.run] are embedded a second time here, on binary64 values with
    the rounding of every operation, to say where that range ends and what
    happens beyond it. *)

(** ** binary64 *)

(** A finite value is the rational it denotes ([m * 2^e] with [|m| < 2^53]
    and [-1074 <= e <= 971]).  The two zeros are one value: the two files
    never divide by a number that can be zero, and [String(-0)] is ["0"].
    Every operation rounds the exact result to the nearest value of the
    format, ties to even, and overflows to an infinity.  [Math.random()]
    returns a value of the format in [[0, 1)], that is, at most
    [1 - 2^-53]. *)

Module Binary64.

(** 2^e as a rational, for any integer e. *)
Definition pow2 (e : Z) : Q := Qpower 2 e.

(** The integer [e] with 2^e <= x < 2^(e+1), for a positive [x]. *)
Definition ilog2 (x : Q) : Z :=
  let e := Z.log2 (Qnum x) - Z.log2 (Zpos (Qden x)) in
  if Qle_bool (pow2 e) x then e else e - 1.

(** The nearest integer, ties to the even one. *)
Definition nearest_even (x : Q) : Z :=
  let f := Qfloor x in
  match Qcompare (x - inject_Z f) (1 # 2) with
  | Lt => f
  | Gt => f + 1
  | Eq => if Z.even f then f else f + 1
  end.

(** The exponent of the last place of the binade of [x]. *)
Definition ulp_exp (x : Q) : Z := Z.max (ilog2 (Qabs x) - 52) (-1074).

Definition round (x : Q) : jsnum :=
  let x := Qred x in
  if Qeq_bool x 0 then Num 0
  else
    let e := ulp_exp x in
    let y := Qred (inject_Z (nearest_even (x * pow2 (- e))) * pow2 e) in
    if Qle_bool (pow2 1024) (Qabs y) then
      if Qle_bool 0 x then Infinity else NegInfinity
    else Num y.


(** The sign of a finite value: the zero of the embedding has no sign. *)
Definition positive (x : Q) : bool := negb (Qle_bool x 0).
Definition negative (x : Q) : bool := negb (Qle_bool 0 x).

(** [a + b]. *)
Definition add (a b : jsnum) : jsnum :=
  match a, b with
  | NaN, _ | _, NaN => NaN
  | Infinity, NegInfinity | NegInfinity, Infinity => NaN
  | Infinity, _ | _, Infinity => Infinity
  | NegInfinity, _ | _, NegInfinity => NegInfinity
  | Num x, Num y => round (x + y)%Q
  end.

(** [- a]. *)
Definition neg (a : jsnum) : jsnum :=
  match a with
  | NaN => NaN
  | Infinity => NegInfinity
  | NegInfinity => Infinity
  | Num x => Num (- x)%Q
  end.

(** [a - b]. *)
Definition sub (a b : jsnum) : jsnum := add a (neg b).

(** [a * b]. *)
Definition mul (a b : jsnum) : jsnum :=
  match a, b with
  | NaN, _ | _, NaN => NaN
  | Num x, Num y => round (x * y)%Q
  | Num x, Infinity | Infinity, Num x =>
      if positive x then Infinity else if negative x then NegInfinity else NaN
  | Num x, NegInfinity | NegInfinity, Num x =>
      if positive x then NegInfinity else if negative x then Infinity else NaN
  | Infinity, Infinity | NegInfinity, NegInfinity => Infinity
  | Infinity, NegInfinity | NegInfinity, Infinity => NegInfinity
  end.

(** [a / d] for a finite divisor [d] that is not zero. *)
Definition div_by (a : jsnum) (d : Q) : jsnum :=
  match a with
  | NaN => NaN
  | Num x => round (x / d)%Q
  | Infinity => if positive d then Infinity else NegInfinity
  | NegInfinity => if positive d then NegInfinity else Infinity
  end.

(** [a % d] for a finite divisor [d] that is not zero: the remainder has
    the sign of [a] and is exact. *)
Definition rem_by (a : jsnum) (d : Q) : jsnum :=
  match a with
  | Num x =>
      let q := (x / d)%Q in
      let t := if Qle_bool 0 q then Qfloor q else Qceiling q in
      Num (Qred (x - inject_Z t * d)%Q)
  | _ => NaN
  end.

(** [Math.floor], [Math.ceil], [Math.abs]. *)
Definition floor (a : jsnum) : jsnum :=
  match a with Num x => Num (inject_Z (Qfloor x)) | _ => a end.

Definition ceil (a : jsnum) : jsnum :=
  match a with Num x => Num (inject_Z (Qceiling x)) | _ => a end.

Definition abs (a : jsnum) : jsnum :=
  match a with
  | Num x => Num (Qabs x)
  | NegInfinity => Infinity
  | _ => a
  end.

(** [a < b] and [a >= b]: false as soon as one side is [NaN]. *)
Definition lt (a b : jsnum) : bool :=
  match a, b with
  | NaN, _ | _, NaN => false
  | Num x, Num y => negb (Qle_bool y x)
  | NegInfinity, NegInfinity => false
  | NegInfinity, _ => true
  | _, Infinity => match a with Infinity => false | _ => true end
  | _, _ => false
  end.

Definition ge (a b : jsnum) : bool :=
  match a, b with
  | NaN, _ | _, NaN => false
  | _, _ => negb (lt a b)
  end.

(** [Math.min(a, b)] and [Math.max(a, b)]. *)
Definition min (a b : jsnum) : jsnum :=
  match a, b with
  | NaN, _ | _, NaN => NaN
  | _, _ => if lt b a then b else a
  end.

Definition max (a b : jsnum) : jsnum :=
  match a, b with
  | NaN, _ | _, NaN => NaN
  | _, _ => if lt a b then b else a
  end.

(** [a === 0]. *)
Definition is_zero (a : jsnum) : bool :=
  match a with Num x => Qeq_bool x 0 | _ => false end.

End Binary64.

(** ** [applyJitter], [getRandomInt] and the delays of [Retry.run] on doubles *)

Module Rounded.

Record Jittered : Type := {
  hour : jsnum;
  minute : jsnum;
  offsetMinutes : jsnum
}.

(** [Number.isFinite(x) ? Number(x) : d]. *)
Definition finite_or (x : option jsnum) (d : Q) : jsnum :=
  match x with
  | Some (Num q) => Num q
  | _ => Num d
  end.

Definition getRandomInt (minInclusive maxInclusive : jsnum) (random : Q)
    : jsnum :=
  let min := Binary64.ceil minInclusive in
  let max := Binary64.floor maxInclusive in
  Binary64.add
    (Binary64.floor
       (Binary64.mul (Num random)
          (Binary64.add (Binary64.sub max min) (Num 1))))
    min.

Definition minutesInDay : jsnum := Binary64.mul (Num 24) (Num 60).

(** [while (totalMinutes < 0) totalMinutes += minutesInDay]; [fuel] bounds
    the number of iterations, [None] means it ran out. *)
Fixpoint raise_total (fuel : nat) (totalMinutes : jsnum) : option jsnum :=
  if Binary64.lt totalMinutes (Num 0) then
    match fuel with
    | O => None
    | S fuel' => raise_total fuel' (Binary64.add totalMinutes minutesInDay)
    end
  else Some totalMinutes.

(** [while (totalMinutes >= minutesInDay) totalMinutes -= minutesInDay]. *)
Fixpoint lower_total (fuel : nat) (totalMinutes : jsnum) : option jsnum :=
  if Binary64.ge totalMinutes minutesInDay then
    match fuel with
    | O => None
    | S fuel' => lower_total fuel' (Binary64.sub totalMinutes minutesInDay)
    end
  else Some totalMinutes.

(** The optional-chained reads of [applyJitter]. *)
Definition jitter_before (j : option Resolver.JitterConfig) : jsnum :=
  finite_or (match j with
             | Some c => Resolver.minMinutesBefore c | None => None
             end) 20.

Definition jitter_after (j : option Resolver.JitterConfig) : jsnum :=
  finite_or (match j with
             | Some c => Resolver.maxMinutesAfter c | None => None
             end) 30.

Definition applyJitter (fuel : nat) (hour minute : Z)
    (jitter : option Resolver.JitterConfig) (random : Q) : option Jittered :=
  let enabled := Resolver.jitter_is_enabled jitter in
  let before := jitter_before jitter in
  let after := jitter_after jitter in
  let hour := Num (inject_Z hour) in
  let minute := Num (inject_Z minute) in
  if negb enabled || (Binary64.is_zero before && Binary64.is_zero after) then
    Some {| hour := hour; minute := minute; offsetMinutes := Num 0 |}
  else
    let minOffset := Binary64.neg (Binary64.abs before) in
    let maxOffset := Binary64.abs after in
    let offset := getRandomInt minOffset maxOffset random in
    let totalMinutes :=
      Binary64.add (Binary64.add (Binary64.mul hour (Num 60)) minute) offset in
    match raise_total fuel totalMinutes with
    | None => None
    | Some totalMinutes =>
        match lower_total fuel totalMinutes with
        | None => None
        | Some totalMinutes =>
            let jitteredHour :=
              Binary64.floor (Binary64.div_by totalMinutes 60) in
            let jitteredMinute := Binary64.rem_by totalMinutes 60 in
            Some {| hour := jitteredHour; minute := jitteredMinute;
                    offsetMinutes := offset |}
        end
    end.

(** A number of iterations that is enough for the two loops when the
    window has the bounds [before] and [after]. *)
Definition enough (jitter : option Resolver.JitterConfig) : nat :=
  Z.to_nat ((Qfloor (Qabs (Resolver.jitter_before jitter))
             + Qfloor (Qabs (Resolver.jitter_after jitter))) / 1440 + 1).

(** The record of the integer embedding, as numbers. *)
Definition of_exact (j : Resolver.Jittered) : Jittered :=
  {| hour := Num (inject_Z (Resolver.hour j));
     minute := Num (inject_Z (Resolver.minute j));
     offsetMinutes := Num (inject_Z (Resolver.offsetMinutes j)) |}.

(** ** Lines 72-75 of [Retry.run] *)

(** [1 + (Math.random() * 2 - 1) * this.policy.jitter]. *)
Definition jitterFactor (policy : Retry.NumericPolicy) (r : Q) : jsnum :=
  Binary64.add (Num 1)
    (Binary64.mul
       (Binary64.sub (Binary64.mul (Num r) (Num 2)) (Num 1))
       (Num (Retry.jitter policy))).

(** The value of [sleep], line 73. *)
Definition sleepFor (policy : Retry.NumericPolicy) (delay : jsnum) (r : Q)
    : jsnum :=
  Binary64.min (Num (Retry.maxDelay policy))
    (Binary64.max (Num 0)
       (Binary64.floor (Binary64.mul delay (jitterFactor policy r)))).

(** The update of [delay], line 75. *)
Definition nextDelay (policy : Retry.NumericPolicy) (delay : jsnum) : jsnum :=
  Binary64.min (Num (Retry.maxDelay policy))
    (Binary64.floor
       (Binary64.mul delay (Num (Retry.effectiveMultiplier policy)))).

(** The value of [delay] after [k - 1] updates. *)
Definition delayAt (policy : Retry.NumericPolicy) (k : nat) : jsnum :=
  Nat.iter (pred k) (nextDelay policy) (Num (Retry.baseDelay policy)).

End Rounded.

(* ===================================================================== *)
(** * Properties of schedule resolution *)
(* ===================================================================== *)

Import Engine.

Local Ltac zdm := unfold minutesInDay in *; Z.div_mod_to_equations; lia.

(** The first loop of [applyJitter] leaves a non-negative total alone and
    otherwise lands on the residue modulo a day. *)
Lemma raise_total_spec (t : Z) :
  raise_total t = if t <? 0 then t mod minutesInDay else t.
Proof.
  funelim (raise_total t).
  - match goal with IH : raise_total _ = (if _ then _ else _) |- _ =>
      rewrite IH end.
    destruct (Z.ltb_spec (totalMinutes + minutesInDay) 0);
      destruct (Z.ltb_spec totalMinutes 0); try lia.
    + zdm.
    + zdm.
  - destruct (Z.ltb_spec totalMinutes 0); [lia | reflexivity].
Qed.

(** The second loop leaves a total below one day alone and otherwise lands on
    the residue modulo a day. *)
Lemma lower_total_spec (t : Z) :
  lower_total t = if t >=? minutesInDay then t mod minutesInDay else t.
Proof.
  funelim (lower_total t).
  - match goal with IH : lower_total _ = (if _ then _ else _) |- _ =>
      rewrite IH end.
    destruct (Z.geb_spec (totalMinutes - minutesInDay) minutesInDay);
      destruct (Z.geb_spec totalMinutes minutesInDay); try lia; zdm.
  - destruct (Z.geb_spec totalMinutes minutesInDay); [lia | reflexivity].
Qed.

Lemma wrap_total (t : Z) : lower_total (raise_total t) = t mod minutesInDay.
Proof.
  rewrite raise_total_spec, lower_total_spec.
  destruct (Z.ltb_spec t 0).
  - destruct (Z.geb_spec (t mod minutesInDay) minutesInDay); zdm.
  - destruct (Z.geb_spec t minutesInDay); zdm.
Qed.

Lemma Qfloor_nonneg (x : Q) : (0 <= x)%Q -> 0 <= Qfloor x.
Proof.
  intros H. change 0 with (Qfloor 0). apply Qfloor_resp_le. exact H.
Qed.

Lemma Qfloor_below (x : Q) (n : Z) : (x < inject_Z n)%Q -> Qfloor x < n.
Proof.
  intros H. rewrite Zlt_Qlt.
  apply Qle_lt_trans with x; [apply Qfloor_le | exact H].
Qed.

Lemma Qabs_opp_eq (q : Q) : Qabs (- q) = Qabs q.
Proof. destruct q as [n d]. destruct n; reflexivity. Qed.

Lemma Qeq_bool_opp_0 (q : Q) : Qeq_bool (- q) 0 = Qeq_bool q 0.
Proof. destruct q as [n d]. destruct n; reflexivity. Qed.

(** A configured time that fails the check resolves to no expression,
    whatever the other fields hold; only the empty string is passed over. *)
Lemma buildSchedule_malformed (sc : ScheduleConfig) (t : jsstring) (random : Q) :
  time sc = Some t -> t <> [] -> wellFormedTime t = false ->
  buildSchedule sc random = invalidSchedule.
Proof.
  intros Ht Hne Hbad. unfold buildSchedule, wellFormedTime in *. rewrite Ht.
  destruct t as [|c t']; [congruence|]. cbn [truthy_string].
  destruct (timeMatch (trim (c :: t'))) as [[g1 g2]|]; [|reflexivity].
  rewrite Hbad. reflexivity.
Qed.

(** A configured time that passes the check resolves to the daily
    expression of the jittered pair. *)
Lemma buildSchedule_daily (sc : ScheduleConfig) (t : jsstring) (random : Q) :
  time sc = Some t -> wellFormedTime t = true ->
  exists h m,
    0 <= h <= 23 /\ 0 <= m <= 59 /\
    let j := applyJitter h m (jitter sc) random in
    cronExpr (buildSchedule sc random) = Some (daily_expression (minute j) (hour j))
    /\ jitterApplied (buildSchedule sc random) = offsetMinutes j.
Proof.
  intros Ht Hok. unfold buildSchedule, wellFormedTime in *. rewrite Ht.
  destruct t as [|c t']; [discriminate Hok|]. cbn [truthy_string].
  destruct (timeMatch (trim (c :: t'))) as [[g1 g2]|]; [|discriminate].
  rewrite Hok. exists (parseInt10 g1), (parseInt10 g2).
  repeat rewrite andb_true_iff in Hok. cbn. intuition lia.
Qed.




(* ===================================================================== *)
(** * Properties of the run path *)
(* ===================================================================== *)

Section Runs.

Variable cron_validate : jsstring -> bool.
Variable detectedTimezone : jsstring.
Variable config : Config.

Abbreviation World := Engine.World.
Abbreviation step := (Engine.step cron_validate detectedTimezone config).
Abbreviation run := (Engine.run cron_validate detectedTimezone config).
Abbreviation reachable := (Engine.reachable cron_validate detectedTimezone config).
Abbreviation rescheduleWithJitter :=
  (Engine.rescheduleWithJitter cron_validate detectedTimezone config).
Abbreviation loop := (Engine.loop cron_validate detectedTimezone config).
Abbreviation runScheduledTask :=
  (Engine.runScheduledTask cron_validate detectedTimezone config).
Abbreviation triggerNow := (Engine.triggerNow cron_validate detectedTimezone config).
Abbreviation task_fulfilled :=
  (Engine.task_fulfilled cron_validate detectedTimezone config).
Abbreviation task_rejected :=
  (Engine.task_rejected cron_validate detectedTimezone config).
Abbreviation backoff_elapsed :=
  (Engine.backoff_elapsed cron_validate detectedTimezone config).
Abbreviation maxRetries := (Engine.maxRetries config).
Abbreviation backoffFor := (Engine.backoffFor config).
Abbreviation settledWorld := (Engine.settledWorld config).
Abbreviation within_budget := (Engine.within_budget config).
Abbreviation reports := (Engine.reports config).
Abbreviation backoffs := (Engine.backoffs config).

Local Ltac turn :=
  unfold Engine.bind, Engine.ret, Engine.log, Engine.emit, Engine.get,
    Engine.set_isRunning, Engine.set_lastRunTime, Engine.set_cronJob,
    Engine.set_lastCronExpression, Engine.arm in *;
  cbn [fst snd isRunning lastRunTime cronJob lastCronExpression app] in *.

(** Re-arming the clock touches neither the guard nor the last-run time,
    and neither calls the task nor sets a timer. *)
Lemma reschedule_frame (random : Q) (s : Scheduler) :
  exists s' e,
    rescheduleWithJitter random s = (tt, s', e)
    /\ isRunning s' = isRunning s
    /\ lastRunTime s' = lastRunTime s
    /\ filter is_call e = []
    /\ timeouts e = []
    /\ failure_reports e = [].
Proof.
  unfold Engine.rescheduleWithJitter.
  destruct (scheduling config) as [sc|]; [|turn; eauto 10].
  destruct (negb (truthy_bool (enabled sc)) || negb (truthy_string (time sc)));
    [turn; eauto 10|].
  destruct (cronExpr (buildSchedule sc random)) as [[|c e]|];
    [turn; eauto 10 | | turn; eauto 10].
  destruct (negb (cron_validate (c :: e))); [turn; eauto 10|].
  turn. destruct (cronJob s); turn; eauto 10.
Qed.

(** An attempt begins: lines 173-180. *)
Lemma loop_attempt (attempts now : Z) (random : Q) (s : Scheduler) :
  attempts <= maxRetries ->
  loop attempts now random s
  = (Suspend (AwaitTask attempts),
     {| cronJob := cronJob s; isRunning := true; lastRunTime := Some now;
        lastCronExpression := lastCronExpression s |},
     [Log RunTriggered; TaskCallback]).
Proof.
  intros H. unfold Engine.loop.
  destruct (Z.leb_spec attempts maxRetries); [|lia]. reflexivity.
Qed.

(** The loop is left: line 206. *)
Lemma loop_leave (attempts now : Z) (random : Q) (s : Scheduler) :
  maxRetries < attempts ->
  exists s' e,
    loop attempts now random s = (Return LoopExit, s', e)
    /\ isRunning s' = isRunning s
    /\ lastRunTime s' = lastRunTime s
    /\ filter is_call e = []
    /\ timeouts e = []
    /\ failure_reports e = [].
Proof.
  intros H. unfold Engine.loop.
  destruct (Z.leb_spec attempts maxRetries); [lia|].
  destruct (reschedule_frame random s) as (s' & e & E & F).
  turn. rewrite E. exists s', e. rewrite app_nil_r. auto.
Qed.

Lemma start_frame (random : Q) (s : Scheduler) :
  isRunning (snd (fst (Engine.start cron_validate detectedTimezone config random s)))
  = isRunning s.
Proof.
  unfold Engine.start.
  destruct (scheduling config) as [sc|]; [|reflexivity].
  destruct (negb (truthy_bool (enabled sc))); [reflexivity|].
  destruct (cronExpr (buildSchedule sc random)) as [[|c e]|]; try reflexivity.
  destruct (negb (cron_validate (c :: e))); reflexivity.
Qed.

Lemma stop_frame (s : Scheduler) :
  isRunning (snd (fst (Engine.stop s))) = isRunning s.
Proof. unfold Engine.stop. turn. destruct (cronJob s); reflexivity. Qed.

Lemma settledWorld_step (w : World) (ev : event) :
  settledWorld w -> settledWorld (step w ev).
Proof.
  intros Hw. destruct ev as [r| |now r|now r|i now r|i err now r|i now r];
    cbn [Engine.step].
  - (* start *)
    unfold Engine.perform.
    pose proof (start_frame r (scheduler w)) as F.
    destruct (Engine.start _ _ _ r (scheduler w)) as [[b s'] e].
    cbn [fst snd] in F. unfold Engine.settledWorld in *.
    cbn [calls scheduler]. rewrite F. exact Hw.
  - (* stop *)
    unfold Engine.perform.
    pose proof (stop_frame (scheduler w)) as F.
    destruct (Engine.stop (scheduler w)) as [[b s'] e].
    cbn [fst snd] in F. unfold Engine.settledWorld in *.
    cbn [calls scheduler]. rewrite F. exact Hw.
  - (* cron firing *)
    unfold Engine.enter, Engine.runScheduledTask. turn.
    destruct Hw as [[Hc Hr]|(k & Hc & Hr & Hk)]; rewrite Hr.
    + destruct (Z.le_gt_cases 0 maxRetries) as [Hm|Hm].
      * rewrite loop_attempt by exact Hm. right.
        exists (AwaitTask 0). cbn. rewrite Hc. repeat split; lia.
      * destruct (loop_leave 0 now r (scheduler w) ltac:(lia))
          as (s' & e & E & F1 & _).
        rewrite E. left. cbn. split; [exact Hc | congruence].
    + right. exists k. cbn. auto.
  - (* manual trigger *)
    unfold Engine.enter, Engine.triggerNow, Engine.runScheduledTask. turn.
    destruct Hw as [[Hc Hr]|(k & Hc & Hr & Hk)]; rewrite Hr.
    + destruct (Z.le_gt_cases 0 maxRetries) as [Hm|Hm].
      * rewrite loop_attempt by exact Hm. right.
        exists (AwaitTask 0). cbn. rewrite Hc. repeat split; lia.
      * destruct (loop_leave 0 now r (scheduler w) ltac:(lia))
          as (s' & e & E & F1 & _).
        rewrite E. left. cbn. split; [exact Hc | congruence].
    + right. exists k. cbn. auto.
  - (* the task fulfils *)
    destruct Hw as [[Hc Hr]|(k & Hc & Hr & Hk)]; rewrite Hc.
    { destruct i; cbn; left; auto. }
    destruct i as [|i]; [|destruct i; cbn; right; eauto].
    cbn [nth_error]. destruct k as [a|a]; [|right; eauto].
    unfold Engine.resume, Engine.task_fulfilled. turn.
    destruct (reschedule_frame r (scheduler w)) as (s' & e & E & _).
    rewrite E. left. cbn. rewrite Hc. auto.
  - (* the task rejects *)
    destruct Hw as [[Hc Hr]|(k & Hc & Hr & Hk)]; rewrite Hc.
    { destruct i; cbn; left; auto. }
    destruct i as [|i]; [|destruct i; cbn; right; eauto].
    cbn [nth_error]. destruct k as [a|a]; [|right; eauto].
    cbn in Hk.
    unfold Engine.resume, Engine.task_rejected. turn.
    destruct (Z.leb_spec (a + 1) maxRetries) as [Hm|Hm].
    + right. exists (AwaitBackoff (a + 1)). cbn. rewrite Hc.
      repeat split; auto; lia.
    + turn.
      match goal with |- context [loop ?x ?y ?z ?s] =>
        destruct (loop_leave x y z s Hm) as (s' & e & E & F1 & _) end.
      rewrite E. left. cbn. rewrite Hc. split; [reflexivity | exact F1].
  - (* the backoff timer fires *)
    destruct Hw as [[Hc Hr]|(k & Hc & Hr & Hk)]; rewrite Hc.
    { destruct i; cbn; left; auto. }
    destruct i as [|i]; [|destruct i; cbn; right; eauto].
    cbn [nth_error]. destruct k as [a|a]; [right; eauto|].
    cbn in Hk.
    unfold Engine.resume, Engine.backoff_elapsed. turn.
    rewrite loop_attempt by lia. right.
    exists (AwaitTask a). cbn. rewrite Hc. repeat split; auto; lia.
Qed.

Lemma settledWorld_run (evs : list event) (w : World) :
  settledWorld w -> settledWorld (run w evs).
Proof.
  revert w. induction evs as [|ev evs IH]; intros w Hw; [exact Hw|].
  cbn. apply IH, settledWorld_step, Hw.
Qed.

Lemma settledWorld_reachable (w : World) : reachable w -> settledWorld w.
Proof.
  intros [evs ->]. apply settledWorld_run. left. split; reflexivity.
Qed.

(** ** Effects only accumulate *)

Lemma step_frame (s : Scheduler) (c : list suspended) (es : list effect)
    (ev : event) :
  step {| scheduler := s; calls := c; effects := es |} ev
  = let w0 := step {| scheduler := s; calls := c; effects := [] |} ev in
    {| scheduler := scheduler w0; calls := calls w0;
       effects := es ++ effects w0 |}.
Proof.
  destruct ev as [r| |now r|now r|i now r|i err now r|i now r];
    cbn [Engine.step calls].
  - unfold Engine.perform. cbn [scheduler effects calls].
    destruct (Engine.start _ _ _ _ _) as [[b s'] e]. reflexivity.
  - unfold Engine.perform. cbn [scheduler effects calls].
    destruct (Engine.stop _) as [[b s'] e]. reflexivity.
  - unfold Engine.enter. cbn [scheduler effects calls].
    destruct (runScheduledTask _ _ _) as [[b s'] e]. reflexivity.
  - unfold Engine.enter. cbn [scheduler effects calls].
    destruct (triggerNow _ _ _) as [[b s'] e]. reflexivity.
  - destruct (nth_error c i) as [[a|a]|]; cbn; try (rewrite app_nil_r; reflexivity).
    unfold Engine.resume. cbn [scheduler effects calls].
    destruct (task_fulfilled _ _) as [[b s'] e]. reflexivity.
  - destruct (nth_error c i) as [[a|a]|]; cbn; try (rewrite app_nil_r; reflexivity).
    unfold Engine.resume. cbn [scheduler effects calls].
    destruct (task_rejected _ _ _ _ _) as [[b s'] e]. reflexivity.
  - destruct (nth_error c i) as [[a|a]|]; cbn; try (rewrite app_nil_r; reflexivity).
    unfold Engine.resume. cbn [scheduler effects calls].
    destruct (backoff_elapsed _ _ _ _) as [[b s'] e]. reflexivity.
Qed.

Lemma run_frame (evs : list event) (s : Scheduler) (c : list suspended)
    (es : list effect) :
  run {| scheduler := s; calls := c; effects := es |} evs
  = let w0 := run {| scheduler := s; calls := c; effects := [] |} evs in
    {| scheduler := scheduler w0; calls := calls w0;
       effects := es ++ effects w0 |}.
Proof.
  revert s c es. induction evs as [|ev evs IH]; intros s c es.
  - cbn. rewrite app_nil_r. reflexivity.
  - cbn [Engine.run fold_left]. fold (run (step {| scheduler := s; calls := c; effects := es |} ev) evs).
    fold (run (step {| scheduler := s; calls := c; effects := [] |} ev) evs).
    rewrite step_frame. cbn zeta.
    destruct (step {| scheduler := s; calls := c; effects := [] |} ev)
      as [s1 c1 e1]. cbn [scheduler calls effects].
    rewrite (IH s1 c1 (es ++ e1)), (IH s1 c1 e1). cbn zeta.
    cbn [scheduler calls effects]. rewrite app_assoc. reflexivity.
Qed.

Lemma added_run (w : World) (evs : list event) :
  effects (run w evs) = effects w ++ added cron_validate detectedTimezone config w evs.
Proof.
  unfold Engine.added. destruct w as [s c es]. rewrite run_frame. cbn zeta.
  cbn [effects]. rewrite skipn_app, Nat.sub_diag, skipn_all. reflexivity.
Qed.

Lemma invocations_app (a b : list effect) :
  invocations (a ++ b) = (invocations a + invocations b)%nat.
Proof. unfold invocations. rewrite filter_app, length_app. reflexivity. Qed.

Lemma timeouts_app (a b : list effect) :
  timeouts (a ++ b) = timeouts a ++ timeouts b.
Proof.
  induction a as [|[m| |ms|j|j] a IH]; cbn; rewrite ?IH; reflexivity.
Qed.

Lemma failure_reports_app (a b : list effect) :
  failure_reports (a ++ b) = failure_reports a ++ failure_reports b.
Proof.
  induction a as [|[m| |ms|j|j] a IH]; cbn; rewrite ?IH; try reflexivity.
  destruct m; cbn; rewrite ?IH; reflexivity.
Qed.

(** ** The turns of a run, one by one *)

(** A firing on an idle scheduler calls the task. *)
Lemma step_fire_idle (w : World) (now : Z) (r : Q) :
  isRunning (scheduler w) = false -> 0 <= maxRetries ->
  step w (Fire now r)
  = {| scheduler :=
         {| cronJob := cronJob (scheduler w); isRunning := true;
            lastRunTime := Some now;
            lastCronExpression := lastCronExpression (scheduler w) |};
       calls := calls w ++ [AwaitTask 0];
       effects := effects w ++ [Log RunTriggered; TaskCallback] |}.
Proof.
  intros Hr Hm. cbn [Engine.step].
  unfold Engine.enter, Engine.runScheduledTask. turn. rewrite Hr.
  rewrite loop_attempt by exact Hm. reflexivity.
Qed.

(** A failure within the retry budget sets the backoff timer. *)
Lemma step_rejected_retry (w : World) (i : nat) (a : Z) (err : thrown)
    (now : Z) (r : Q) :
  nth_error (calls w) i = Some (AwaitTask a) -> a + 1 <= maxRetries ->
  step w (TaskRejects i err now r)
  = {| scheduler := scheduler w;
       calls := Engine.replace_nth i (AwaitBackoff (a + 1)) (calls w);
       effects := effects w
                  ++ [Log (RunFailed (a + 1) (maxRetries + 1) (errorMessage err));
                      Log (Retrying (backoffFor (a + 1)));
                      SetTimeout (backoffFor (a + 1))] |}.
Proof.
  intros Hi Hm. cbn [Engine.step]. rewrite Hi.
  unfold Engine.resume, Engine.task_rejected. turn.
  destruct (Z.leb_spec (a + 1) maxRetries); [|lia]. reflexivity.
Qed.

(** The backoff timer starts the next attempt. *)
Lemma step_timer (w : World) (i : nat) (a : Z) (now : Z) (r : Q) :
  nth_error (calls w) i = Some (AwaitBackoff a) -> a <= maxRetries ->
  step w (TimerFires i now r)
  = {| scheduler :=
         {| cronJob := cronJob (scheduler w); isRunning := true;
            lastRunTime := Some now;
            lastCronExpression := lastCronExpression (scheduler w) |};
       calls := Engine.replace_nth i (AwaitTask a) (calls w);
       effects := effects w ++ [Log RunTriggered; TaskCallback] |}.
Proof.
  intros Hi Hm. cbn [Engine.step]. rewrite Hi.
  unfold Engine.resume, Engine.backoff_elapsed. turn.
  rewrite loop_attempt by exact Hm. reflexivity.
Qed.

(** ** The retry loop when every attempt fails *)

Lemma backoffs_S (a : Z) (n : nat) :
  backoffs a (S n) = backoffFor (a + 1) :: backoffs (a + 1) n.
Proof.
  unfold Engine.backoffs. cbn [seq map]. f_equal.
  rewrite <- seq_shift, map_map. apply map_ext. intros k.
  f_equal. lia.
Qed.

Lemma exhaust_from (fs : list failure) :
  forall (a : Z) (w : World),
    fs <> [] -> calls w = [AwaitTask a] -> 0 <= a ->
    a + Z.of_nat (length fs) = maxRetries + 1 ->
    let w' := run w (failures fs) in
    calls w' = []
    /\ isRunning (scheduler w') = false
    /\ invocations (effects w')
       = (invocations (effects w) + (length fs - 1))%nat
    /\ timeouts (effects w')
       = timeouts (effects w) ++ backoffs a (length fs - 1)
    /\ failure_reports (effects w')
       = failure_reports (effects w) ++ reports a fs
    /\ In (Log (MaxRetriesExceeded (maxRetries + 1))) (effects w').
Proof.
  induction fs as [|f fs IH]; intros a w Hne Hc Ha Hlen; [congruence|].
  destruct fs as [|f' fs].
  - (* the last attempt *)
    cbn [length] in Hlen. cbn [failures Engine.run fold_left Engine.step].
    rewrite Hc. cbn [nth_error].
    unfold Engine.resume, Engine.task_rejected. turn.
    destruct (Z.leb_spec (a + 1) maxRetries) as [Hm|Hm]; [lia|]. turn.
    match goal with |- context [loop ?x ?y ?z ?s] =>
      destruct (loop_leave x y z s Hm) as (s' & e & E & F1 & _ & F3 & F4 & F5) end.
    rewrite E. cbn [scheduler calls effects length Nat.sub].
    rewrite Hc. cbn [Engine.remove_nth firstn skipn app].
    rewrite invocations_app, timeouts_app, failure_reports_app.
    cbn [timeouts failure_reports reports].
    rewrite F4, F5. unfold invocations at 2. cbn [filter is_call].
    rewrite F3. cbn [length]. unfold Engine.backoffs. cbn [seq map].
    split; [reflexivity|]. split; [rewrite F1; reflexivity|].
    split; [reflexivity|]. split; [reflexivity|]. split; [reflexivity|].
    apply in_or_app. right. right. left. reflexivity.
  - (* a failure followed by a retry *)
    cbn [length] in Hlen.
    change (failures (f :: f' :: fs))
      with (TaskRejects 0 (error f) (rejectedAt f) (draw f)
            :: TimerFires 0 (resumedAt f) (draw f) :: failures (f' :: fs)).
    cbn [Engine.run fold_left].
    fold (run (step (step w (TaskRejects 0 (error f) (rejectedAt f) (draw f)))
                    (TimerFires 0 (resumedAt f) (draw f)))
              (failures (f' :: fs))).
    set (w2 := step (step w _) _).
    assert (H2 : calls w2 = [AwaitTask (a + 1)]
                 /\ effects w2
                    = effects w
                      ++ [Log (RunFailed (a + 1) (maxRetries + 1)
                                 (errorMessage (error f)));
                          Log (Retrying (backoffFor (a + 1)));
                          SetTimeout (backoffFor (a + 1));
                          Log RunTriggered; TaskCallback]).
    { unfold w2.
      rewrite (step_rejected_retry w 0 a)
        by first [rewrite Hc; reflexivity | lia].
      rewrite (step_timer _ 0 (a + 1))
        by first [cbn [calls]; rewrite Hc; reflexivity | lia].
      cbn [scheduler calls effects]. rewrite Hc.
      cbn [Engine.replace_nth firstn skipn app].
      rewrite <- app_assoc. split; reflexivity. }
    destruct H2 as [Hc2 He2].
    destruct (IH (a + 1) w2 ltac:(discriminate) Hc2 ltac:(lia)
                ltac:(cbn [length]; lia))
      as (R1 & R2 & R3 & R4 & R5 & R6).
    cbn zeta in *. repeat split; auto.
    + rewrite R3, He2, invocations_app. unfold invocations at 2.
      cbn [filter is_call length]. lia.
    + rewrite R4, He2, timeouts_app. cbn [timeouts]. rewrite <- app_assoc.
      f_equal. cbn [length Nat.sub]. rewrite Nat.sub_0_r.
      rewrite backoffs_S. reflexivity.
    + rewrite R5, He2, failure_reports_app. cbn [failure_reports].
      rewrite <- app_assoc. reflexivity.
Qed.

(** A firing on an idle scheduler whose attempts all fail. *)
Lemma exhaust (fs : list failure) (w : World) (now : Z) (r : Q) :
  calls w = [] -> isRunning (scheduler w) = false ->
  fs <> [] -> Z.of_nat (length fs) = maxRetries + 1 ->
  let w' := run w (Fire now r :: failures fs) in
  calls w' = []
  /\ isRunning (scheduler w') = false
  /\ invocations (effects w') = (invocations (effects w) + length fs)%nat
  /\ timeouts (effects w')
     = timeouts (effects w) ++ backoffs 0 (length fs - 1)
  /\ failure_reports (effects w') = failure_reports (effects w) ++ reports 0 fs
  /\ In (Log (MaxRetriesExceeded (maxRetries + 1))) (effects w').
Proof.
  intros Hc Hr Hne Hlen.
  assert (Hm : 0 <= maxRetries)
    by (destruct fs; [congruence | cbn [length] in Hlen; lia]).
  cbn [Engine.run fold_left]. fold (run (step w (Fire now r)) (failures fs)).
  set (w1 := step w (Fire now r)).
  assert (H1 : calls w1 = [AwaitTask 0]
               /\ effects w1 = effects w ++ [Log RunTriggered; TaskCallback]).
  { unfold w1. rewrite step_fire_idle by (assumption || lia).
    cbn [calls effects]. rewrite Hc. split; reflexivity. }
  destruct H1 as [Hc1 He1].
  destruct (exhaust_from fs 0 w1 Hne Hc1 ltac:(lia) ltac:(lia))
    as (R1 & R2 & R3 & R4 & R5 & R6).
  cbn zeta in *. repeat split; auto.
  - rewrite R3, He1, invocations_app. unfold invocations at 2.
    cbn [filter is_call length].
    destruct fs; [congruence|]. cbn [length]. lia.
  - rewrite R4, He1, timeouts_app. cbn [timeouts]. rewrite app_nil_r.
    reflexivity.
  - rewrite R5, He1, failure_reports_app. cbn [failure_reports].
    rewrite app_nil_r. reflexivity.
Qed.

(** ** The overlap guard *)

(** C1. In every state the scheduler can reach, at most one call of
    [runScheduledTask] is in progress (awaiting the task or a backoff
    timer), [isRunning] is true exactly when one is, and a firing that
    arrives then, from the cron job or from [triggerNow], returns at once:
    it only logs the skip, calls no task and changes no field. *)
Theorem no_overlapping_runs (w : World) :
  reachable w ->
  (length (calls w) <= 1)%nat
  /\ (calls w <> [] <-> isRunning (scheduler w) = true)
  /\ (forall ev, firing ev = true -> calls w <> [] ->
        scheduler (step w ev) = scheduler w
        /\ calls (step w ev) = calls w
        /\ effects (step w ev)
           = effects w
             ++ (match ev with Manual _ _ => [Log ManualTrigger] | _ => [] end)
             ++ [Log SkippingRun]).
Proof.
  intros Hw. apply settledWorld_reachable in Hw.
  destruct Hw as [[Hc Hr]|(k & Hc & Hr & Hk)].
  - rewrite Hc, Hr. split; [cbn; lia|]. split; [split; congruence|].
    intros ev _ Hne. congruence.
  - rewrite Hc, Hr. split; [cbn; lia|].
    split; [split; [reflexivity | discriminate]|].
    intros ev Hev _.
    destruct ev as [r| |now r|now r|i now r|i err now r|i now r];
      try discriminate Hev; cbn [Engine.step].
    + unfold Engine.enter, Engine.runScheduledTask. turn. rewrite Hr.
      cbn. rewrite Hc. auto.
    + unfold Engine.enter, Engine.triggerNow, Engine.runScheduledTask.
      turn. rewrite Hr. cbn. rewrite Hc. auto.
Qed.

(** ** The last-run time *)

(** C3 (as amended). [lastRunTime] is written when an attempt begins: a
    firing on an idle scheduler (with at least one attempt allowed) sets it
    to the time of the firing, the settling of the task never changes it,
    and the backoff timer that starts a retry sets it to the time that
    retry begins. *)
Theorem lastRunTime_marks_attempt_start (w : World) :
  reachable w ->
  (forall ev now r,
      ev = Fire now r \/ ev = Manual now r ->
      calls w = [] -> 0 <= maxRetries ->
      lastRunTime (scheduler (step w ev)) = Some now)
  /\ (forall i now r,
      lastRunTime (scheduler (step w (TaskFulfils i now r)))
      = lastRunTime (scheduler w))
  /\ (forall i err now r,
      lastRunTime (scheduler (step w (TaskRejects i err now r)))
      = lastRunTime (scheduler w))
  /\ (forall i attempts now r,
      nth_error (calls w) i = Some (AwaitBackoff attempts) ->
      lastRunTime (scheduler (step w (TimerFires i now r))) = Some now).
Proof.
  intros Hw. apply settledWorld_reachable in Hw.
  refine (conj _ (conj _ (conj _ _))).
  - intros ev now r Hev Hc Hm.
    assert (Hr : isRunning (scheduler w) = false).
    { destruct Hw as [[_ Hr]|(k & Hc' & _)]; [exact Hr | congruence]. }
    destruct Hev as [-> | ->].
    + rewrite step_fire_idle by assumption. reflexivity.
    + cbn [Engine.step].
      unfold Engine.enter, Engine.triggerNow, Engine.runScheduledTask.
      turn. rewrite Hr. rewrite loop_attempt by exact Hm. reflexivity.
  - intros i now r. cbn [Engine.step].
    destruct (nth_error (calls w) i) as [[a|a]|]; try reflexivity.
    unfold Engine.resume, Engine.task_fulfilled. turn.
    destruct (reschedule_frame r (scheduler w)) as (s' & e & E & _ & F & _).
    rewrite E. cbn. exact F.
  - intros i err now r. cbn [Engine.step].
    destruct (nth_error (calls w) i) as [[a|a]|]; try reflexivity.
    unfold Engine.resume, Engine.task_rejected. turn.
    destruct (Z.leb_spec (a + 1) maxRetries) as [Hm|Hm]; [reflexivity|].
    turn.
    match goal with |- context [loop ?x ?y ?z ?s] =>
      destruct (loop_leave x y z s Hm) as (s' & e & E & _ & F & _) end.
    rewrite E. cbn. exact F.
  - intros i a now r Hi.
    assert (Ha : a <= maxRetries).
    { destruct Hw as [[Hc _]|(k & Hc & _ & Hk)]; rewrite Hc in Hi.
      - destruct i; discriminate Hi.
      - destruct i as [|i]; [|destruct i; discriminate Hi].
        injection Hi as ->. cbn in Hk. lia. }
    rewrite (step_timer w i a) by assumption. reflexivity.
Qed.

End Runs.

(* ===================================================================== *)
(** * Properties of [Retry.run] *)
(* ===================================================================== *)

Section RetryRuns.

Context {T : Type}.
Variable policy : Retry.NumericPolicy.
Variable fn : nat -> Retry.settled T.
Variable isRetryable : option (thrown -> bool).
Variable random : nat -> Q.

Abbreviation rloop := (Retry.loop policy fn isRetryable random).
Abbreviation retried := (Retry.retried policy random).
Abbreviation nextDelay := (Retry.nextDelay policy).
Abbreviation sleepFor := (Retry.sleepFor policy).

Abbreviation retryable := (Retry.retryable isRetryable).

(** [n] failures in a row that are retryable and leave attempts to spare
    unroll [n] iterations of the loop. *)
Lemma loop_retried (errs : nat -> thrown) (n : nat) :
  forall (fuel attempt : nat) (delay : Q) (lastErr : thrown)
         (tr : list Retry.effect),
    (forall i, (attempt <= i < attempt + n)%nat ->
               fn i = Retry.Rejected (errs i) /\ retryable (errs i) = true) ->
    Z.of_nat (attempt + n) < Retry.maxAttempts policy ->
    rloop (n + fuel) attempt delay lastErr tr
    = rloop fuel (attempt + n) (Nat.iter n nextDelay delay)
        (match n with O => lastErr | S m => errs (attempt + m)%nat end)
        (tr ++ retried attempt delay n).
Proof.
  induction n as [|n IH]; intros fuel attempt delay lastErr tr Hfn Hlt.
  - cbn [Nat.add Nat.iter nat_rect Retry.retried]. unfold Nat.iter.
    rewrite Nat.add_0_r, app_nil_r. reflexivity.
  - cbn [Nat.add Retry.loop].
    destruct (Z.ltb_spec (Z.of_nat attempt) (Retry.maxAttempts policy)); [|lia].
    destruct (Hfn attempt ltac:(lia)) as [E R]. rewrite E.
    rewrite R. cbn [negb orb].
    destruct (Z.geb_spec (Z.of_nat (S attempt)) (Retry.maxAttempts policy));
      [lia|].
    rewrite IH.
    + rewrite Nat.iter_succ_r, <- app_assoc.
      replace (S attempt + n)%nat with (attempt + S n)%nat by lia.
      cbn [Retry.retried app]. f_equal.
      destruct n as [|m]; f_equal; lia.
    + intros i Hi. apply Hfn. lia.
    + lia.
Qed.

(** The loop ends as soon as the fuel covers the attempts that remain. *)
Lemma loop_total (fuel : nat) :
  forall (attempt : nat) (delay : Q) (lastErr : thrown)
         (tr : list Retry.effect),
    Retry.maxAttempts policy - Z.of_nat attempt <= Z.of_nat fuel ->
    exists r, rloop fuel attempt delay lastErr tr = Some r.
Proof.
  induction fuel as [|fuel IH]; intros attempt delay lastErr tr Hf.
  - cbn [Retry.loop].
    destruct (Z.ltb_spec (Z.of_nat attempt) (Retry.maxAttempts policy));
      [lia | eauto].
  - cbn [Retry.loop].
    destruct (Z.ltb_spec (Z.of_nat attempt) (Retry.maxAttempts policy));
      [|eauto].
    destruct (fn attempt) as [v|e]; [eauto|].
    destruct (negb _ || _); [eauto|]. apply IH. lia.
Qed.

Lemma run_total :
  exists r, Retry.run policy fn isRetryable random = Some r.
Proof. unfold Retry.run. apply loop_total. lia. Qed.

(** Every sleep of the loop is a value of [sleepFor]. *)
Lemma loop_sleeps (P : Q -> Prop) (fuel : nat) :
  (forall delay r, P (sleepFor delay r)) ->
  forall (attempt : nat) (delay : Q) (lastErr : thrown)
         (tr : list Retry.effect) (r : Retry.Run T),
    Forall P (Retry.sleeps tr) ->
    rloop fuel attempt delay lastErr tr = Some r ->
    Forall P (Retry.sleeps (Retry.trace r)).
Proof.
  intros HP.
  assert (Happ : forall tr es, Forall P (Retry.sleeps tr) ->
                   Forall P (Retry.sleeps es) ->
                   Forall P (Retry.sleeps (tr ++ es))).
  { induction tr as [|[|ms] tr IHtr]; intros es H1 H2; cbn in *; auto.
    inversion H1; subst. constructor; auto. }
  induction fuel as [|fuel IH]; intros attempt delay lastErr tr r Htr E;
    cbn [Retry.loop] in E;
    destruct (Z.of_nat attempt <? Retry.maxAttempts policy);
    try discriminate E;
    try (injection E as <-; exact Htr).
  destruct (fn attempt) as [v|e].
  - injection E as <-. cbn [Retry.trace]. apply Happ; [exact Htr|constructor].
  - destruct (negb _ || _).
    + injection E as <-. cbn [Retry.trace Retry.rethrow].
      apply Happ; [exact Htr|constructor].
    + eapply IH; [|exact E]. apply Happ; [exact Htr|].
      cbn. constructor; [apply HP | constructor].
Qed.

Lemma calls_retried (attempt : nat) (delay : Q) (n : nat) :
  Retry.calls (retried attempt delay n ++ [Retry.Call]) = S n.
Proof.
  revert attempt delay. induction n as [|n IH]; intros attempt delay.
  - reflexivity.
  - cbn [Retry.retried app]. unfold Retry.calls in *. cbn [filter length].
    rewrite IH. reflexivity.
Qed.

Lemma calls_retried_N (attempt : nat) (delay : Q) (N : nat) :
  (1 <= N)%nat ->
  Retry.calls (retried attempt delay (N - 1) ++ [Retry.Call]) = N.
Proof. intros H. rewrite calls_retried. lia. Qed.

Lemma length_sleeps_retried (attempt : nat) (delay : Q) (n : nat) :
  length (Retry.sleeps (retried attempt delay n ++ [Retry.Call])) = n.
Proof.
  revert attempt delay. induction n as [|n IH]; intros attempt delay.
  - reflexivity.
  - cbn [Retry.retried app Retry.sleeps length]. rewrite IH. reflexivity.
Qed.

(** The sleeps of [n] retried failures from a fresh loop are the jittered
    values of [delayAt 1], .., [delayAt n]. *)
Lemma sleeps_retried (n : nat) :
  Retry.sleeps (retried 0 (Retry.baseDelay policy) n)
  = map (fun k => sleepFor (Retry.delayAt policy k) (random k)) (seq 1 n).
Proof.
  assert (G : forall n a,
             Retry.sleeps (retried a (Retry.delayAt policy (S a)) n)
             = map (fun k => sleepFor (Retry.delayAt policy k) (random k))
                 (seq (S a) n)).
  { clear n. induction n as [|n IH]; intros a; [reflexivity|].
    cbn [Retry.retried Retry.sleeps seq map]. f_equal.
    rewrite <- IH. reflexivity. }
  apply (G n 0%nat).
Qed.

End RetryRuns.

(** ** The delay before and after jitter *)

Section Backoff.

Variable policy : Retry.NumericPolicy.
Hypothesis policy_valid : Retry.valid policy.

Abbreviation M := (Retry.maxDelay policy).
Abbreviation next := (Retry.nextDelay policy).
Abbreviation steady := (Retry.steady policy).

Let mult_eff : (Retry.effectiveMultiplier policy == Retry.multiplier policy)%Q.
Proof.
  unfold Retry.effectiveMultiplier.
  destruct (Qeq_bool (Retry.multiplier policy) 0) eqn:E; [|reflexivity].
  apply Qeq_bool_eq in E. destruct policy_valid as (_ & _ & _ & Hm & _).
  rewrite E in Hm. exfalso. apply (Qle_not_lt _ _ Hm). reflexivity.
Qed.

Let mult_ge_1 : (1 <= Retry.effectiveMultiplier policy)%Q.
Proof. rewrite mult_eff. apply policy_valid. Qed.

Lemma scaled_ge (d : Q) :
  (0 <= d)%Q -> (d <= d * Retry.effectiveMultiplier policy)%Q.
Proof.
  intros Hd. setoid_replace d with (d * 1)%Q at 1 by ring.
  rewrite (Qmult_comm d 1), (Qmult_comm d (Retry.effectiveMultiplier policy)).
  apply Qmult_le_compat_r; [exact mult_ge_1 | exact Hd].
Qed.

Lemma next_steady (d : Q) : steady d -> (d <= next d)%Q /\ steady (next d).
Proof.
  intros (H0 & HM & Hw). unfold Retry.steady, Retry.nextDelay.
  set (m := Retry.effectiveMultiplier policy) in *.
  assert (Hm0 : (0 <= m)%Q) by (apply Qle_trans with 1%Q; [discriminate | exact mult_ge_1]).
  destruct Hw as [[z Hz] | [HdM Hcap]].
  - (* a whole delay *)
    assert (Hfl : (d <= inject_Z (Qfloor (d * m)))%Q).
    { rewrite Hz at 1. rewrite <- Zle_Qle.
      rewrite <- (Qfloor_Z z). apply Qfloor_resp_le.
      rewrite <- Hz. apply scaled_ge. exact H0. }
    assert (Hle : (d <= Qmin M (inject_Z (Qfloor (d * m))))%Q)
      by (apply Q.min_glb; assumption).
    split; [exact Hle|]. split; [apply Qle_trans with d; assumption|].
    split; [apply Q.le_min_l|].
    destruct (Q.min_spec M (inject_Z (Qfloor (d * m)))) as [[Hlt E] | [Hge E]].
    + right. split; [exact E|].
      apply Qle_trans with (inject_Z (Qfloor (d * m)));
        [apply Qlt_le_weak; exact Hlt|].
      rewrite <- Zle_Qle. apply Qfloor_resp_le.
      apply Qmult_le_compat_r; assumption.
    + left. exists (Qfloor (d * m)). exact E.
  - (* the cap *)
    assert (E : (Qmin M (inject_Z (Qfloor (d * m))) == M)%Q).
    { apply Q.min_l. rewrite HdM. exact Hcap. }
    split; [rewrite E, HdM; apply Qle_refl|].
    split; [rewrite E; apply Qle_trans with d; [exact H0 | exact HM]|].
    split; [apply Q.le_min_l|]. right. split; assumption.
Qed.

Lemma delayAt_steady (k : nat) :
  Retry.whole (Retry.baseDelay policy) ->
  (Retry.baseDelay policy <= M)%Q ->
  steady (Retry.delayAt policy k).
Proof.
  intros Hw Hle. unfold Retry.delayAt.
  induction (pred k) as [|n IH].
  - cbn. split; [apply policy_valid|]. split; [exact Hle|]. left. exact Hw.
  - cbn [Nat.iter nat_rect]. apply next_steady. exact IH.
Qed.

(** Started from a whole base delay that is not above the cap, the delay
    never decreases from one failure to the next. *)
Lemma delayAt_monotone (k : nat) :
  Retry.whole (Retry.baseDelay policy) ->
  (Retry.baseDelay policy <= M)%Q ->
  (1 <= k)%nat ->
  (Retry.delayAt policy k <= Retry.delayAt policy (S k))%Q.
Proof.
  intros Hw Hle Hk. pose proof (delayAt_steady k Hw Hle) as Hs.
  apply next_steady in Hs. destruct Hs as [Hs _].
  unfold Retry.delayAt in *. destruct k as [|k]; [lia|exact Hs].
Qed.

(** The time slept is within the cap, whatever the delay and the draw. *)
Lemma sleepFor_bounds (delay r : Q) :
  (0 <= Retry.sleepFor policy delay r /\ Retry.sleepFor policy delay r <= M)%Q.
Proof.
  unfold Retry.sleepFor. split.
  - apply Q.min_glb; [apply policy_valid | apply Q.le_max_l].
  - apply Q.le_min_l.
Qed.

End Backoff.

(** C6 (as amended). For a valid policy whose base delay is a whole number
    of milliseconds and is not above the cap, the delay before jitter never
    decreases from one failure to the next; for every valid policy each
    time slept by [run] lies between 0 and the cap; the time slept after
    the [k]-th retried failure is the jittered value of the delay before
    jitter at [k]. *)
Theorem backoff_monotone_and_bounded (p : Retry.NumericPolicy) :
  Retry.valid p ->
  (Retry.whole (Retry.baseDelay p) ->
   (Retry.baseDelay p <= Retry.maxDelay p)%Q ->
   forall k, (1 <= k)%nat ->
     (Retry.delayAt p k <= Retry.delayAt p (S k))%Q)
  /\ (forall (T : Type) (fn : nat -> Retry.settled T) isRetryable random
             (r : Retry.Run T),
        Retry.run p fn isRetryable random = Some r ->
        Forall (fun ms => (0 <= ms /\ ms <= Retry.maxDelay p)%Q)
          (Retry.sleeps (Retry.trace r)))
  /\ (forall random n,
        Retry.sleeps (Retry.retried p random 0 (Retry.baseDelay p) n)
        = map (fun k => Retry.sleepFor p (Retry.delayAt p k) (random k))
            (seq 1 n)).
Proof.
  intros Hv. refine (conj _ (conj _ _)).
  - intros Hw Hle k Hk. apply delayAt_monotone; assumption.
  - intros T fn isRetryable random r E. unfold Retry.run in E.
    refine (loop_sleeps p fn isRetryable random _ _
              (fun delay x => sleepFor_bounds p Hv delay x) _ _ _ [] r _ E).
    apply Forall_nil.
  - intros random n. apply sleeps_retried.
Qed.

(** The default policy of [Retry]: the delay before jitter goes 1000, 2000,
    and a sleep of a run stays within 30000. *)
Lemma backoff_monotone_and_bounded_default :
  let p := {| Retry.maxAttempts := 3; Retry.baseDelay := 1000;
              Retry.maxDelay := 30000; Retry.multiplier := 2;
              Retry.jitter := 2 # 10 |} in
  (Retry.delayAt p 1 <= Retry.delayAt p 2)%Q
  /\ Forall (fun ms => (0 <= ms /\ ms <= Retry.maxDelay p)%Q)
       (Retry.sleeps
          (Retry.trace
             {| Retry.outcome := Retry.Rejected (T := unit) (ErrorObj (lit "x"));
                Retry.attempts := 3;
                Retry.trace :=
                  Retry.retried p (fun _ => 1 # 2) 0 1000 2 ++ [Retry.Call] |})).
Proof.
  intros p.
  assert (Hv : Retry.valid p).
  { unfold Retry.valid, p. cbn. unfold Qle. cbn. lia. }
  pose proof (backoff_monotone_and_bounded p Hv) as (Hmono & Hbound & _).
  split.
  - apply Hmono; [exists 1000; reflexivity | unfold Qle; cbn; lia | lia].
  - apply (Hbound unit (fun _ => Retry.Rejected (ErrorObj (lit "x"))) None
             (fun _ => 1 # 2)).
    reflexivity.
Defined.

(** With the base delay above the cap the delay before jitter drops from
    5000 to 1000; with a base delay of half a millisecond it drops to 0. *)
Lemma delay_before_jitter_can_decrease :
  let p := {| Retry.maxAttempts := 3; Retry.baseDelay := 5000;
              Retry.maxDelay := 1000; Retry.multiplier := 2;
              Retry.jitter := 2 # 10 |} in
  let p' := {| Retry.maxAttempts := 3; Retry.baseDelay := 1 # 2;
               Retry.maxDelay := 1000; Retry.multiplier := 1;
               Retry.jitter := 0 |} in
  (Retry.valid p
   /\ (Retry.delayAt p 1 == 5000)%Q /\ (Retry.delayAt p 2 == 1000)%Q
   /\ ~ (Retry.delayAt p 1 <= Retry.delayAt p 2)%Q)
  /\ (Retry.valid p'
      /\ (Retry.delayAt p' 1 == 1 # 2)%Q /\ (Retry.delayAt p' 2 == 0)%Q
      /\ ~ (Retry.delayAt p' 1 <= Retry.delayAt p' 2)%Q).
Proof.
  intros p p'. split.
  - split; [unfold Retry.valid, p; cbn; unfold Qle; cbn; lia|].
    split; [reflexivity|]. split; [reflexivity|].
    vm_compute. intros H. apply H. reflexivity.
  - split; [unfold Retry.valid, p'; cbn; unfold Qle; cbn; lia|].
    split; [reflexivity|]. split; [reflexivity|].
    vm_compute. intros H. apply H. reflexivity.
Qed.

(** C10. When [isRetryable] is given and a call of [fn] fails with an error
    it rejects (the earlier calls having failed with errors it accepts), the
    loop is left at once: [run] rejects with that error, made an [Error] if
    it was not one, and the failing call is the last thing it did, with no
    sleep after it and no further call. *)
Theorem non_retryable_error_ends_run (T : Type) (p : Retry.NumericPolicy)
    (fn : nat -> Retry.settled T) (f : thrown -> bool) (random : nat -> Q)
    (errs : nat -> thrown) (k : nat) (e : thrown) :
  (forall i, (i < k)%nat -> fn i = Retry.Rejected (errs i) /\ f (errs i) = true) ->
  fn k = Retry.Rejected e -> f e = false ->
  Z.of_nat k < Retry.maxAttempts p ->
  let tr := Retry.retried p random 0 (Retry.baseDelay p) k ++ [Retry.Call] in
  Retry.run p fn (Some f) random
  = Some {| Retry.outcome := Retry.Rejected (asError e);
            Retry.attempts := S k; Retry.trace := tr |}
  /\ Retry.calls tr = S k
  /\ length (Retry.sleeps tr) = k
  /\ last tr Retry.Call = Retry.Call
  /\ (isErrorObj e = true -> asError e = e)
  /\ (isErrorObj e = false -> asError e = ErrorObj (String_of_thrown e)).
Proof.
  intros Hfn Hk Hf Hlt tr. refine (conj _ (conj _ (conj _ (conj _ (conj _ _))))).
  - unfold Retry.run.
    replace (Z.to_nat (Retry.maxAttempts p))
      with (k + S (Z.to_nat (Retry.maxAttempts p) - k - 1))%nat by lia.
    rewrite (loop_retried p fn (Some f) random errs k).
    + cbn [Nat.add Retry.loop].
      destruct (Z.ltb_spec (Z.of_nat k) (Retry.maxAttempts p)); [|lia].
      rewrite Hk. unfold Retry.retryable. rewrite Hf. cbn [negb orb].
      reflexivity.
    + intros i Hi. apply Hfn. lia.
    + cbn [Nat.add]. exact Hlt.
  - apply calls_retried.
  - apply length_sleeps_retried.
  - unfold tr. apply last_last.
  - destruct e; [reflexivity | discriminate | discriminate].
  - destruct e; [discriminate | reflexivity | reflexivity].
Qed.

(** A 404 that the predicate rejects, on the first call of three. *)
Lemma non_retryable_error_ends_run_example :
  let p := {| Retry.maxAttempts := 3; Retry.baseDelay := 1000;
              Retry.maxDelay := 30000; Retry.multiplier := 2;
              Retry.jitter := 2 # 10 |} in
  Retry.run (T := unit) p (fun _ => Retry.Rejected (Other (lit "404")))
    (Some (fun _ => false)) (fun _ => 1 # 2)
  = Some {| Retry.outcome := Retry.Rejected (ErrorObj (lit "404"));
            Retry.attempts := 1; Retry.trace := [Retry.Call] |}.
Proof.
  intros p.
  exact (proj1 (non_retryable_error_ends_run unit p
                  (fun _ => Retry.Rejected (Other (lit "404")))
                  (fun _ => false) (fun _ => 1 # 2) (fun _ => Undefined)
                  0%nat (Other (lit "404"))
                  ltac:(intros i Hi; inversion Hi) eq_refl eq_refl eq_refl)).
Defined.

(** ** A run whose attempts all fail *)

Lemma reports_last (cfg : Config) (fs : list failure) :
  forall (a : Z) (d : Z * Z * jsstring) (f0 : failure),
    fs <> [] ->
    last (Engine.reports cfg a fs) d
    = (a + Z.of_nat (length fs), Engine.maxRetries cfg + 1,
       errorMessage (error (last fs f0))).
Proof.
  induction fs as [|f fs IH]; intros a d f0 Hne; [congruence|].
  destruct fs as [|f' fs].
  - cbn. repeat f_equal; lia.
  - change (Engine.reports cfg a (f :: f' :: fs))
      with ((a + 1, Engine.maxRetries cfg + 1, errorMessage (error f))
            :: Engine.reports cfg (a + 1) (f' :: fs)).
    change (last (f :: f' :: fs) f0) with (last (f' :: fs) f0).
    assert (E : Engine.reports cfg (a + 1) (f' :: fs) <> []) by discriminate.
    destruct (Engine.reports cfg (a + 1) (f' :: fs)) as [|x xs] eqn:Er;
      [congruence|].
    change (last (?y :: x :: xs) d) with (last (x :: xs) d).
    rewrite <- Er, (IH (a + 1) d f0) by discriminate.
    f_equal. f_equal. cbn [length]. lia.
Qed.


(* ===================================================================== *)
(** * The properties on concrete runs *)
(* ===================================================================== *)

(** A second firing and a manual trigger while the task of the first firing
    is pending. *)
Lemma no_overlapping_runs_example :
  let cfg := {| scheduling := None; crashRecovery := None |} in
  let w := Engine.run (fun _ => true) (lit "UTC") cfg Engine.boot [Fire 1000 0] in
  (length (calls w) <= 1)%nat
  /\ (calls w <> [] <-> isRunning (scheduler w) = true)
  /\ (forall ev, firing ev = true -> calls w <> [] ->
        scheduler (Engine.step (fun _ => true) (lit "UTC") cfg w ev) = scheduler w
        /\ calls (Engine.step (fun _ => true) (lit "UTC") cfg w ev) = calls w
        /\ effects (Engine.step (fun _ => true) (lit "UTC") cfg w ev)
           = effects w
             ++ (match ev with Manual _ _ => [Log ManualTrigger] | _ => [] end)
             ++ [Log SkippingRun]).
Proof.
  intros cfg w.
  apply (no_overlapping_runs (fun _ => true) (lit "UTC") cfg w).
  exists [Fire 1000 0]. reflexivity.
Defined.

(** The state after a firing at 1000 whose first attempt failed at 1500:
    the timer that fires at 3500 moves the last-run time to 3500. *)
Lemma lastRunTime_marks_attempt_start_example :
  let cfg := {| scheduling := None; crashRecovery := None |} in
  let w := Engine.run (fun _ => true) (lit "UTC") cfg Engine.boot
             [Fire 1000 0; TaskRejects 0 (ErrorObj (lit "boom")) 1500 0] in
  lastRunTime (scheduler w) = Some 1000
  /\ lastRunTime
       (scheduler (Engine.step (fun _ => true) (lit "UTC") cfg w
                     (TimerFires 0 3500 0)))
     = Some 3500.
Proof.
  intros cfg w. split; [reflexivity|].
  assert (Hw : Engine.reachable (fun _ => true) (lit "UTC") cfg w)
    by (eexists; reflexivity).
  pose proof (lastRunTime_marks_attempt_start (fun _ => true) (lit "UTC") cfg w Hw)
    as (_ & _ & _ & H).
  apply (H 0%nat 1 3500 0%Q). reflexivity.
Defined.

(** One run of the default configuration: fired at 1000, its first attempt
    fails at 1500, the retry starts at 3500 and succeeds at 9000.  The
    last-run time is written twice and ends at the start of the retry. *)
Lemma lastRunTime_moves_to_the_retry :
  let cfg := {| scheduling := None; crashRecovery := None |} in
  let go := Engine.run (fun _ => true) (lit "UTC") cfg Engine.boot in
  let failure := TaskRejects 0 (ErrorObj (lit "boom")) 1500 0 in
  lastRunTime (scheduler (go [Fire 1000 0])) = Some 1000
  /\ lastRunTime (scheduler (go [Fire 1000 0; failure])) = Some 1000
  /\ lastRunTime (scheduler (go [Fire 1000 0; failure; TimerFires 0 3500 0]))
     = Some 3500
  /\ lastRunTime
       (scheduler (go [Fire 1000 0; failure; TimerFires 0 3500 0;
                       TaskFulfils 0 9000 0]))
     = Some 3500
  /\ calls (go [Fire 1000 0; failure; TimerFires 0 3500 0; TaskFulfils 0 9000 0])
     = []
  /\ invocations
       (effects (go [Fire 1000 0; failure; TimerFires 0 3500 0;
                     TaskFulfils 0 9000 0]))
     = 2%nat.
Proof. repeat split. Qed.


(* ===================================================================== *)
(** * More on schedule resolution *)
(* ===================================================================== *)

Lemma below_In (n : nat) (z : Z) : 0 <= z < Z.of_nat n -> In z (below n).
Proof.
  intros H. unfold below. apply in_map_iff. exists (Z.to_nat z).
  split; [lia|]. apply in_seq. lia.
Qed.

Lemma digit_codes_In (c : N) : isDigit c = true -> In c digit_codes.
Proof.
  unfold isDigit. intros H. apply andb_true_iff in H. destruct H as [H1 H2].
  apply N.leb_le in H1, H2. unfold digit_codes. apply in_map_iff.
  exists (N.to_nat c). split; [lia|]. apply in_seq. lia.
Qed.

(** [buildSchedule] on a configured time that is not the empty string. *)
Lemma buildSchedule_time (sc : ScheduleConfig) (t : jsstring) (random : Q) :
  time sc = Some t -> t <> [] ->
  buildSchedule sc random
  = match parseTime t with
    | Some (h, m) =>
        let j := applyJitter h m (jitter sc) random in
        {| cronExpr := Some (daily_expression (minute j) (hour j));
           displayTime := hhmm h m;
           jitterApplied := offsetMinutes j |}
    | None => invalidSchedule
    end.
Proof.
  intros Ht Hne. unfold buildSchedule, parseTime, parseClock. rewrite Ht.
  destruct t as [|c t']; [congruence|]. cbn [truthy_string].
  destruct (timeMatch (trim (c :: t'))) as [[g1 g2]|]; [|reflexivity].
  destruct (_ && _); reflexivity.
Qed.

(** Printing a time of the day and reading it back. *)
Lemma parseClock_hhmm (h m : Z) :
  0 <= h <= 23 -> 0 <= m <= 59 ->
  parseClock (hhmm h m) = Some (h, m)
  /\ parseClock (String_of_int h ++ lit ":" ++ two_digits m) = Some (h, m)
  /\ trim (hhmm h m) = hhmm h m
  /\ trim (String_of_int h ++ lit ":" ++ two_digits m)
     = String_of_int h ++ lit ":" ++ two_digits m.
Proof.
  intros Hh Hm.
  set (ok := fun (s : jsstring) (h m : Z) =>
               match parseClock s with
               | Some (a, b) => (a =? h) && (b =? m)
               | None => false
               end && jsstring_eqb (trim s) s).
  assert (All : forallb (fun h => forallb (fun m =>
                  ok (hhmm h m) h m
                  && ok (String_of_int h ++ lit ":" ++ two_digits m) h m)
                  (below 60)) (below 24) = true) by (vm_compute; reflexivity).
  rewrite forallb_forall in All.
  specialize (All h (below_In 24 h ltac:(lia))).
  rewrite forallb_forall in All.
  specialize (All m (below_In 60 m ltac:(lia))).
  apply andb_true_iff in All. destruct All as [A1 A2].
  unfold ok in A1, A2. apply andb_true_iff in A1, A2.
  destruct A1 as [A1 T1], A2 as [A2 T2].
  unfold jsstring_eqb in T1, T2.
  destruct (list_eq_dec N.eq_dec (trim (hhmm h m)) (hhmm h m)) as [E1|];
    [|discriminate].
  destruct (list_eq_dec N.eq_dec
              (trim (String_of_int h ++ lit ":" ++ two_digits m))
              (String_of_int h ++ lit ":" ++ two_digits m)) as [E2|];
    [|discriminate].
  destruct (parseClock (hhmm h m)) as [[a b]|]; [|discriminate].
  destruct (parseClock (String_of_int h ++ lit ":" ++ two_digits m))
    as [[a' b']|]; [|discriminate].
  apply andb_true_iff in A1, A2. destruct A1 as [Ha Hb], A2 as [Ha' Hb'].
  apply Z.eqb_eq in Ha, Hb, Ha', Hb'. subst. auto.
Qed.

(** What [parseClock] accepts is a printed time of the day. *)
Lemma parseClock_shape (s : jsstring) (h m : Z) :
  parseClock s = Some (h, m) ->
  0 <= h <= 23 /\ 0 <= m <= 59
  /\ (s = hhmm h m \/ s = String_of_int h ++ lit ":" ++ two_digits m).
Proof.
  intros H.
  assert (Hr : 0 <= h <= 23 /\ 0 <= m <= 59).
  { unfold parseClock in H. destruct (timeMatch s) as [[g1 g2]|]; [|discriminate].
    destruct (_ && _) eqn:E; [|discriminate]. injection H as <- <-.
    repeat rewrite andb_true_iff in E. lia. }
  split; [apply Hr|]. split; [apply Hr|].
  set (ok := fun (s : jsstring) =>
               match parseClock s with
               | Some (a, b) =>
                   jsstring_eqb s (hhmm a b)
                   || jsstring_eqb s (String_of_int a ++ lit ":" ++ two_digits b)
               | None => true
               end).
  assert (All4 : forallb (fun d1 => forallb (fun d3 => forallb (fun d4 =>
                   ok [d1; 58%N; d3; d4]) digit_codes) digit_codes) digit_codes
                 = true) by (vm_compute; reflexivity).
  assert (All5 : forallb (fun d1 => forallb (fun d2 => forallb (fun d3 =>
                   forallb (fun d4 => ok [d1; d2; 58%N; d3; d4])
                     digit_codes) digit_codes) digit_codes) digit_codes
                 = true) by (vm_compute; reflexivity).
  assert (Hok : ok s = true).
  { unfold parseClock in H. unfold timeMatch in H.
    destruct s as [|c1 [|c2 [|c3 [|c4 [|c5 [|c6 s]]]]]]; try discriminate H.
    - destruct (isDigit c1 && (c2 =? 58)%N && isDigit c3 && isDigit c4) eqn:E;
        [|discriminate H].
      repeat rewrite andb_true_iff in E. destruct E as [[[D1 D2] D3] D4].
      apply N.eqb_eq in D2. subst c2.
      rewrite forallb_forall in All4.
      specialize (All4 c1 (digit_codes_In c1 D1)).
      rewrite forallb_forall in All4.
      specialize (All4 c3 (digit_codes_In c3 D3)).
      rewrite forallb_forall in All4.
      exact (All4 c4 (digit_codes_In c4 D4)).
    - destruct (isDigit c1 && isDigit c2 && (c3 =? 58)%N && isDigit c4
                && isDigit c5) eqn:E; [|discriminate H].
      repeat rewrite andb_true_iff in E. destruct E as [[[[D1 D2] D3] D4] D5].
      apply N.eqb_eq in D3. subst c3.
      rewrite forallb_forall in All5.
      specialize (All5 c1 (digit_codes_In c1 D1)).
      rewrite forallb_forall in All5.
      specialize (All5 c2 (digit_codes_In c2 D2)).
      rewrite forallb_forall in All5.
      specialize (All5 c4 (digit_codes_In c4 D4)).
      rewrite forallb_forall in All5.
      exact (All5 c5 (digit_codes_In c5 D5)). }
  unfold ok in Hok. rewrite H in Hok. apply orb_true_iff in Hok.
  unfold jsstring_eqb in Hok.
  destruct Hok as [E|E]; [left|right];
    match type of E with (if ?d then _ else _) = _ =>
      destruct d as [E'|]; [exact E' | discriminate E] end.
Qed.

(** ** White space around the configured time *)

Lemma trimStart_app_ws (pre s : jsstring) :
  forallb isWhiteSpace pre = true -> trimStart (pre ++ s) = trimStart s.
Proof.
  induction pre as [|c pre IH]; intros H; [reflexivity|].
  cbn in H. apply andb_true_iff in H. destruct H as [Hc Hp].
  cbn. rewrite Hc. apply IH, Hp.
Qed.

Lemma trimStart_all_ws (s : jsstring) :
  forallb isWhiteSpace s = true <-> trimStart s = [].
Proof.
  induction s as [|c s IH]; [split; reflexivity|].
  cbn. destruct (isWhiteSpace c); cbn; [exact IH|].
  split; discriminate.
Qed.

Lemma trimStart_app_kept (s x : jsstring) :
  trimStart s <> [] -> trimStart (s ++ x) = trimStart s ++ x.
Proof.
  induction s as [|c s IH]; intros H; [cbn in H; congruence|].
  cbn in *. destruct (isWhiteSpace c); [apply IH, H | reflexivity].
Qed.

Lemma trimEnd_app_ws (s post : jsstring) :
  forallb isWhiteSpace post = true -> trimEnd (s ++ post) = trimEnd s.
Proof.
  intros H. unfold trimEnd. rewrite rev_app_distr, trimStart_app_ws; [reflexivity|].
  rewrite forallb_forall in *. intros c Hc. apply H, in_rev, Hc.
Qed.

Lemma trim_padded (pre t post : jsstring) :
  forallb isWhiteSpace pre = true -> forallb isWhiteSpace post = true ->
  trim (pre ++ t ++ post) = trim t.
Proof.
  intros Hpre Hpost. unfold trim. rewrite trimStart_app_ws by exact Hpre.
  destruct (trimStart t) as [|c r] eqn:E.
  - apply trimStart_all_ws in E.
    assert (A : trimStart (t ++ post) = []).
    { apply trimStart_all_ws. rewrite forallb_app, E, Hpost. reflexivity. }
    rewrite A. reflexivity.
  - rewrite trimStart_app_kept by (rewrite E; discriminate).
    rewrite E. apply trimEnd_app_ws, Hpost.
Qed.

(** X1. A configured time that is not the empty string resolves exactly
    when, white space at both ends removed, it is a time of the day written
    H:MM or HH:MM with the hour in 0..23 and the minute in 00..59. *)
Theorem time_resolves_iff_clock_time (sc : ScheduleConfig) (t : jsstring)
    (random : Q) :
  time sc = Some t -> t <> [] ->
  (cronExpr (buildSchedule sc random) <> None
   <-> exists h m,
         0 <= h <= 23 /\ 0 <= m <= 59
         /\ (trim t = hhmm h m
             \/ trim t = String_of_int h ++ lit ":" ++ two_digits m)).
Proof.
  intros Ht Hne. rewrite (buildSchedule_time sc t random Ht Hne).
  unfold parseTime. split.
  - destruct (parseClock (trim t)) as [[h m]|] eqn:E; [|cbn; congruence].
    intros _. exists h, m. apply parseClock_shape in E. intuition.
  - intros (h & m & Hh & Hm & [E|E]); rewrite E;
      destruct (parseClock_hhmm h m Hh Hm) as (P1 & P2 & _);
      rewrite ?P1, ?P2; cbn; discriminate.
Qed.

Lemma time_resolves_iff_clock_time_example :
  let sc := {| enabled := Some true; time := Some (lit " 7:05 ");
               cron := None; jitter := None |} in
  cronExpr (buildSchedule sc 0) <> None
  <-> exists h m,
        0 <= h <= 23 /\ 0 <= m <= 59
        /\ (trim (lit " 7:05 ") = hhmm h m
            \/ trim (lit " 7:05 ")
               = String_of_int h ++ lit ":" ++ two_digits m).
Proof.
  intros sc.
  apply (time_resolves_iff_clock_time sc (lit " 7:05 ") 0);
    [reflexivity | discriminate].
Defined.

(** X2. For a configured time that is not the empty string, white space
    added before and after it changes nothing of the resolved schedule. *)
Theorem white_space_around_time_is_ignored (sc : ScheduleConfig)
    (pre t post : jsstring) (random : Q) :
  forallb isWhiteSpace pre = true -> forallb isWhiteSpace post = true ->
  t <> [] ->
  buildSchedule (with_time sc (pre ++ t ++ post)) random
  = buildSchedule (with_time sc t) random.
Proof.
  intros Hpre Hpost Hne.
  rewrite (buildSchedule_time (with_time sc (pre ++ t ++ post)) (pre ++ t ++ post))
    by (try reflexivity; destruct pre, t; cbn; congruence).
  rewrite (buildSchedule_time (with_time sc t) t) by (reflexivity || exact Hne).
  unfold parseTime. rewrite trim_padded by assumption. reflexivity.
Qed.

Lemma white_space_around_time_is_ignored_example :
  let sc := {| enabled := Some true; time := None; cron := None;
               jitter := None |} in
  buildSchedule (with_time sc (lit "  " ++ lit "21:30" ++ lit " ")) 0
  = buildSchedule (with_time sc (lit "21:30")) 0.
Proof.
  intros sc.
  apply (white_space_around_time_is_ignored sc (lit "  ") (lit "21:30") (lit " ") 0);
    [reflexivity | reflexivity | discriminate].
Defined.

(** X3. The display time of a resolved schedule is the base time written
    HH:MM, and configuring it as the time resolves to the same schedule. *)
Theorem displayTime_is_a_normal_form (sc : ScheduleConfig) (t : jsstring)
    (random : Q) :
  time sc = Some t -> t <> [] ->
  cronExpr (buildSchedule sc random) <> None ->
  let s := buildSchedule sc random in
  (exists h m, 0 <= h <= 23 /\ 0 <= m <= 59 /\ displayTime s = hhmm h m
               /\ parseTime t = Some (h, m))
  /\ buildSchedule (with_time sc (displayTime s)) random = s.
Proof.
  intros Ht Hne Hok s. unfold s in *.
  rewrite (buildSchedule_time sc t random Ht Hne) in *.
  destruct (parseTime t) as [[h m]|] eqn:E; [|cbn in Hok; congruence].
  pose proof (parseClock_shape _ _ _ E) as (Hh & Hm & _).
  destruct (parseClock_hhmm h m Hh Hm) as (P1 & _ & T1 & _).
  cbn [displayTime]. split; [exists h, m; auto|].
  assert (Hnz : hhmm h m <> []).
  { intros Z0. rewrite Z0 in P1. discriminate P1. }
  rewrite (buildSchedule_time (with_time sc (hhmm h m)) (hhmm h m))
    by (reflexivity || exact Hnz).
  unfold parseTime. rewrite T1, P1. reflexivity.
Qed.

Lemma displayTime_is_a_normal_form_example :
  let sc := {| enabled := Some true; time := Some (lit "7:05");
               cron := None; jitter := None |} in
  let s := buildSchedule sc 0 in
  (exists h m, 0 <= h <= 23 /\ 0 <= m <= 59 /\ displayTime s = hhmm h m
               /\ parseTime (lit "7:05") = Some (h, m))
  /\ buildSchedule (with_time sc (displayTime s)) 0 = s.
Proof.
  intros sc.
  apply (displayTime_is_a_normal_form sc (lit "7:05") 0);
    [reflexivity | discriminate | discriminate].
Defined.

(** ** The expression and the time it denotes *)

(** The pair returned by [applyJitter] is the wrapped total, split. *)
Lemma applyJitter_wrapped (h m : Z) (jit : option JitterConfig) (random : Q) :
  0 <= h <= 23 -> 0 <= m <= 59 ->
  let j := applyJitter h m jit random in
  let total := (h * 60 + m + offsetMinutes j) mod 1440 in
  hour j = total / 60 /\ minute j = total mod 60
  /\ 0 <= hour j <= 23 /\ 0 <= minute j <= 59.
Proof.
  intros Hh Hm. unfold applyJitter.
  destruct (negb (jitter_is_enabled jit) || _); cbn [hour minute offsetMinutes].
  - rewrite Z.add_0_r, Z.mod_small by lia.
    repeat split; try lia; Z.div_mod_to_equations; lia.
  - rewrite wrap_total. unfold minutesInDay. change (24 * 60) with 1440.
    set (total := h * 60 + m + _).
    assert (Hr : 0 <= total mod 1440 < 1440) by (apply Z.mod_pos_bound; lia).
    rewrite Z.rem_mod_nonneg by lia.
    repeat split; try reflexivity; Z.div_mod_to_equations; lia.
Qed.

(** [extractTimeFromCron] reads a daily expression back as its time. *)
Lemma extractTimeFromCron_daily (h m : Z) :
  0 <= h <= 23 -> 0 <= m <= 59 ->
  extractTimeFromCron (daily_expression m h) = hhmm h m.
Proof.
  intros Hh Hm.
  assert (All : forallb (fun h => forallb (fun m =>
                  jsstring_eqb (extractTimeFromCron (daily_expression m h))
                    (hhmm h m)) (below 60)) (below 24) = true)
    by (vm_compute; reflexivity).
  rewrite forallb_forall in All.
  specialize (All h (below_In 24 h ltac:(lia))).
  rewrite forallb_forall in All.
  specialize (All m (below_In 60 m ltac:(lia))).
  unfold jsstring_eqb in All.
  destruct (list_eq_dec N.eq_dec _ _) as [E|]; [exact E | discriminate All].
Qed.

(** X4. On a jitter window of at most 2^50 minutes either way, the
    expression resolved from a configured time, read back by
    [extractTimeFromCron], is the base time plus the applied offset,
    wrapped around midnight and written HH:MM; without an offset it is the
    display time. *)
Theorem expression_denotes_shifted_time (sc : ScheduleConfig) (t : jsstring)
    (random : Q) (h m : Z) :
  time sc = Some t -> t <> [] -> parseTime t = Some (h, m) ->
  (Qabs (jitter_before (jitter sc)) <= inject_Z (2 ^ 50))%Q ->
  (Qabs (jitter_after (jitter sc)) <= inject_Z (2 ^ 50))%Q ->
  let s := buildSchedule sc random in
  let total := (h * 60 + m + jitterApplied s) mod 1440 in
  exists e,
    cronExpr s = Some e
    /\ e = daily_expression (total mod 60) (total / 60)
    /\ extractTimeFromCron e = hhmm (total / 60) (total mod 60)
    /\ (jitterApplied s = 0 -> extractTimeFromCron e = displayTime s).
Proof.
  intros Ht Hne E _ _ s total. subst total s.
  rewrite (buildSchedule_time sc t random Ht Hne), E.
  pose proof (parseClock_shape _ _ _ E) as (Hh & Hm & _).
  pose proof (applyJitter_wrapped h m (jitter sc) random Hh Hm)
    as (Jh & Jm & Rh & Rm).
  cbv beta iota zeta in *. cbn [cronExpr displayTime jitterApplied].
  eexists. split; [reflexivity|].
  rewrite <- Jh, <- Jm. split; [reflexivity|].
  split; [apply extractTimeFromCron_daily; assumption|].
  intros Z0. rewrite extractTimeFromCron_daily by assumption.
  rewrite Jh, Jm, Z0, Z.add_0_r, Z.mod_small by lia.
  f_equal; f_equal; Z.div_mod_to_equations; lia.
Qed.

(** 09:00 with an offset of +15 (window 20 before and 30 after, random
    source at 35/51) is the expression of 09:15, displayed as 09:00. *)
Lemma expression_denotes_shifted_time_example :
  let sc := {| enabled := Some true; time := Some (lit "09:00"); cron := None;
               jitter := Some {| jitter_enabled := Some true;
                                 minMinutesBefore := Some (Num 20);
                                 maxMinutesAfter := Some (Num 30) |} |} in
  let s := buildSchedule sc (35 # 51) in
  jitterApplied s = 15
  /\ displayTime s = lit "09:00"
  /\ exists e,
       cronExpr s = Some e
       /\ e = daily_expression 15 9
       /\ extractTimeFromCron e = hhmm 9 15
       /\ (jitterApplied s = 0 -> extractTimeFromCron e = displayTime s).
Proof.
  intros sc s. split; [reflexivity|]. split; [reflexivity|].
  exact (expression_denotes_shifted_time sc (lit "09:00") (35 # 51) 9 0
           eq_refl ltac:(discriminate) eq_refl
           ltac:(vm_compute; discriminate) ltac:(vm_compute; discriminate)).
Defined.

(* ===================================================================== *)
(** * More on the scheduler object *)
(* ===================================================================== *)

Section Clockwork.

Variable cron_validate : jsstring -> bool.
Variable detectedTimezone : jsstring.
Variable config : Config.

Abbreviation World := Engine.World.
Abbreviation step := (Engine.step cron_validate detectedTimezone config).
Abbreviation run := (Engine.run cron_validate detectedTimezone config).
Abbreviation reachable := (Engine.reachable cron_validate detectedTimezone config).
Abbreviation start := (Engine.start cron_validate detectedTimezone config).
Abbreviation rescheduleWithJitter :=
  (Engine.rescheduleWithJitter cron_validate detectedTimezone config).
Abbreviation loop := (Engine.loop cron_validate detectedTimezone config).
Abbreviation runScheduledTask :=
  (Engine.runScheduledTask cron_validate detectedTimezone config).
Abbreviation triggerNow := (Engine.triggerNow cron_validate detectedTimezone config).
Abbreviation task_fulfilled :=
  (Engine.task_fulfilled cron_validate detectedTimezone config).
Abbreviation task_rejected :=
  (Engine.task_rejected cron_validate detectedTimezone config).
Abbreviation backoff_elapsed :=
  (Engine.backoff_elapsed cron_validate detectedTimezone config).
Abbreviation maxRetries := (Engine.maxRetries config).
Abbreviation backoffFor := (Engine.backoffFor config).
Abbreviation added := (Engine.added cron_validate detectedTimezone config).
Abbreviation cron_change := (Lifecycle.cron_change cron_validate detectedTimezone config).
Abbreviation orderly := (Lifecycle.orderly cron_validate detectedTimezone config).
Abbreviation armed_as_remembered :=
  (Lifecycle.armed_as_remembered cron_validate detectedTimezone config).

Local Ltac turn :=
  unfold Engine.bind, Engine.ret, Engine.log, Engine.emit, Engine.get,
    Engine.set_isRunning, Engine.set_lastRunTime, Engine.set_cronJob,
    Engine.set_lastCronExpression, Engine.arm in *;
  cbn [fst snd isRunning lastRunTime cronJob lastCronExpression app] in *.

Lemma cron_change_ext (o : origin) (a a' b b' : Scheduler)
    (ce : list effect) :
  cronJob a' = cronJob a -> lastCronExpression a' = lastCronExpression a ->
  cronJob b' = cronJob b -> lastCronExpression b' = lastCronExpression b ->
  cron_change o a b ce -> cron_change o a' b' ce.
Proof.
  intros A1 A2 B1 B2 H. destruct H as [H1 H2 H3 | j H0 H1 H2 H3 H4 |
                                        sc r e H1 H2 H3 H4 H5 H6 H7].
  - apply cron_unchanged; congruence.
  - apply cron_stopped with j; congruence.
  - apply cron_armed with sc r e; try congruence; rewrite A1; exact H7.
Qed.

Lemma reschedule_change (random : Q) (s : Scheduler) :
  exists s' e,
    rescheduleWithJitter random s = (tt, s', e)
    /\ isRunning s' = isRunning s
    /\ lastRunTime s' = lastRunTime s
    /\ forallb is_clock_note e = true
    /\ cron_change ByRun s s' (filter is_cron e).
Proof.
  unfold Engine.rescheduleWithJitter.
  destruct (scheduling config) as [sc|] eqn:Hsc;
    [|turn; exists s, []; repeat split; auto; apply cron_unchanged; auto].
  destruct (truthy_bool (enabled sc)) eqn:Hen; cbn [negb orb];
    [|turn; exists s, []; repeat split; auto; apply cron_unchanged; auto].
  destruct (truthy_string (time sc)) eqn:Hti; cbn [negb];
    [|turn; exists s, []; repeat split; auto; apply cron_unchanged; auto].
  assert (Hen' : enabled sc = Some true)
    by (destruct (enabled sc) as [[|]|]; (reflexivity || discriminate)).
  destruct (cronExpr (buildSchedule sc random)) as [[|c e]|] eqn:Hb;
    try (turn; eexists s, _; repeat split; auto; apply cron_unchanged; auto).
  destruct (cron_validate (c :: e)) eqn:Hv; cbn [negb];
    [|turn; eexists s, _; repeat split; auto; apply cron_unchanged; auto].
  turn. destruct (cronJob s) as [j|] eqn:Hj; turn.
  - eexists _, _. split; [reflexivity|]. cbn.
    repeat split; auto.
    apply cron_armed with sc random (c :: e); auto.
    right. cbn. rewrite Hj. auto.
  - eexists _, _. split; [reflexivity|]. cbn.
    repeat split; auto.
    apply cron_armed with sc random (c :: e); auto.
    right. cbn. rewrite Hj. auto.
Qed.

Lemma clock_notes_no_call (e : list effect) :
  forallb is_clock_note e = true -> filter is_call e = [].
Proof.
  induction e as [|x e IH]; [reflexivity|]. cbn. intros H.
  apply andb_true_iff in H. destruct H as [Hx He].
  destruct x as [m| | | |]; try discriminate Hx; cbn; auto.
Qed.

Abbreviation attempt_mark := Lifecycle.attempt_mark.
Abbreviation changes :=
  (Lifecycle.changes cron_validate detectedTimezone config).

Lemma loop_changes (attempts now : Z) (random : Q) (s : Scheduler) :
  changes (loop attempts now random) s.
Proof.
  unfold Lifecycle.changes. destruct (Z.le_gt_cases attempts maxRetries) as [H|H].
  - rewrite loop_attempt by exact H. eexists _, _, _. split; [reflexivity|].
    split; [apply cron_unchanged; reflexivity|].
    right. exists now. split; reflexivity.
  - unfold Engine.loop. destruct (Z.leb_spec attempts maxRetries); [lia|].
    destruct (reschedule_change random s) as (s' & e & E & _ & L & N & C).
    turn. rewrite E. eexists _, _, _. split; [reflexivity|].
    rewrite app_nil_r. split; [exact C|].
    left. split; [exact L | apply clock_notes_no_call, N].
Qed.

Lemma changes_with_flag (attempts now : Z) (random : Q) (s : Scheduler)
    (b : bool) (pre : list effect) :
  filter is_cron pre = [] -> filter is_call pre = [] ->
  exists a s' e,
    loop attempts now random
      {| cronJob := cronJob s; isRunning := b; lastRunTime := lastRunTime s;
         lastCronExpression := lastCronExpression s |} = (a, s', e)
    /\ cron_change ByRun s s' (filter is_cron (pre ++ e))
    /\ attempt_mark s s' (pre ++ e).
Proof.
  intros P1 P2.
  destruct (loop_changes attempts now random
              {| cronJob := cronJob s; isRunning := b;
                 lastRunTime := lastRunTime s;
                 lastCronExpression := lastCronExpression s |})
    as (a & s' & e & E & C & K).
  exists a, s', e. split; [exact E|].
  unfold Lifecycle.attempt_mark in *.
  rewrite !filter_app, P1, P2. cbn [app].
  split; [eapply cron_change_ext; [| | | |exact C]; reflexivity|].
  exact K.
Qed.

Lemma runScheduledTask_changes (now : Z) (random : Q) (s : Scheduler) :
  changes (runScheduledTask now random) s.
Proof.
  unfold Lifecycle.changes, Engine.runScheduledTask. turn.
  destruct (isRunning s).
  - eexists _, _, _. split; [reflexivity|].
    split; [apply cron_unchanged; reflexivity | left; split; reflexivity].
  - destruct (loop_changes 0 now random s) as (a & s' & e & E & C & K).
    rewrite E. eexists _, _, _. split; [reflexivity|]. auto.
Qed.

Lemma triggerNow_changes (now : Z) (random : Q) (s : Scheduler) :
  changes (triggerNow now random) s.
Proof.
  unfold Lifecycle.changes, Engine.triggerNow. turn.
  destruct (runScheduledTask_changes now random s) as (a & s' & e & E & C & K).
  rewrite E. eexists _, _, _. split; [reflexivity|]. cbn. auto.
Qed.

Lemma task_fulfilled_changes (random : Q) (s : Scheduler) :
  changes (task_fulfilled random) s.
Proof.
  unfold Lifecycle.changes, Engine.task_fulfilled. turn.
  destruct (reschedule_change random s) as (s' & e & E & _ & L & N & C).
  rewrite E. eexists _, _, _. split; [reflexivity|].
  unfold Lifecycle.attempt_mark. cbn. rewrite app_nil_r.
  split; [eapply cron_change_ext; [| | | |exact C]; reflexivity|].
  left. split; [exact L | apply clock_notes_no_call, N].
Qed.

Lemma task_rejected_changes (attempts : Z) (err : thrown) (now : Z)
    (random : Q) (s : Scheduler) :
  changes (task_rejected attempts err now random) s.
Proof.
  unfold Lifecycle.changes, Engine.task_rejected. turn.
  destruct (Z.leb_spec (attempts + 1) maxRetries) as [H|H].
  - eexists _, _, _. split; [reflexivity|].
    split; [apply cron_unchanged; reflexivity | left; split; reflexivity].
  - turn.
    destruct (changes_with_flag (attempts + 1) now random s false
                [Log (RunFailed (attempts + 1) (maxRetries + 1) (errorMessage err));
                 Log (MaxRetriesExceeded (maxRetries + 1))]
                eq_refl eq_refl) as (a & s' & e & E & C & K).
    rewrite E. eexists _, _, _. split; [reflexivity|]. auto.
Qed.

Lemma backoff_elapsed_changes (attempts now : Z) (random : Q) (s : Scheduler) :
  changes (backoff_elapsed attempts now random) s.
Proof.
  unfold Lifecycle.changes, Engine.backoff_elapsed. turn.
  destruct (changes_with_flag attempts now random s false [] eq_refl eq_refl)
    as (a & s' & e & E & C & K).
  rewrite E. eexists _, _, _. split; [reflexivity|]. auto.
Qed.

(** [start()]: the result with the fields and effects it leaves. *)
Lemma start_outcome (random : Q) (s : Scheduler) :
  (exists m, start random s = (false, s, [Log m])
             /\ ~ (exists sc e, scheduling config = Some sc
                     /\ enabled sc = Some true
                     /\ cronExpr (buildSchedule sc random) = Some e
                     /\ e <> [] /\ cron_validate e = true))
  \/ (exists sc e s' label,
        scheduling config = Some sc /\ enabled sc = Some true
        /\ cronExpr (buildSchedule sc random) = Some e
        /\ e <> [] /\ cron_validate e = true
        /\ s' = {| cronJob := Some {| expression := e;
                                      timezone := detectedTimezone |};
                   isRunning := isRunning s; lastRunTime := lastRunTime s;
                   lastCronExpression := Some e |}
        /\ start random s
           = (true, s',
              [CronSchedule {| expression := e; timezone := detectedTimezone |};
               Log (SchedulerStarted label (jitterApplied (buildSchedule sc random)))])).
Proof.
  unfold Engine.start.
  destruct (scheduling config) as [sc|] eqn:Hsc.
  2:{ left. eexists. split; [reflexivity|].
      intros (sc & e & H & _). discriminate H. }
  destruct (enabled sc) as [[|]|] eqn:Hen; cbn [truthy_bool negb].
  2,3: left; eexists; (split; [reflexivity|]);
       intros (sc' & e & H1 & H2 & _); congruence.
  destruct (cronExpr (buildSchedule sc random)) as [[|c e]|] eqn:Hb.
  1,3: left; eexists; (split; [reflexivity|]);
       intros (sc' & e' & H1 & H2 & H3 & H4 & _);
       injection H1 as <-; congruence.
  destruct (cron_validate (c :: e)) eqn:Hv; cbn [negb].
  - right. exists sc, (c :: e). eexists _, _.
    repeat (split; [first [reflexivity | assumption | discriminate]|]).
    turn. reflexivity.
  - left. eexists. split; [reflexivity|].
    intros (sc' & e' & H1 & H2 & H3 & H4 & H5).
    injection H1 as <-. rewrite Hb in H3. injection H3 as <-. congruence.
Qed.

Lemma start_changes (random : Q) (s : Scheduler) :
  exists b s' e,
    start random s = (b, s', e)
    /\ cron_change ByStart s s' (filter is_cron e)
    /\ attempt_mark s s' e.
Proof.
  destruct (start_outcome random s)
    as [(m & E & _) | (sc & e & s' & label & H1 & H2 & H3 & H4 & H5 & -> & E)];
    rewrite E; eexists _, _, _; (split; [reflexivity|]).
  - split; [apply cron_unchanged; reflexivity|]. left; split; reflexivity.
  - split; [apply cron_armed with sc random e; auto|].
    left; split; reflexivity.
Qed.

Lemma stop_changes (s : Scheduler) :
  exists s' e,
    Engine.stop s = (tt, s', e)
    /\ cron_change ByStop s s' (filter is_cron e)
    /\ attempt_mark s s' e
    /\ cronJob s' = None
    /\ isRunning s' = isRunning s
    /\ lastRunTime s' = lastRunTime s
    /\ lastCronExpression s' = lastCronExpression s
    /\ e = match cronJob s with
           | Some j => [CronStop j; Log SchedulerStopped]
           | None => []
           end.
Proof.
  unfold Engine.stop. turn. destruct (cronJob s) as [j|] eqn:Hj; turn.
  - eexists _, _. split; [reflexivity|]. cbn.
    split; [apply cron_stopped with j; auto|].
    split; [left; split; reflexivity|]. auto.
  - exists s, []. split; [reflexivity|].
    split; [apply cron_unchanged; auto|].
    split; [left; split; reflexivity|]. auto 6.
Qed.

(** Every event changes the cron job and the last-run time in one of the
    ways above. *)
Lemma step_changes (w : World) (ev : event) :
  exists e,
    effects (step w ev) = effects w ++ e
    /\ cron_change (origin_of ev) (scheduler w) (scheduler (step w ev))
         (filter is_cron e)
    /\ attempt_mark (scheduler w) (scheduler (step w ev)) e.
Proof.
  assert (Idle : exists e : list effect,
            effects w = effects w ++ e
            /\ cron_change (origin_of ev) (scheduler w) (scheduler w)
                 (filter is_cron e)
            /\ attempt_mark (scheduler w) (scheduler w) e).
  { exists []. rewrite app_nil_r. split; [reflexivity|].
    split; [apply cron_unchanged; reflexivity | left; split; reflexivity]. }
  assert (Gen : forall (t : M progress) (final : progress -> list suspended),
            origin_of ev = ByRun ->
            changes t (scheduler w) ->
            exists e,
              effects (let '(p, s, e) := t (scheduler w) in
                       {| scheduler := s; calls := final p;
                          effects := effects w ++ e |})
              = effects w ++ e
              /\ cron_change (origin_of ev) (scheduler w)
                   (scheduler (let '(p, s, e) := t (scheduler w) in
                               {| scheduler := s; calls := final p;
                                  effects := effects w ++ e |}))
                   (filter is_cron e)
              /\ attempt_mark (scheduler w)
                   (scheduler (let '(p, s, e) := t (scheduler w) in
                               {| scheduler := s; calls := final p;
                                  effects := effects w ++ e |})) e).
  { intros t final Hrun (a & s' & e & E & C & K). rewrite E. exists e. cbn.
    rewrite Hrun. repeat split; auto. }
  destruct ev as [r| |now r|now r|i now r|i err now r|i now r];
    cbn [Engine.step].
  - unfold Engine.perform.
    destruct (start_changes r (scheduler w)) as (b & s' & e & E & C & K).
    rewrite E. exists e. cbn. auto.
  - unfold Engine.perform.
    destruct (stop_changes (scheduler w)) as (s' & e & E & C & K & _).
    rewrite E. exists e. cbn. auto.
  - unfold Engine.enter.
    apply (Gen (runScheduledTask now r)
             (fun p => match p with
                       | Suspend k => calls w ++ [k]
                       | Return _ => calls w
                       end)); [reflexivity|].
    apply runScheduledTask_changes.
  - unfold Engine.enter.
    apply (Gen (triggerNow now r)
             (fun p => match p with
                       | Suspend k => calls w ++ [k]
                       | Return _ => calls w
                       end)); [reflexivity|].
    apply triggerNow_changes.
  - destruct (nth_error (calls w) i) as [[a|a]|]; try exact Idle.
    unfold Engine.resume.
    apply (Gen (task_fulfilled r)
             (fun p => match p with
                       | Suspend k => Engine.replace_nth i k (calls w)
                       | Return _ => Engine.remove_nth i (calls w)
                       end)); [reflexivity|].
    apply task_fulfilled_changes.
  - destruct (nth_error (calls w) i) as [[a|a]|]; try exact Idle.
    unfold Engine.resume.
    apply (Gen (task_rejected a err now r)
             (fun p => match p with
                       | Suspend k => Engine.replace_nth i k (calls w)
                       | Return _ => Engine.remove_nth i (calls w)
                       end)); [reflexivity|].
    apply task_rejected_changes.
  - destruct (nth_error (calls w) i) as [[a|a]|]; try exact Idle.
    unfold Engine.resume.
    apply (Gen (backoff_elapsed a now r)
             (fun p => match p with
                       | Suspend k => Engine.replace_nth i k (calls w)
                       | Return _ => Engine.remove_nth i (calls w)
                       end)); [reflexivity|].
    apply backoff_elapsed_changes.
Qed.

Lemma added_one (w : World) (ev : event) (e : list effect) :
  effects (step w ev) = effects w ++ e -> added w [ev] = e.
Proof.
  intros E. unfold Engine.added. cbn [Engine.run fold_left]. rewrite E.
  rewrite skipn_app, Nat.sub_diag, skipn_all. reflexivity.
Qed.

Lemma reachable_ind (P : World -> Prop) :
  P Engine.boot ->
  (forall w ev, reachable w -> P w -> P (step w ev)) ->
  forall w, reachable w -> P w.
Proof.
  intros H0 HS w [evs ->].
  induction evs as [|ev evs IH] using rev_ind; [exact H0|].
  unfold Engine.run. rewrite fold_left_app. cbn [fold_left].
  apply HS; [exists evs; reflexivity | exact IH].
Qed.

(** ** [start()] and [stop()] *)

(** X6. [start()] returns true exactly when scheduling is enabled, the
    schedule resolves to a non-empty expression and [cron.validate] accepts
    it.  When it returns false it leaves every field as it was and only
    writes one log line; when it returns true it arms one job for the
    resolved expression in the detected time zone and remembers the
    expression, and it never stops a job the object already holds. *)
Theorem start_arms_or_leaves_untouched (random : Q) (s : Scheduler) :
  let '(b, s', e) := start random s in
  (b = true <->
   exists sc expr,
     scheduling config = Some sc /\ enabled sc = Some true
     /\ cronExpr (buildSchedule sc random) = Some expr
     /\ expr <> [] /\ cron_validate expr = true)
  /\ (b = false -> s' = s /\ exists m, e = [Log m])
  /\ (b = true ->
      exists expr,
        cronExpr (match scheduling config with
                  | Some sc => buildSchedule sc random
                  | None => invalidSchedule
                  end) = Some expr
        /\ s' = {| cronJob := Some {| expression := expr;
                                      timezone := detectedTimezone |};
                   isRunning := isRunning s; lastRunTime := lastRunTime s;
                   lastCronExpression := Some expr |}
        /\ filter is_cron e
           = [CronSchedule {| expression := expr;
                              timezone := detectedTimezone |}]).
Proof.
  destruct (start_outcome random s)
    as [(m & E & N) | (sc & e & s' & label & H1 & H2 & H3 & H4 & H5 & -> & E)];
    rewrite E.
  - split; [split; [discriminate | intros R; elim (N R)]|].
    split; [intros _; split; [reflexivity | eauto] | discriminate].
  - split; [split; [intros _; exists sc, e; auto | reflexivity]|].
    split; [discriminate|]. intros _. exists e. rewrite H1. auto.
Qed.

(** X7. [stop()] leaves the object without a cron job, does not touch the
    guard, the last-run time or a call in progress, and a second [stop()]
    changes nothing and has no effect at all. *)
Theorem stop_disarms_once (w : World) :
  let w1 := step w DoStop in
  cronJob (scheduler w1) = None
  /\ isRunning (scheduler w1) = isRunning (scheduler w)
  /\ lastRunTime (scheduler w1) = lastRunTime (scheduler w)
  /\ calls w1 = calls w
  /\ added w [DoStop]
     = match cronJob (scheduler w) with
       | Some j => [CronStop j; Log SchedulerStopped]
       | None => []
       end
  /\ step w1 DoStop = w1.
Proof.
  cbn zeta. unfold Engine.added. cbn [Engine.step Engine.run fold_left].
  unfold Engine.perform.
  destruct (stop_changes (scheduler w))
    as (s' & e & E & _ & _ & H1 & H2 & H3 & H4 & He).
  rewrite E. cbn [scheduler calls effects].
  rewrite skipn_app, Nat.sub_diag, skipn_all. cbn [skipn app].
  repeat split; auto.
  unfold Engine.stop at 1. turn. rewrite H1. cbn. rewrite app_nil_r.
  reflexivity.
Qed.

(** ** The cron job the object holds *)

Lemma armed_reachable (w : World) :
  reachable w -> armed_as_remembered (scheduler w).
Proof.
  revert w. apply (reachable_ind (fun w => armed_as_remembered (scheduler w))).
  - intros j H. discriminate H.
  - intros w0 ev _ IH.
    destruct (step_changes w0 ev) as (e & _ & C & _).
    destruct C as [H1 H2 _ | j _ _ H2 _ _ | sc r x H1 H2 H3 H4 H5 H6 _].
    + intros j Hj. rewrite H1 in Hj. rewrite H2. apply IH, Hj.
    + intros j' Hj. rewrite H2 in Hj. discriminate Hj.
    + intros j Hj. rewrite H5 in Hj. injection Hj as <-. cbn.
      repeat split; auto. exists sc, r. auto.
Qed.

(** X8. In every state the scheduler can reach, the job it holds was armed
    with the expression it remembers in [lastCronExpression], in the
    detected time zone; [cron.validate] accepts that expression, and it is
    what [buildSchedule] resolves from the configuration for some value of
    the random source. *)
Theorem held_job_is_the_remembered_one (w : World) (j : ScheduledTask) :
  reachable w -> cronJob (scheduler w) = Some j ->
  lastCronExpression (scheduler w) = Some (expression j)
  /\ timezone j = detectedTimezone
  /\ cron_validate (expression j) = true
  /\ exists sc random,
       scheduling config = Some sc /\ enabled sc = Some true
       /\ cronExpr (buildSchedule sc random) = Some (expression j).
Proof. intros Hw Hj. exact (armed_reachable w Hw j Hj). Qed.

Lemma live_step_other (e : list effect) (l : list ScheduledTask) :
  fold_left live_step e l = fold_left live_step (filter is_cron e) l.
Proof.
  revert l. induction e as [|x e IH]; intros l; [reflexivity|].
  destruct x as [m| | |j|j]; cbn; apply IH.
Qed.

Lemma live_jobs_app (es e : list effect) :
  live_jobs (es ++ e) = fold_left live_step (filter is_cron e) (live_jobs es).
Proof.
  unfold live_jobs. rewrite fold_left_app. apply live_step_other.
Qed.

Lemma job_eqb_refl (j : ScheduledTask) : job_eqb j j = true.
Proof.
  unfold job_eqb, jsstring_eqb.
  destruct (list_eq_dec N.eq_dec (expression j) (expression j)); [|congruence].
  destruct (list_eq_dec N.eq_dec (timezone j) (timezone j)); [|congruence].
  reflexivity.
Qed.

Lemma live_orderly (w : World) :
  orderly w -> live_jobs (effects w) = held (scheduler w).
Proof.
  induction 1 as [|w ev Hw IH Hstart]; [reflexivity|].
  destruct (step_changes w ev) as (e & E & C & _).
  rewrite E, live_jobs_app, IH. unfold held in *.
  destruct C as [H1 H2 H3 | j _ H1 H2 _ H3 | sc r x _ _ _ _ H5 _ H7].
  - rewrite H3, H1. reflexivity.
  - rewrite H3, H1, H2. cbn. rewrite job_eqb_refl. reflexivity.
  - rewrite H5. destruct H7 as [[Ho ->] | (Ho & _ & ->)].
    + rewrite Hstart by (destruct ev; (reflexivity || discriminate Ho)).
      reflexivity.
    + destruct (cronJob (scheduler w)) as [j|]; cbn;
        rewrite ?job_eqb_refl; reflexivity.
Qed.

(** X9. As long as [start()] is only called on an object that holds no
    job, the jobs that are live (created and not stopped) are exactly the
    one the object holds, so at most one: re-arming after a run stops the
    previous job first.  A [start()] that succeeds on an object that holds
    a job leaves that job running beside the new one. *)
Theorem one_live_job (w : World) :
  orderly w ->
  live_jobs (effects w) = held (scheduler w)
  /\ (length (live_jobs (effects w)) <= 1)%nat
  /\ (forall random j,
        cronJob (scheduler w) = Some j ->
        fst (fst (start random (scheduler w))) = true ->
        exists j',
          cronJob (scheduler (step w (DoStart random))) = Some j'
          /\ live_jobs (effects (step w (DoStart random))) = [j; j']).
Proof.
  intros Hw. pose proof (live_orderly w Hw) as L.
  split; [exact L|]. split.
  - rewrite L. unfold held. destruct (cronJob (scheduler w)); cbn; lia.
  - intros random j Hj Hb. cbn [Engine.step]. unfold Engine.perform.
    destruct (start_outcome random (scheduler w))
      as [(m & E & _) | (sc & e & s' & label & _ & _ & _ & _ & _ & -> & E)];
      rewrite E in *; [discriminate Hb|].
    cbn [scheduler effects cronJob]. eexists. split; [reflexivity|].
    rewrite live_jobs_app, L. unfold held. rewrite Hj. reflexivity.
Qed.

(** ** What a run does to the clock *)

(** [rescheduleWithJitter] under a configured time that resolves and is
    accepted. *)
Lemma reschedule_arms (sc : ScheduleConfig) (t : jsstring) (h m : Z)
    (random : Q) (s : Scheduler) :
  scheduling config = Some sc -> enabled sc = Some true ->
  time sc = Some t -> t <> [] -> parseTime t = Some (h, m) ->
  let j := applyJitter h m (jitter sc) random in
  let e := daily_expression (minute j) (hour j) in
  cron_validate e = true ->
  rescheduleWithJitter random s
  = (tt,
     {| cronJob := Some {| expression := e; timezone := detectedTimezone |};
        isRunning := isRunning s; lastRunTime := lastRunTime s;
        lastCronExpression := Some e |},
     stop_of (cronJob s)
     ++ [CronSchedule {| expression := e; timezone := detectedTimezone |};
         Log (Rescheduled (hhmm h m) (offsetMinutes j))]).
Proof.
  intros Hsc Hen Ht Hne Hp j e Hv. unfold Engine.rescheduleWithJitter.
  rewrite Hsc, Hen, Ht. destruct t as [|c t']; [congruence|].
  cbn [truthy_bool truthy_string negb orb].
  rewrite (buildSchedule_time sc (c :: t') random Ht Hne), Hp.
  cbv beta iota zeta. cbn [cronExpr displayTime jitterApplied]. fold j. fold e.
  assert (Hnz : exists x y, e = x :: y).
  { unfold e, daily_expression, String_of_int, lit.
    destruct (list_ascii_of_string (NilZero.string_of_int (Z.to_int (minute j))))
      as [|a l] eqn:El.
    - cbn. eauto.
    - cbn. eauto. }
  destruct Hnz as (x & y & Exy). rewrite Exy. rewrite <- Exy.
  rewrite Hv. cbn [negb]. turn.
  unfold Engine.timeLabel. cbn [displayTime].
  assert (Hl : truthy_string (Some (hhmm h m)) = true).
  { pose proof (parseClock_shape _ _ _ Hp) as (Hh & Hm & _).
    destruct (parseClock_hhmm h m Hh Hm) as (P1 & _).
    destruct (hhmm h m); [discriminate P1 | reflexivity]. }
  rewrite Hl. destruct (cronJob s); reflexivity.
Qed.

(** X10. When the task of a run fulfils under an enabled schedule with a
    configured time that resolves to an accepted expression, the object
    ends up holding a job for the freshly resolved expression, whatever it
    held before: a job from [start()] is stopped and replaced, and an
    object that was never started, or was stopped during the run, is armed. *)
Theorem completed_run_arms_the_schedule (w : World) (i : nat) (attempts : Z)
    (sc : ScheduleConfig) (t : jsstring) (h m : Z) (now : Z) (random : Q) :
  nth_error (calls w) i = Some (AwaitTask attempts) ->
  scheduling config = Some sc -> enabled sc = Some true ->
  time sc = Some t -> t <> [] -> parseTime t = Some (h, m) ->
  let j := applyJitter h m (jitter sc) random in
  let e := daily_expression (minute j) (hour j) in
  cron_validate e = true ->
  scheduler (step w (TaskFulfils i now random))
  = {| cronJob := Some {| expression := e; timezone := detectedTimezone |};
       isRunning := false; lastRunTime := lastRunTime (scheduler w);
       lastCronExpression := Some e |}
  /\ filter is_cron (added w [TaskFulfils i now random])
     = stop_of (cronJob (scheduler w))
       ++ [CronSchedule {| expression := e; timezone := detectedTimezone |}].
Proof.
  intros Hi Hsc Hen Ht Hne Hp j e Hv.
  unfold Engine.added. cbn [Engine.step Engine.run fold_left]. rewrite Hi.
  unfold Engine.resume, Engine.task_fulfilled. turn.
  rewrite (reschedule_arms sc t h m random (scheduler w) Hsc Hen Ht Hne Hp Hv).
  cbn [scheduler effects]. fold j. fold e.
  split; [reflexivity|].
  rewrite skipn_app, Nat.sub_diag, skipn_all. cbn [skipn app].
  destruct (cronJob (scheduler w)); reflexivity.
Qed.

(** X11. When the configuration has no enabled schedule with a configured
    time (scheduling absent or disabled, or a legacy expression or the
    default only), no turn of a run touches the clock: firings, manual
    triggers, settled tasks and backoff timers leave the held job and the
    remembered expression as they are and emit no cron effect. *)
Theorem runs_leave_untimed_schedule_alone (w : World) (ev : event) :
  (forall sc, scheduling config = Some sc ->
              truthy_bool (enabled sc) && truthy_string (time sc) = false) ->
  origin_of ev = ByRun ->
  cronJob (scheduler (step w ev)) = cronJob (scheduler w)
  /\ lastCronExpression (scheduler (step w ev))
     = lastCronExpression (scheduler w)
  /\ filter is_cron (added w [ev]) = [].
Proof.
  intros Hcfg Hev. destruct (step_changes w ev) as (e & E & C & _).
  rewrite (added_one w ev e E). rewrite Hev in C.
  destruct C as [H1 H2 H3 | j H0 _ _ _ _ | sc r x H1 H2 _ _ _ _ H7].
  - auto.
  - discriminate H0.
  - destruct H7 as [[H0 _] | (_ & Ht & _)]; [discriminate H0|].
    specialize (Hcfg sc H1). rewrite H2, Ht in Hcfg. discriminate Hcfg.
Qed.

(** ** Runs that recover, and runs that cannot start *)

Lemma completions_app (a b : list effect) :
  completions (a ++ b) = (completions a + completions b)%nat.
Proof. unfold completions. rewrite filter_app, length_app. reflexivity. Qed.

Lemma exhaustions_app (a b : list effect) :
  exhaustions (a ++ b) = (exhaustions a + exhaustions b)%nat.
Proof. unfold exhaustions. rewrite filter_app, length_app. reflexivity. Qed.

Lemma clock_notes_counts (e : list effect) :
  forallb is_clock_note e = true ->
  invocations e = 0%nat /\ timeouts e = [] /\ failure_reports e = []
  /\ completions e = 0%nat /\ exhaustions e = 0%nat.
Proof.
  induction e as [|x e IH]; [repeat split|]. cbn [forallb]. intros H.
  apply andb_true_iff in H. destruct H as [Hx He].
  destruct (IH He) as (I1 & I2 & I3 & I4 & I5).
  unfold invocations, completions, exhaustions in *.
  destruct x as [m| | |j|j]; try discriminate Hx;
    [destruct m; try discriminate Hx|..]; cbn; auto.
Qed.

Lemma step_fulfilled (w : World) (i : nat) (a : Z) (now : Z) (r : Q) :
  nth_error (calls w) i = Some (AwaitTask a) ->
  exists s' e,
    step w (TaskFulfils i now r)
    = {| scheduler := s'; calls := Engine.remove_nth i (calls w);
         effects := effects w ++ Log RunCompleted :: Log NextRun :: e |}
    /\ isRunning s' = false
    /\ lastRunTime s' = lastRunTime (scheduler w)
    /\ forallb is_clock_note e = true.
Proof.
  intros Hi. cbn [Engine.step]. rewrite Hi.
  unfold Engine.resume, Engine.task_fulfilled. turn.
  destruct (reschedule_change r (scheduler w)) as (s' & e & E & _ & L & N & _).
  rewrite E. eexists _, e. rewrite app_nil_r. cbn.
  split; [reflexivity|]. auto.
Qed.

Lemma recover_from (fs : list failure) :
  forall (a : Z) (w : World) (now : Z) (r : Q),
    calls w = [AwaitTask a] -> 0 <= a ->
    a + Z.of_nat (length fs) <= maxRetries ->
    let w' := run w (recoveries fs now r) in
    calls w' = []
    /\ isRunning (scheduler w') = false
    /\ lastRunTime (scheduler w')
       = last_start fs (lastRunTime (scheduler w))
    /\ invocations (effects w')
       = (invocations (effects w) + length fs)%nat
    /\ timeouts (effects w')
       = timeouts (effects w) ++ Engine.backoffs config a (length fs)
    /\ failure_reports (effects w')
       = failure_reports (effects w) ++ Engine.reports config a fs
    /\ completions (effects w') = S (completions (effects w))
    /\ exhaustions (effects w') = exhaustions (effects w).
Proof.
  induction fs as [|f fs IH]; intros a w now r Hc Ha Hlen.
  - cbn [recoveries Engine.run fold_left length].
    destruct (step_fulfilled w 0 a now r ltac:(rewrite Hc; reflexivity))
      as (s' & e & E & R & L & N).
    rewrite E. cbn [scheduler calls effects last_start fold_left].
    rewrite Hc. destruct (clock_notes_counts e N) as (I1 & I2 & I3 & I4 & I5).
    rewrite invocations_app, timeouts_app, failure_reports_app,
      completions_app, exhaustions_app.
    change (invocations (Log RunCompleted :: Log NextRun :: e))
      with (invocations e).
    change (timeouts (Log RunCompleted :: Log NextRun :: e)) with (timeouts e).
    change (failure_reports (Log RunCompleted :: Log NextRun :: e))
      with (failure_reports e).
    change (completions (Log RunCompleted :: Log NextRun :: e))
      with (S (completions e)).
    change (exhaustions (Log RunCompleted :: Log NextRun :: e))
      with (exhaustions e).
    rewrite I1, I2, I3, I4, I5. unfold Engine.backoffs. cbn [seq map].
    rewrite !app_nil_r. repeat split; auto; lia.
  - cbn [length] in Hlen.
    cbn [recoveries Engine.run fold_left].
    fold (run (step (step w (TaskRejects 0 (error f) (rejectedAt f) (draw f)))
                    (TimerFires 0 (resumedAt f) (draw f)))
              (recoveries fs now r)).
    set (w2 := step (step w _) _).
    assert (H2 : calls w2 = [AwaitTask (a + 1)]
                 /\ lastRunTime (scheduler w2) = Some (resumedAt f)
                 /\ effects w2
                    = effects w
                      ++ [Log (RunFailed (a + 1) (maxRetries + 1)
                                 (errorMessage (error f)));
                          Log (Retrying (backoffFor (a + 1)));
                          SetTimeout (backoffFor (a + 1));
                          Log RunTriggered; TaskCallback]).
    { unfold w2.
      rewrite (step_rejected_retry cron_validate detectedTimezone config w 0 a)
        by first [rewrite Hc; reflexivity | lia].
      rewrite (step_timer cron_validate detectedTimezone config _ 0 (a + 1))
        by first [cbn [calls]; rewrite Hc; reflexivity | lia].
      cbn [scheduler calls effects lastRunTime]. rewrite Hc.
      cbn [Engine.replace_nth firstn skipn app].
      rewrite <- app_assoc. repeat split; reflexivity. }
    destruct H2 as (Hc2 & Hl2 & He2).
    destruct (IH (a + 1) w2 now r Hc2 ltac:(lia) ltac:(lia))
      as (R1 & R2 & R3 & R4 & R5 & R6 & R7 & R8).
    cbn zeta in *. split; [exact R1|]. split; [exact R2|].
    split; [rewrite R3, Hl2; reflexivity|].
    split; [rewrite R4, He2, invocations_app; unfold invocations at 2;
            cbn [filter is_call length]; lia|].
    split; [rewrite R5, He2, timeouts_app; cbn [timeouts length];
            rewrite <- app_assoc, backoffs_S; reflexivity|].
    split; [rewrite R6, He2, failure_reports_app; cbn [failure_reports reports];
            rewrite <- app_assoc; reflexivity|].
    split; [rewrite R7, He2, completions_app; unfold completions at 2; cbn; lia|].
    rewrite R8, He2, exhaustions_app. unfold exhaustions at 2. cbn. lia.
Qed.


(** X13. With a negative [maxRestarts] the task can never be called: in
    every state the scheduler can reach no task callback has been invoked,
    no call is in progress and the last-run time has never been set. *)
Theorem negative_maxRestarts_disables_runs (w : World) :
  maxRetries < 0 -> reachable w ->
  invocations (effects w) = 0%nat
  /\ calls w = []
  /\ isRunning (scheduler w) = false
  /\ lastRunTime (scheduler w) = None.
Proof.
  intros Hneg. revert w.
  apply (reachable_ind (fun w =>
           invocations (effects w) = 0%nat /\ calls w = []
           /\ isRunning (scheduler w) = false
           /\ lastRunTime (scheduler w) = None)).
  - repeat split.
  - intros w ev _ (I & C & R & L).
    destruct ev as [r| |now r|now r|i now r|i err now r|i now r];
      cbn [Engine.step].
    + unfold Engine.perform.
      destruct (start_outcome r (scheduler w))
        as [(m & E & _) | (sc & e & s' & label & _ & _ & _ & _ & _ & -> & E)];
        rewrite E; cbn [scheduler calls effects isRunning lastRunTime];
        rewrite invocations_app, I; auto.
    + unfold Engine.perform.
      destruct (stop_changes (scheduler w))
        as (s' & e & E & _ & _ & _ & H2 & H3 & _ & He).
      rewrite E. cbn [scheduler calls effects].
      rewrite invocations_app, I, H2, H3, He.
      destruct (cronJob (scheduler w)); auto.
    + unfold Engine.enter, Engine.runScheduledTask. turn. rewrite R.
      destruct (loop_leave cron_validate detectedTimezone config 0 now r
                  (scheduler w) ltac:(lia)) as (s' & e & E & F1 & F2 & F3 & _).
      rewrite E. cbn [scheduler calls effects].
      rewrite invocations_app, I. unfold invocations at 1. rewrite F3.
      repeat split; auto; congruence.
    + unfold Engine.enter, Engine.triggerNow, Engine.runScheduledTask. turn.
      rewrite R.
      destruct (loop_leave cron_validate detectedTimezone config 0 now r
                  (scheduler w) ltac:(lia)) as (s' & e & E & F1 & F2 & F3 & _).
      rewrite E. cbn [scheduler calls effects].
      rewrite invocations_app, I. unfold invocations at 1. cbn [filter is_call].
      rewrite F3. repeat split; auto; congruence.
    + rewrite C. destruct i; cbn; auto.
    + rewrite C. destruct i; cbn; auto.
    + rewrite C. destruct i; cbn; auto.
Qed.

(** ** The manual trigger *)

Lemma step_manual_idle (w : World) (now : Z) (r : Q) :
  isRunning (scheduler w) = false -> 0 <= maxRetries ->
  step w (Manual now r)
  = {| scheduler :=
         {| cronJob := cronJob (scheduler w); isRunning := true;
            lastRunTime := Some now;
            lastCronExpression := lastCronExpression (scheduler w) |};
       calls := calls w ++ [AwaitTask 0];
       effects := effects w
                  ++ [Log ManualTrigger; Log RunTriggered; TaskCallback] |}.
Proof.
  intros Hr Hm. cbn [Engine.step]. unfold Engine.enter, Engine.triggerNow,
    Engine.runScheduledTask. turn. rewrite Hr.
  rewrite loop_attempt by exact Hm. reflexivity.
Qed.



End Clockwork.

(* ===================================================================== *)
(** * The status report *)
(* ===================================================================== *)

(** [getNextRunTime] reads a daily expression back as its hour and minute. *)
Lemma read_expression_daily (h m : Z) :
  0 <= h <= 23 -> 0 <= m <= 59 ->
  Status.read_expression (daily_expression m h) = Status.At h m.
Proof.
  intros Hh Hm.
  set (ok := fun h m =>
               match Status.read_expression (daily_expression m h) with
               | Status.At a b => (a =? h) && (b =? m)
               | _ => false
               end).
  assert (All : forallb (fun h => forallb (ok h) (below 60)) (below 24) = true)
    by (vm_compute; reflexivity).
  rewrite forallb_forall in All.
  specialize (All h (below_In 24 h ltac:(lia))).
  rewrite forallb_forall in All.
  specialize (All m (below_In 60 m ltac:(lia))).
  unfold ok in All.
  destruct (Status.read_expression (daily_expression m h)) as [| | |a b];
    try discriminate All.
  apply andb_true_iff in All. destruct All as [A B].
  apply Z.eqb_eq in A, B. subst. reflexivity.
Qed.

Section Reports.

Variable cron_validate : jsstring -> bool.
Variable detectedTimezone : jsstring.
Variable config : Config.
Variable nextOccurrence : Z -> Z -> Z -> jsstring -> option jsstring.
Variable toLocaleString : Z -> jsstring.

Abbreviation reachable' :=
  (Engine.reachable cron_validate detectedTimezone config).
Abbreviation getNextRunTime :=
  (Status.getNextRunTime detectedTimezone config nextOccurrence).
Abbreviation getStatus :=
  (Status.getStatus detectedTimezone config nextOccurrence toLocaleString).

(** X14. In every reachable state of a scheduler configured with a time,
    the held job is a daily expression of an hour in 0..23 and a minute in
    0..59, and [getNextRunTime] is the host's next occurrence of exactly that
    hour and minute in the detected time zone (or "unable to calculate"
    when the host throws), whatever the random source. *)
Theorem nextRun_follows_the_held_job (w : Engine.World) (sc : ScheduleConfig)
    (t : jsstring) (j : ScheduledTask) :
  reachable' w ->
  scheduling config = Some sc -> time sc = Some t -> t <> [] ->
  cronJob (scheduler w) = Some j ->
  exists hh mm,
    0 <= hh <= 23 /\ 0 <= mm <= 59
    /\ expression j = daily_expression mm hh
    /\ forall now random,
         getNextRunTime (scheduler w) now random
         = match nextOccurrence now hh mm detectedTimezone with
           | Some text => text
           | None => lit "unable to calculate"
           end.
Proof.
  intros Hw Hsc Ht Hne Hj.
  destruct (armed_reachable cron_validate detectedTimezone config w Hw j Hj)
    as (Hl & _ & _ & sc' & r & Hsc' & _ & Hb).
  rewrite Hsc in Hsc'. injection Hsc' as <-.
  rewrite (buildSchedule_time sc t r Ht Hne) in Hb.
  destruct (parseTime t) as [[h m]|] eqn:Hp; [|discriminate Hb].
  pose proof (parseClock_shape _ _ _ Hp) as (Hh & Hm & _).
  pose proof (applyJitter_wrapped h m (jitter sc) r Hh Hm) as (_ & _ & Rh & Rm).
  cbv beta iota zeta in Hb, Rh, Rm. cbn [cronExpr] in Hb. injection Hb as Hb.
  exists (hour (applyJitter h m (jitter sc) r)),
         (minute (applyJitter h m (jitter sc) r)).
  split; [exact Rh|]. split; [exact Rm|]. split; [symmetry; exact Hb|].
  intros now random. unfold Status.getNextRunTime, Status.cronSchedule.
  rewrite Hj, Hl, <- Hb, read_expression_daily by assumption. reflexivity.
Qed.

Lemma lastRun_invariant (w : Engine.World) :
  reachable' w ->
  (lastRunTime (scheduler w) = None <-> invocations (effects w) = 0%nat).
Proof.
  revert w.
  apply (reachable_ind cron_validate detectedTimezone config
           (fun w => lastRunTime (scheduler w) = None
                     <-> invocations (effects w) = 0%nat)).
  - split; reflexivity.
  - intros w ev _ IH.
    destruct (step_changes cron_validate detectedTimezone config w ev)
      as (e & E & _ & K).
    rewrite E, invocations_app.
    destruct K as [[K1 K2] | (now & K1 & K2)].
    + rewrite K1. unfold invocations at 2. rewrite K2. cbn [length].
      rewrite Nat.add_0_r. exact IH.
    + rewrite K1. unfold invocations at 2. rewrite K2. cbn [length].
      split; [discriminate | lia].
Qed.

(** X15. In every reachable state [getStatus] reports [isRunning] exactly
    when a call of [runScheduledTask] is in progress and a null [lastRun]
    exactly as long as the task has never been called, and the whole report
    does not depend on the random source. *)
Theorem status_reflects_history (w : Engine.World) (now : Z) (random : Q) :
  reachable' w ->
  let st := getStatus (scheduler w) now random in
  (Status.status_isRunning st = true <-> calls w <> [])
  /\ (Status.lastRun st = None <-> invocations (effects w) = 0%nat)
  /\ (Status.active st = false -> Status.nextRun st = lit "unknown")
  /\ forall random', getStatus (scheduler w) now random' = st.
Proof.
  intros Hw st. unfold st, Status.getStatus.
  cbn [Status.status_isRunning Status.lastRun Status.active Status.nextRun].
  refine (conj _ (conj _ (conj _ _))).
  - destruct (settledWorld_reachable cron_validate detectedTimezone config w Hw)
      as [[Hc Hr]|(k & Hc & Hr & _)]; rewrite Hc, Hr.
    + split; [discriminate | congruence].
    + split; [discriminate | reflexivity].
  - rewrite <- (lastRun_invariant w Hw).
    destruct (lastRunTime (scheduler w)); cbn; split; congruence.
  - unfold Status.getNextRunTime.
    destruct (cronJob (scheduler w)); [discriminate | reflexivity].
  - intros random'. f_equal. unfold Status.getNextRunTime, Status.cronSchedule.
    destruct (cronJob (scheduler w)) as [j|] eqn:Hj; [|reflexivity].
    destruct (armed_reachable cron_validate detectedTimezone config w Hw j Hj)
      as (Hl & _).
    rewrite Hl. reflexivity.
Qed.

End Reports.

(* ===================================================================== *)
(** * More on [Retry.run] *)
(* ===================================================================== *)

Lemma retry_calls_app (a b : list Retry.effect) :
  Retry.calls (a ++ b) = (Retry.calls a + Retry.calls b)%nat.
Proof. unfold Retry.calls. rewrite filter_app, length_app. reflexivity. Qed.

Lemma retry_sleeps_app (a b : list Retry.effect) :
  Retry.sleeps (a ++ b) = Retry.sleeps a ++ Retry.sleeps b.
Proof. induction a as [|[|ms] a IH]; cbn; rewrite ?IH; reflexivity. Qed.

Section RetryMore.

Context {T : Type}.
Variable policy : Retry.NumericPolicy.
Variable fn : nat -> Retry.settled T.
Variable isRetryable : option (thrown -> bool).
Variable random : nat -> Q.

(** X16. When the first [k] calls of [fn] fail with errors that may be
    retried and the next call fulfils with [v], with [k] below
    [maxAttempts], [run] fulfils with [v] after exactly [k + 1] calls and
    [k] sleeps, the last thing it does being the call that fulfils. *)
Theorem run_fulfils_after_retries (errs : nat -> thrown) (k : nat) (v : T) :
  (forall i, (i < k)%nat ->
     fn i = Retry.Rejected (errs i)
     /\ Retry.retryable isRetryable (errs i) = true) ->
  fn k = Retry.Fulfilled v ->
  Z.of_nat k < Retry.maxAttempts policy ->
  let tr := Retry.retried policy random 0 (Retry.baseDelay policy) k
            ++ [Retry.Call] in
  Retry.run policy fn isRetryable random
  = Some {| Retry.outcome := Retry.Fulfilled v; Retry.attempts := k;
            Retry.trace := tr |}
  /\ Retry.calls tr = S k
  /\ length (Retry.sleeps tr) = k.
Proof.
  intros Hfn Hk Hlt tr. refine (conj _ (conj _ _)).
  - unfold Retry.run.
    replace (Z.to_nat (Retry.maxAttempts policy))
      with (k + S (Z.to_nat (Retry.maxAttempts policy) - k - 1))%nat by lia.
    rewrite (loop_retried policy fn isRetryable random errs k).
    + cbn [Nat.add Retry.loop].
      destruct (Z.ltb_spec (Z.of_nat k) (Retry.maxAttempts policy)); [|lia].
      rewrite Hk. reflexivity.
    + intros i Hi. apply Hfn. lia.
    + cbn [Nat.add]. exact Hlt.
  - apply calls_retried.
  - apply length_sleeps_retried.
Qed.

(** X17. With [maxAttempts] zero or negative [run] never calls [fn] and
    never sleeps: it rejects at once with [Error("undefined")]. *)
Theorem run_without_attempts :
  Retry.maxAttempts policy <= 0 ->
  Retry.run policy fn isRetryable random
  = Some {| Retry.outcome := Retry.Rejected (ErrorObj (lit "undefined"));
            Retry.attempts := 0; Retry.trace := [] |}.
Proof.
  intros H. unfold Retry.run.
  destruct (Z.to_nat (Retry.maxAttempts policy)); cbn [Retry.loop];
    destruct (Z.ltb_spec (Z.of_nat 0) (Retry.maxAttempts policy));
    try lia; reflexivity.
Qed.

Lemma loop_counts (fuel : nat) :
  forall (attempt : nat) (delay : Q) (lastErr : thrown)
         (tr : list Retry.effect) (r : Retry.Run T),
    Retry.calls tr = attempt -> length (Retry.sleeps tr) = attempt ->
    attempt = 0%nat \/ Z.of_nat attempt < Retry.maxAttempts policy ->
    Retry.loop policy fn isRetryable random fuel attempt delay lastErr tr
    = Some r ->
    length (Retry.sleeps (Retry.trace r)) = (Retry.calls (Retry.trace r) - 1)%nat
    /\ Z.of_nat (Retry.calls (Retry.trace r))
       <= Z.max 0 (Retry.maxAttempts policy)
    /\ match Retry.outcome r with
       | Retry.Fulfilled _ =>
           Retry.calls (Retry.trace r) = S (Retry.attempts r)
       | Retry.Rejected _ => Retry.calls (Retry.trace r) = Retry.attempts r
       end.
Proof.
  induction fuel as [|fuel IH]; intros attempt delay lastErr tr r Hc Hs Ha E;
    cbn [Retry.loop] in E;
    destruct (Z.ltb_spec (Z.of_nat attempt) (Retry.maxAttempts policy)) as [Hlt|Hge].
  - discriminate E.
  - injection E as <-. cbn [Retry.rethrow Retry.trace Retry.outcome Retry.attempts].
    rewrite Hc, Hs. destruct Ha as [->|Ha]; [cbn; lia | lia].
  - destruct (fn attempt) as [v|e].
    + injection E as <-. cbn [Retry.trace Retry.outcome Retry.attempts].
      rewrite retry_calls_app, retry_sleeps_app, Hc, length_app, Hs.
      cbn. lia.
    + destruct (negb _ || _) eqn:Hb.
      * injection E as <-.
        cbn [Retry.rethrow Retry.trace Retry.outcome Retry.attempts].
        rewrite retry_calls_app, retry_sleeps_app, Hc, length_app, Hs.
        cbn. lia.
      * apply orb_false_iff in Hb. destruct Hb as [_ Hb].
        apply (IH _ _ _ _ r) in E; [exact E | | |].
        -- rewrite retry_calls_app, Hc. cbn. lia.
        -- rewrite retry_sleeps_app, length_app, Hs. cbn. lia.
        -- right. destruct (Z.geb_spec (Z.of_nat (S attempt))
                              (Retry.maxAttempts policy)); [discriminate|lia].
  - injection E as <-. cbn [Retry.rethrow Retry.trace Retry.outcome Retry.attempts].
    rewrite Hc, Hs. destruct Ha as [->|Ha]; [cbn; lia | lia].
Qed.

Lemma paired_then_call (tr : list Retry.effect) :
  Trace.paired tr = true -> Trace.spaced (tr ++ [Retry.Call]) = true.
Proof.
  revert tr. fix IH 1. intros [|[|d] [|[|d'] tr']]; cbn; try discriminate; auto.
Qed.

Lemma paired_then_pair (tr : list Retry.effect) (ms : Q) :
  Trace.paired tr = true ->
  Trace.paired (tr ++ [Retry.Call; Retry.Sleep ms]) = true.
Proof.
  revert tr. fix IH 1. intros [|[|d] [|[|d'] tr']]; cbn; try discriminate; auto.
Qed.

Lemma loop_spaced (fuel : nat) :
  forall (attempt : nat) (delay : Q) (lastErr : thrown)
         (tr : list Retry.effect) (r : Retry.Run T),
    Trace.paired tr = true ->
    Z.of_nat attempt < Retry.maxAttempts policy ->
    Retry.loop policy fn isRetryable random fuel attempt delay lastErr tr
    = Some r ->
    Trace.spaced (Retry.trace r) = true.
Proof.
  induction fuel as [|fuel IH]; intros attempt delay lastErr tr r Hp Ha E;
    cbn [Retry.loop] in E;
    destruct (Z.ltb_spec (Z.of_nat attempt) (Retry.maxAttempts policy)) as [Hlt|Hge];
    try lia.
  - discriminate E.
  - destruct (fn attempt) as [v|e].
    + injection E as <-. cbn [Retry.trace]. apply paired_then_call, Hp.
    + destruct (negb _ || _) eqn:Hb.
      * injection E as <-. cbn [Retry.rethrow Retry.trace].
        apply paired_then_call, Hp.
      * apply orb_false_iff in Hb. destruct Hb as [_ Hb].
        apply (IH _ _ _ _ r) in E; [exact E | apply paired_then_pair, Hp|].
        destruct (Z.geb_spec (Z.of_nat (S attempt)) (Retry.maxAttempts policy));
          [discriminate|lia].
Qed.

(** X18. Whatever [fn], [isRetryable] and the random source do, [run]
    returns (for a [maxAttempts] that is a whole number, as the embedding
    has it).  With no attempt allowed it does nothing; otherwise what it
    does is a call, then a sleep and a call any number of times: every
    sleep is between two calls and the last effect is a call.  It never
    calls [fn] more than [maxAttempts] times, and its counter ends at the
    number of failed calls. *)
Theorem run_stays_within_budget :
  exists r,
    Retry.run policy fn isRetryable random = Some r
    /\ (Retry.maxAttempts policy <= 0 -> Retry.trace r = [])
    /\ (0 < Retry.maxAttempts policy -> Trace.spaced (Retry.trace r) = true)
    /\ Z.of_nat (Retry.calls (Retry.trace r))
       <= Z.max 0 (Retry.maxAttempts policy)
    /\ length (Retry.sleeps (Retry.trace r))
       = (Retry.calls (Retry.trace r) - 1)%nat
    /\ match Retry.outcome r with
       | Retry.Fulfilled _ =>
           Retry.calls (Retry.trace r) = S (Retry.attempts r)
       | Retry.Rejected _ => Retry.calls (Retry.trace r) = Retry.attempts r
       end.
Proof.
  destruct (run_total policy fn isRetryable random) as [r E].
  exists r. split; [exact E|]. unfold Retry.run in E.
  split; [|split].
  - intros Hle. revert E.
    destruct (Z.to_nat (Retry.maxAttempts policy)); cbn [Retry.loop];
      destruct (Z.ltb_spec (Z.of_nat 0) (Retry.maxAttempts policy));
      try lia; intros E; injection E as <-; reflexivity.
  - intros Hpos. apply loop_spaced in E; [exact E | reflexivity | cbn; lia].
  - apply loop_counts in E; [|reflexivity|reflexivity|left; reflexivity].
    tauto.
Qed.

End RetryMore.

(** ** The delays in closed form *)

Lemma whole_floor (x : Q) : Retry.whole x -> (inject_Z (Qfloor x) == x)%Q.
Proof.
  intros [z Hz]. rewrite Hz at 2. rewrite Hz, Qfloor_Z. reflexivity.
Qed.

Lemma whole_mult (x y : Q) : Retry.whole x -> Retry.whole y -> Retry.whole (x * y).
Proof.
  intros [a Ha] [b Hb]. exists (a * b). rewrite Ha, Hb, inject_Z_mult.
  reflexivity.
Qed.

Lemma whole_min (x y : Q) : Retry.whole x -> Retry.whole y -> Retry.whole (Qmin x y).
Proof.
  intros [a Ha] [b Hb].
  destruct (Q.min_spec x y) as [[_ E]|[_ E]]; [exists a | exists b];
    rewrite E; assumption.
Qed.

Lemma min_scaled (M x m : Q) :
  (0 <= M)%Q -> (0 <= x)%Q -> (1 <= m)%Q ->
  (Qmin M (Qmin M x * m) == Qmin M (x * m))%Q.
Proof.
  intros HM Hx Hm.
  destruct (Q.min_spec M x) as [[Hlt E]|[Hle E]]; rewrite E; [|reflexivity].
  rewrite (Q.min_l M (M * m)) by nra.
  rewrite (Q.min_l M (x * m)) by nra. reflexivity.
Qed.

Section ClosedForm.

Variable policy : Retry.NumericPolicy.
Hypothesis policy_valid : Retry.valid policy.
Hypothesis whole_base : Retry.whole (Retry.baseDelay policy).
Hypothesis whole_cap : Retry.whole (Retry.maxDelay policy).
Hypothesis whole_multiplier : Retry.whole (Retry.multiplier policy).
Hypothesis base_below_cap : (Retry.baseDelay policy <= Retry.maxDelay policy)%Q.

Abbreviation B := (Retry.baseDelay policy).
Abbreviation cap := (Retry.maxDelay policy).
Abbreviation mult := (Retry.multiplier policy).

Let eff : (Retry.effectiveMultiplier policy == mult)%Q.
Proof.
  unfold Retry.effectiveMultiplier.
  destruct (Qeq_bool mult 0) eqn:E; [|reflexivity].
  apply Qeq_bool_eq in E. destruct policy_valid as (_ & _ & _ & Hm & _).
  rewrite E in Hm. exfalso. apply (Qle_not_lt _ _ Hm). reflexivity.
Qed.

(** The delay before jitter is the nominal exponential one, clamped. *)
Lemma delayAt_closed (n : nat) :
  (Retry.delayAt policy (S n) == Qmin cap (B * Qpower mult (Z.of_nat n)))%Q
  /\ Retry.whole (Retry.delayAt policy (S n))
  /\ (0 <= B * Qpower mult (Z.of_nat n))%Q.
Proof.
  destruct policy_valid as (_ & HB & HM & Hm & _).
  assert (Hm0 : (0 <= mult)%Q) by lra.
  induction n as [|n (IH & IW & IP)].
  - unfold Retry.delayAt. cbn [pred Nat.iter nat_rect Z.of_nat Qpower].
    split; [|split; [exact whole_base | lra]].
    setoid_replace (B * 1)%Q with B by ring.
    symmetry. apply Q.min_r. exact base_below_cap.
  - assert (Ep : (Qpower mult (Z.of_nat (S n))
                  == Qpower mult (Z.of_nat n) * mult)%Q).
    { rewrite Nat2Z.inj_succ. unfold Z.succ.
      rewrite Qpower_plus' by lia. cbn [Qpower Qpower_positive pow_pos].
      reflexivity. }
    assert (Hnext : (Retry.delayAt policy (S (S n))
                     == Qmin cap (Retry.delayAt policy (S n) * mult))%Q).
    { change (Retry.delayAt policy (S (S n)))
        with (Retry.nextDelay policy (Retry.delayAt policy (S n))).
      unfold Retry.nextDelay. rewrite eff.
      rewrite whole_floor by (apply whole_mult; assumption). reflexivity. }
    split; [|split].
    + rewrite Hnext, IH, Ep, min_scaled by assumption.
      rewrite Qmult_assoc. reflexivity.
    + destruct IW as [a Ha]. destruct whole_multiplier as [b Hb].
      destruct whole_cap as [c Hc].
      apply (whole_min cap (Retry.delayAt policy (S n) * mult)) in whole_cap as W;
        [|apply whole_mult; [exists a; exact Ha | exists b; exact Hb]].
      destruct W as [z Hz]. exists z. rewrite Hnext. exact Hz.
    + rewrite Ep, Qmult_assoc. apply Qmult_le_0_compat; assumption.
Qed.

End ClosedForm.

(** ** The multiplier 0 and the constructor *)

Lemma loop_multiplier_0 (T : Type) (p : Retry.NumericPolicy)
    (fn : nat -> Retry.settled T) (isRetryable : option (thrown -> bool))
    (random : nat -> Q) (fuel : nat) :
  forall attempt delay lastErr tr,
    Retry.loop (Policy.with_multiplier p 0) fn isRetryable random fuel attempt
      delay lastErr tr
    = Retry.loop (Policy.with_multiplier p 2) fn isRetryable random fuel attempt
        delay lastErr tr.
Proof.
  induction fuel as [|fuel IH]; intros attempt delay lastErr tr;
    cbn [Retry.loop]; [reflexivity|].
  change (Retry.maxAttempts (Policy.with_multiplier p 0))
    with (Retry.maxAttempts (Policy.with_multiplier p 2)).
  destruct (_ <? _); [|reflexivity].
  destruct (fn attempt); [reflexivity|].
  destruct (negb _ || _); [reflexivity|]. apply IH.
Qed.

(** X21. A multiplier of 0 is replaced by 2: a policy with multiplier 0
    makes [run] do exactly what the same policy with multiplier 2 does. *)
Theorem multiplier_0_acts_as_2 (T : Type) (p : Retry.NumericPolicy)
    (fn : nat -> Retry.settled T) (isRetryable : option (thrown -> bool))
    (random : nat -> Q) :
  Retry.run (Policy.with_multiplier p 0) fn isRetryable random
  = Retry.run (Policy.with_multiplier p 2) fn isRetryable random.
Proof. unfold Retry.run. apply loop_multiplier_0. Qed.

(** X22. The constructor falls back to the default base delay of 1000 ms
    for a duration text that [stringToMs] rejects, also when the text is
    the cap: with such a [maxDelay], [run] never sleeps more than 1000 ms;
    with no configured [maxDelay] it never sleeps more than 30000 ms. *)
Theorem constructor_caps_sleeps (stringToMs : jsstring -> option Q)
    (cfg : Policy.ConfigRetryPolicy) (T : Type) (fn : nat -> Retry.settled T)
    (isRetryable : option (thrown -> bool)) (random : nat -> Q)
    (r : Retry.Run T) :
  Retry.run (Policy.new stringToMs (Some cfg)) fn isRetryable random = Some r ->
  (forall s, Policy.maxDelay cfg = Some (Policy.Text s) -> stringToMs s = None ->
     Forall (fun ms => (ms <= 1000)%Q) (Retry.sleeps (Retry.trace r)))
  /\ (Policy.maxDelay cfg = None ->
      Forall (fun ms => (ms <= 30000)%Q) (Retry.sleeps (Retry.trace r))).
Proof.
  intros E. unfold Retry.run in E.
  assert (G : Forall (fun ms => (ms <= Retry.maxDelay (Policy.new stringToMs (Some cfg)))%Q)
                (Retry.sleeps (Retry.trace r))).
  { refine (loop_sleeps _ fn isRetryable random _ _ _ _ _ _ [] r _ E);
      [|apply Forall_nil].
    intros delay x. unfold Retry.sleepFor. apply Q.le_min_l. }
  split.
  - intros s Hs Hn. cbn [Policy.new Retry.maxDelay] in G.
    rewrite Hs in G. cbn [Policy.parse] in G. rewrite Hn in G. exact G.
  - intros Hs. cbn [Policy.new Retry.maxDelay] in G.
    rewrite Hs in G. exact G.
Qed.

Lemma constructor_caps_sleeps_example :
  let cfg := {| Policy.maxAttempts := Some 2; Policy.baseDelay := None;
                Policy.maxDelay := Some (Policy.Text (lit "soon"));
                Policy.multiplier := None; Policy.jitter := Some 0%Q |} in
  let r := {| Retry.outcome := Retry.Rejected (T := unit) (ErrorObj (lit "x"));
              Retry.attempts := 2;
              Retry.trace := [Retry.Call; Retry.Sleep 1000; Retry.Call] |} in
  (forall s, Policy.maxDelay cfg = Some (Policy.Text s) ->
             (fun _ : jsstring => @None Q) s = None ->
     Forall (fun ms => (ms <= 1000)%Q) (Retry.sleeps (Retry.trace r)))
  /\ (Policy.maxDelay cfg = None ->
      Forall (fun ms => (ms <= 30000)%Q) (Retry.sleeps (Retry.trace r))).
Proof.
  intros cfg r.
  apply (constructor_caps_sleeps (fun _ => None) cfg unit
           (fun _ => Retry.Rejected (ErrorObj (lit "x"))) None (fun _ => 0%Q) r).
  reflexivity.
Defined.

(* ===================================================================== *)
(** * More properties on concrete runs *)
(* ===================================================================== *)

(** After [start()] with the time 09:00 the object holds the job of
    "0 9 * * *" and remembers that expression. *)
Lemma held_job_is_the_remembered_one_example :
  let cfg := {| scheduling := Some {| enabled := Some true;
                                      time := Some (lit "09:00");
                                      cron := None; jitter := None |};
                crashRecovery := None |} in
  let w := Engine.run (fun _ => true) (lit "UTC") cfg Engine.boot [DoStart 0] in
  let j := {| expression := lit "0 9 * * *"; timezone := lit "UTC" |} in
  lastCronExpression (scheduler w) = Some (expression j)
  /\ timezone j = lit "UTC"
  /\ (fun _ : jsstring => true) (expression j) = true
  /\ exists sc random,
       scheduling cfg = Some sc /\ enabled sc = Some true
       /\ cronExpr (buildSchedule sc random) = Some (expression j).
Proof.
  intros cfg w j.
  apply (held_job_is_the_remembered_one (fun _ => true) (lit "UTC") cfg w j);
    [exists [DoStart 0]; reflexivity | reflexivity].
Defined.

(** One [start()] on a fresh object, then a firing: one live job. *)
Lemma one_live_job_example :
  let cfg := {| scheduling := Some {| enabled := Some true;
                                      time := Some (lit "09:00");
                                      cron := None; jitter := None |};
                crashRecovery := None |} in
  let w := Engine.step (fun _ => true) (lit "UTC") cfg
             (Engine.step (fun _ => true) (lit "UTC") cfg Engine.boot (DoStart 0))
             (Fire 1000 0) in
  live_jobs (effects w) = held (scheduler w)
  /\ (length (live_jobs (effects w)) <= 1)%nat.
Proof.
  intros cfg w.
  assert (Hw : orderly (fun _ => true) (lit "UTC") cfg w).
  { apply orderly_step; [|discriminate].
    apply orderly_step; [apply orderly_boot | reflexivity]. }
  destruct (one_live_job (fun _ => true) (lit "UTC") cfg w Hw) as (H1 & H2 & _).
  split; assumption.
Defined.

(** A manual trigger on an object that was never started: when its task
    fulfils, the object holds the job of 09:00. *)
Lemma completed_run_arms_the_schedule_example :
  let sc := {| enabled := Some true; time := Some (lit "09:00");
               cron := None; jitter := None |} in
  let cfg := {| scheduling := Some sc; crashRecovery := None |} in
  let w := Engine.run (fun _ => true) (lit "UTC") cfg Engine.boot
             [Manual 1000 0] in
  cronJob (scheduler w) = None
  /\ scheduler (Engine.step (fun _ => true) (lit "UTC") cfg w
                  (TaskFulfils 0 2000 0))
     = {| cronJob := Some {| expression := lit "0 9 * * *";
                             timezone := lit "UTC" |};
          isRunning := false; lastRunTime := Some 1000;
          lastCronExpression := Some (lit "0 9 * * *") |}.
Proof.
  intros sc cfg w. split; [reflexivity|].
  exact (proj1 (completed_run_arms_the_schedule (fun _ => true) (lit "UTC") cfg
                  w 0 0 sc (lit "09:00") 9 0 2000 0
                  eq_refl eq_refl eq_refl eq_refl ltac:(discriminate) eq_refl
                  eq_refl)).
Defined.

(** Without a scheduling section a firing leaves the clock alone. *)
Lemma runs_leave_untimed_schedule_alone_example :
  let cfg := {| scheduling := None; crashRecovery := None |} in
  let w := Engine.boot in
  cronJob (scheduler (Engine.step (fun _ => true) (lit "UTC") cfg w (Fire 1000 0)))
  = cronJob (scheduler w)
  /\ lastCronExpression
       (scheduler (Engine.step (fun _ => true) (lit "UTC") cfg w (Fire 1000 0)))
     = lastCronExpression (scheduler w)
  /\ filter is_cron (Engine.added (fun _ => true) (lit "UTC") cfg w [Fire 1000 0])
     = [].
Proof.
  intros cfg w.
  apply (runs_leave_untimed_schedule_alone (fun _ => true) (lit "UTC") cfg w
           (Fire 1000 0)); [intros sc H; discriminate H | reflexivity].
Defined.


(** [maxRestarts = -1]: a firing calls nothing. *)
Lemma negative_maxRestarts_disables_runs_example :
  let cfg := {| scheduling := None;
                crashRecovery := Some {| maxRestarts := Some (-1);
                                         backoffBaseMs := None |} |} in
  let w := Engine.run (fun _ => true) (lit "UTC") cfg Engine.boot
             [Fire 1000 0; Manual 2000 0] in
  invocations (effects w) = 0%nat
  /\ calls w = []
  /\ isRunning (scheduler w) = false
  /\ lastRunTime (scheduler w) = None.
Proof.
  intros cfg w.
  apply (negative_maxRestarts_disables_runs (fun _ => true) (lit "UTC") cfg w);
    [cbn; lia | exists [Fire 1000 0; Manual 2000 0]; reflexivity].
Defined.

(** After [start()] with the time 21:30, the next run is the host's next
    occurrence of 21:30. *)
Lemma nextRun_follows_the_held_job_example :
  let sc := {| enabled := Some true; time := Some (lit "21:30");
               cron := None; jitter := None |} in
  let cfg := {| scheduling := Some sc; crashRecovery := None |} in
  let host := fun (now h m : Z) (tz : jsstring) =>
                Some (hhmm h m ++ lit " " ++ tz) in
  let w := Engine.run (fun _ => true) (lit "UTC") cfg Engine.boot [DoStart 0] in
  exists hh mm,
    0 <= hh <= 23 /\ 0 <= mm <= 59
    /\ lit "30 21 * * *" = daily_expression mm hh
    /\ forall now random,
         Status.getNextRunTime (lit "UTC") cfg host (scheduler w) now random
         = match host now hh mm (lit "UTC") with
           | Some text => text
           | None => lit "unable to calculate"
           end.
Proof.
  intros sc cfg host w.
  apply (nextRun_follows_the_held_job (fun _ => true) (lit "UTC") cfg host w sc
           (lit "21:30")
           {| expression := lit "30 21 * * *"; timezone := lit "UTC" |});
    [exists [DoStart 0]; reflexivity | reflexivity | reflexivity
    | discriminate | reflexivity].
Defined.

(** The status right after [start()]: not running, never run. *)
Lemma status_reflects_history_example :
  let sc := {| enabled := Some true; time := Some (lit "21:30");
               cron := None; jitter := None |} in
  let cfg := {| scheduling := Some sc; crashRecovery := None |} in
  let host := fun (now h m : Z) (tz : jsstring) => @None jsstring in
  let w := Engine.run (fun _ => true) (lit "UTC") cfg Engine.boot [DoStart 0] in
  let st := Status.getStatus (lit "UTC") cfg host (fun _ => lit "then")
              (scheduler w) 1000 0 in
  Status.active st = true
  /\ (Status.status_isRunning st = true <-> calls w <> [])
  /\ (Status.lastRun st = None <-> invocations (effects w) = 0%nat).
Proof.
  intros sc cfg host w st. split; [reflexivity|].
  assert (Hw : Engine.reachable (fun _ => true) (lit "UTC") cfg w)
    by (exists [DoStart 0]; reflexivity).
  destruct (status_reflects_history (fun _ => true) (lit "UTC") cfg host
              (fun _ => lit "then") w 1000 0 Hw) as (H1 & H2 & _).
  split; assumption.
Defined.

(** One failure that may be retried, then success on the second call. *)
Lemma run_fulfils_after_retries_example :
  let p := {| Retry.maxAttempts := 3; Retry.baseDelay := 1000;
              Retry.maxDelay := 30000; Retry.multiplier := 2;
              Retry.jitter := 0 |} in
  let fn := fun n : nat =>
              match n with
              | O => Retry.Rejected (ErrorObj (lit "busy"))
              | _ => Retry.Fulfilled 7
              end in
  Retry.run p fn None (fun _ => 1 # 2)
  = Some {| Retry.outcome := Retry.Fulfilled 7; Retry.attempts := 1;
            Retry.trace :=
              Retry.retried p (fun _ => 1 # 2) 0 1000 1 ++ [Retry.Call] |}.
Proof.
  intros p fn.
  refine (proj1 (run_fulfils_after_retries p fn None (fun _ => 1 # 2)
                   (fun _ => ErrorObj (lit "busy")) 1 7 _ eq_refl eq_refl)).
  intros i Hi. destruct i; [split; reflexivity | lia].
Defined.

(** [maxAttempts = 0]. *)
Lemma run_without_attempts_example :
  let p := {| Retry.maxAttempts := 0; Retry.baseDelay := 1000;
              Retry.maxDelay := 30000; Retry.multiplier := 2;
              Retry.jitter := 0 |} in
  Retry.run p (fun _ => Retry.Fulfilled 7) None (fun _ => 0%Q)
  = Some {| Retry.outcome := Retry.Rejected (ErrorObj (lit "undefined"));
            Retry.attempts := 0; Retry.trace := [] |}.
Proof.
  intros p.
  apply (run_without_attempts p (fun _ => Retry.Fulfilled 7) None (fun _ => 0%Q)).
  cbn. lia.
Defined.




(* ===================================================================== *)
(** * Schedule resolution on doubles *)
(* ===================================================================== *)

Section Doubles.

Import Binary64 Rounded.
Local Open Scope Q_scope.

(** ** Powers of two *)

Lemma pow2_pos (e : Z) : 0 < pow2 e.
Proof. apply Qpower_0_lt. reflexivity. Qed.

Lemma pow2_nonneg_int (e : Z) : (0 <= e)%Z -> pow2 e == inject_Z (2 ^ e).
Proof. intros H. unfold pow2. rewrite Zpower_Qpower by exact H. reflexivity. Qed.

Lemma pow2_opp (e : Z) : pow2 (- e) == / pow2 e.
Proof. unfold pow2. apply Qpower_opp. Qed.

Lemma pow2_plus (a b : Z) : pow2 (a + b) == pow2 a * pow2 b.
Proof. unfold pow2. apply Qpower_plus. discriminate. Qed.

Lemma pow2_cancel (e : Z) : pow2 (- e) * pow2 e == 1.
Proof.
  rewrite <- pow2_plus. replace (- e + e)%Z with 0%Z by lia. reflexivity.
Qed.

Lemma pow2_le (a b : Z) : (a <= b)%Z -> pow2 a <= pow2 b.
Proof.
  intros H. replace b with (a + (b - a))%Z by lia. rewrite pow2_plus.
  setoid_replace (pow2 a) with (pow2 a * 1) at 1 by ring.
  apply Qmult_le_l; [apply pow2_pos|].
  rewrite pow2_nonneg_int by lia.
  change 1 with (inject_Z 1). rewrite <- Zle_Qle.
  pose proof (Z.pow_pos_nonneg 2 (b - a)). lia.
Qed.

(** ** The nearest integer *)

Lemma nearest_even_ext (x y : Q) : x == y -> nearest_even x = nearest_even y.
Proof.
  intros E. unfold nearest_even.
  assert (F : Qfloor x = Qfloor y) by (rewrite E; reflexivity).
  rewrite F.
  assert (C : (x - inject_Z (Qfloor y) ?= 1 # 2)
              = (y - inject_Z (Qfloor y) ?= 1 # 2))
    by (apply Qcompare_comp; [rewrite E|]; reflexivity).
  cbv zeta. rewrite C. reflexivity.
Qed.

Lemma nearest_even_int (z : Z) : nearest_even (inject_Z z) = z.
Proof.
  unfold nearest_even. rewrite Qfloor_Z.
  replace (inject_Z z - inject_Z z ?= 1 # 2) with Lt; [reflexivity|].
  symmetry. rewrite <- Qlt_alt. ring_simplify. reflexivity.
Qed.

Lemma nearest_even_close (x : Q) :
  x - (1 # 2) <= inject_Z (nearest_even x) /\ inject_Z (nearest_even x) <= x + (1 # 2).
Proof.
  unfold nearest_even.
  pose proof (Qfloor_le x) as L. pose proof (Qlt_floor x) as U.
  rewrite inject_Z_plus in U. change (inject_Z 1) with 1 in U.
  destruct (x - inject_Z (Qfloor x) ?= 1 # 2) eqn:C.
  - apply Qeq_alt in C.
    destruct (Z.even (Qfloor x)); rewrite ?inject_Z_plus; change (inject_Z 1) with 1; split; lra.
  - apply Qlt_alt in C. split; lra.
  - apply Qgt_alt in C. rewrite inject_Z_plus. change (inject_Z 1) with 1. split; lra.
Qed.

Lemma nearest_even_nonneg (x : Q) : 0 <= x -> (0 <= nearest_even x)%Z.
Proof.
  intros H. unfold nearest_even.
  assert (0 <= Qfloor x)%Z by (apply Qfloor_nonneg; exact H).
  destruct (_ ?= _); [destruct (Z.even _)| |]; lia.
Qed.

(** ** Rounding *)

Lemma round_ext (x y : Q) : x == y -> round x = round y.
Proof.
  intros E. unfold round. rewrite (Qred_complete x y E). reflexivity.
Qed.

Lemma Qred_inject_Z (z : Z) : Qred (inject_Z z) = inject_Z z.
Proof.
  unfold Qred, inject_Z.
  pose proof (Z.ggcd_correct_divisors z 1) as D.
  pose proof (Z.ggcd_gcd z 1) as G. rewrite Z.gcd_1_r in G.
  destruct (Z.ggcd z 1) as [g [a b]]. cbn [fst snd] in *.
  subst g. destruct D as [Da Db].
  assert (Ea : a = z) by lia. assert (Eb : b = 1%Z) by lia.
  rewrite Ea, Eb. reflexivity.
Qed.

Lemma Qred_int (x : Q) (z : Z) : x == inject_Z z -> Qred x = inject_Z z.
Proof.
  intros E. rewrite (Qred_complete _ _ E). apply Qred_inject_Z.
Qed.

(** [ilog2] on a positive integer is [Z.log2]. *)
Lemma ilog2_int (z : Z) : (0 < z)%Z -> ilog2 (inject_Z z) = Z.log2 z.
Proof.
  intros H. unfold ilog2. cbn [Qnum Qden inject_Z].
  change (Z.log2 1) with 0%Z. rewrite Z.sub_0_r.
  replace (Qle_bool (pow2 (Z.log2 z)) (inject_Z z)) with true; [reflexivity|].
  symmetry. apply Qle_bool_iff.
  rewrite pow2_nonneg_int by apply Z.log2_nonneg.
  rewrite <- Zle_Qle. apply Z.log2_spec. exact H.
Qed.

(** The lower half of the specification of [ilog2]. *)
Lemma ilog2_le (x : Q) : 0 < x -> pow2 (ilog2 x) <= x.
Proof.
  intros H. unfold ilog2.
  destruct (Qle_bool (pow2 _) x) eqn:E; [apply Qle_bool_iff; exact E|].
  destruct x as [n d]. cbn [Qnum Qden].
  assert (Hn : (0 < n)%Z).
  { unfold Qlt in H. cbn in H. lia. }
  set (a := Z.log2 n). set (b := Z.log2 (Zpos d)).
  assert (Ha : (2 ^ a <= n)%Z) by (apply Z.log2_spec; exact Hn).
  assert (Hb : (Zpos d < 2 ^ (b + 1))%Z).
  { replace (b + 1)%Z with (Z.succ b) by lia. apply Z.log2_spec. lia. }
  assert (Ea : (0 <= a)%Z) by apply Z.log2_nonneg.
  assert (Eb : (0 <= b)%Z) by apply Z.log2_nonneg.
  replace (a - b - 1)%Z with (a + - (b + 1))%Z by lia.
  rewrite pow2_plus, pow2_opp, !pow2_nonneg_int by lia.
  apply Qle_shift_div_r.
  - change 0 with (inject_Z 0). rewrite <- Zlt_Qlt. apply Z.pow_pos_nonneg; lia.
  - apply Qle_trans with (inject_Z n); [rewrite <- Zle_Qle; exact Ha|].
    setoid_replace (inject_Z n) with ((n # d) * inject_Z (Zpos d)).
    + apply Qmult_le_l; [exact H|]. rewrite <- Zle_Qle. lia.
    + unfold Qeq, inject_Z, Qmult. cbn. lia.
Qed.

Lemma below_overflow (y : Q) (b : Z) :
  Qabs y <= inject_Z b -> (b < 2 ^ 1024)%Z ->
  Qle_bool (pow2 1024) (Qabs y) = false.
Proof.
  intros H Hb. destruct (Qle_bool _ _) eqn:E; [|reflexivity].
  apply Qle_bool_iff in E. rewrite pow2_nonneg_int in E by lia.
  exfalso. assert (C : inject_Z (2 ^ 1024) <= inject_Z b)
    by (eapply Qle_trans; eassumption).
  rewrite <- Zle_Qle in C. lia.
Qed.

Lemma Qabs_nonneg_eq (x : Q) : 0 <= x -> Qabs x = x.
Proof.
  destruct x as [n d]. unfold Qle, Qabs. cbn. intros H.
  rewrite Z.abs_eq by lia. reflexivity.
Qed.

(** An integer below 2^53 in magnitude is a value of the format. *)
Lemma round_int (x : Q) (z : Z) :
  (Z.abs z < 2 ^ 53)%Z -> x == inject_Z z -> round x = Num (inject_Z z).
Proof.
  intros Hz E. rewrite (round_ext _ _ E). unfold round.
  rewrite Qred_inject_Z.
  destruct (Z.eq_dec z 0) as [->|Hnz]; [reflexivity|].
  replace (Qeq_bool (inject_Z z) 0) with false.
  2:{ symmetry. destruct (Qeq_bool (inject_Z z) 0) eqn:C; [|reflexivity].
      apply Qeq_bool_iff in C. unfold Qeq in C. cbn in C. lia. }
  unfold ulp_exp. change (Qabs (inject_Z z)) with (inject_Z (Z.abs z)).
  rewrite ilog2_int by lia.
  assert (L0 : (0 <= Z.log2 (Z.abs z))%Z) by apply Z.log2_nonneg.
  assert (L1 : (Z.log2 (Z.abs z) < 53)%Z) by (apply Z.log2_lt_pow2; lia).
  rewrite Z.max_l by lia.
  set (k := (52 - Z.log2 (Z.abs z))%Z).
  replace (Z.log2 (Z.abs z) - 52)%Z with (- k)%Z by (unfold k; lia).
  rewrite Z.opp_involutive.
  assert (N : nearest_even (inject_Z z * pow2 k) = (z * 2 ^ k)%Z).
  { rewrite <- (nearest_even_int (z * 2 ^ k)). apply nearest_even_ext.
    rewrite pow2_nonneg_int by (unfold k; lia). rewrite inject_Z_mult.
    reflexivity. }
  rewrite N.
  assert (Y : Qred (inject_Z (z * 2 ^ k) * pow2 (- k)) = inject_Z z).
  { apply Qred_int. rewrite inject_Z_mult, <- pow2_nonneg_int by (unfold k; lia).
    rewrite <- Qmult_assoc, (Qmult_comm (pow2 k)), pow2_cancel. ring. }
  rewrite Y.
  rewrite (below_overflow (inject_Z z) (2 ^ 53)); [reflexivity| |reflexivity].
  change (Qabs (inject_Z z)) with (inject_Z (Z.abs z)).
  rewrite <- Zle_Qle. lia.
Qed.

(** What [round] returns on a product [x] that stays below an integer
    [n] of at most 2^52: a value of the format that is still below [n],
    and that is at least [n - 1] when [x] is [n * (1 - 2^-53)]. *)
Lemma round_below (x : Q) (n : Z) :
  0 <= x -> x <= inject_Z n * (1 - (1 # 2 ^ 53)) ->
  (1 <= n <= 2 ^ 52)%Z ->
  exists y, round x = Num y /\ 0 <= y /\ y < inject_Z n
            /\ (x == inject_Z n * (1 - (1 # 2 ^ 53)) -> inject_Z n - 1 <= y).
Proof.
  intros H0 Hx Hn.
  change (1 # 2 ^ 53) with (1 # 9007199254740992) in *.
  assert (Hn1 : 1 <= inject_Z n)
    by (change 1 with (inject_Z 1); rewrite <- Zle_Qle; lia).
  assert (Hn2 : inject_Z n <= 4503599627370496)
    by (change 4503599627370496 with (inject_Z (2 ^ 52)); rewrite <- Zle_Qle; lia).
  destruct (Qeq_dec x 0) as [Z0|NZ].
  - exists 0. rewrite (round_ext _ _ Z0). split; [reflexivity|].
    split; [lra|]. split; [lra|]. intros E. rewrite Z0 in E. lra.
  - unfold round.
    assert (Hr : Qred x == x) by apply Qred_correct.
    assert (Hp : 0 < Qred x) by (rewrite Hr; lra).
    replace (Qeq_bool (Qred x) 0) with false.
    2:{ symmetry. destruct (Qeq_bool (Qred x) 0) eqn:C; [|reflexivity].
        apply Qeq_bool_iff in C. lra. }
    set (xr := Qred x) in *. set (e := ulp_exp xr).
    set (m := nearest_even (xr * pow2 (- e))).
    set (y := Qred (inject_Z m * pow2 e)).
    assert (Ey : y == inject_Z m * pow2 e) by apply Qred_correct.
    pose proof (pow2_pos e) as Pe. pose proof (pow2_pos (- e)) as Pne.
    pose proof (nearest_even_close (xr * pow2 (- e))) as [Lo Hi]. fold m in Lo, Hi.
    assert (Hm : (0 <= m)%Z).
    { apply nearest_even_nonneg. apply Qmult_le_0_compat; lra. }
    assert (Y0 : 0 <= y).
    { rewrite Ey. apply Qmult_le_0_compat; [|lra].
      change 0 with (inject_Z 0). rewrite <- Zle_Qle. exact Hm. }
    assert (C := pow2_cancel e).
    assert (Yhi : y <= xr + pow2 e * (1 # 2)).
    { rewrite Ey.
      apply Qle_trans with ((xr * pow2 (- e) + (1 # 2)) * pow2 e).
      - apply Qmult_le_compat_r; [exact Hi | lra].
      - setoid_replace ((xr * pow2 (- e) + (1 # 2)) * pow2 e)
          with (xr * (pow2 (- e) * pow2 e) + pow2 e * (1 # 2)) by ring.
        rewrite C. lra. }
    assert (Ylo : xr - pow2 e * (1 # 2) <= y).
    { rewrite Ey.
      apply Qle_trans with ((xr * pow2 (- e) - (1 # 2)) * pow2 e).
      - setoid_replace ((xr * pow2 (- e) - (1 # 2)) * pow2 e)
          with (xr * (pow2 (- e) * pow2 e) - pow2 e * (1 # 2)) by ring.
        rewrite C. lra.
      - apply Qmult_le_compat_r; [exact Lo | lra]. }
    assert (Ue : pow2 e * (1 # 2) <= xr * (1 # 9007199254740992)
                 \/ pow2 e * (1 # 2) <= pow2 (- 1075)).
    { unfold e, ulp_exp.
      destruct (Z.max_spec (ilog2 (Qabs xr) - 52) (- 1074)) as [[_ ->]|[_ ->]].
      - right. change (-1075)%Z with (- 1074 + - 1)%Z. rewrite (pow2_plus (-1074)).
        apply Qmult_le_l; [apply pow2_pos|]. vm_compute. discriminate.
      - left. rewrite (Qabs_nonneg_eq xr) by lra.
        replace (ilog2 xr - 52)%Z with (ilog2 xr + - 52)%Z by lia.
        rewrite pow2_plus. pose proof (ilog2_le xr Hp) as Hl.
        setoid_replace (pow2 (ilog2 xr) * pow2 (- 52) * (1 # 2))
          with (pow2 (ilog2 xr) * (1 # 9007199254740992)).
        + apply Qmult_le_compat_r; [exact Hl | discriminate].
        + rewrite <- Qmult_assoc. apply Qmult_comp; [reflexivity|].
          vm_compute. reflexivity. }
    assert (Eta : pow2 (-1075) < 1 # 81129638414606681695789005144064)
      by (vm_compute; reflexivity).
    assert (Ylt : y < inject_Z n).
    { rewrite Hr in *. destruct Ue as [U|U]; lra. }
    exists y. split; [|split; [assumption|split; [assumption|]]].
    + rewrite (below_overflow y (2 ^ 52)); [reflexivity| |reflexivity].
      rewrite Qabs_pos by exact Y0.
      apply Qle_trans with (inject_Z n); [lra|]. rewrite <- Zle_Qle. lia.
    + intros E. rewrite Hr in *. rewrite E in *. destruct Ue as [U|U]; lra.
Qed.

(** ** [applyJitter] on doubles, where the arithmetic stays exact *)


Lemma minutesInDay_value : Rounded.minutesInDay = Num 1440.
Proof. vm_compute. reflexivity. Qed.

Lemma add_int (a b : Z) :
  (Z.abs (a + b) < 2 ^ 53)%Z ->
  Binary64.add (Num (inject_Z a)) (Num (inject_Z b)) = Num (inject_Z (a + b)).
Proof.
  intros H. cbn [Binary64.add]. apply round_int; [exact H|].
  rewrite inject_Z_plus. reflexivity.
Qed.

Lemma sub_int (a b : Z) :
  (Z.abs (a - b) < 2 ^ 53)%Z ->
  Binary64.sub (Num (inject_Z a)) (Num (inject_Z b)) = Num (inject_Z (a - b)).
Proof.
  intros H. unfold Binary64.sub. cbn [Binary64.neg Binary64.add].
  apply round_int; [exact H|].
  unfold Z.sub. rewrite inject_Z_plus, inject_Z_opp. reflexivity.
Qed.

Lemma mul_int (a b : Z) :
  (Z.abs (a * b) < 2 ^ 53)%Z ->
  Binary64.mul (Num (inject_Z a)) (Num (inject_Z b)) = Num (inject_Z (a * b)).
Proof.
  intros H. cbn [Binary64.mul]. apply round_int; [exact H|].
  rewrite inject_Z_mult. reflexivity.
Qed.

Lemma lt_int (a b : Z) :
  Binary64.lt (Num (inject_Z a)) (Num (inject_Z b)) = (a <? b)%Z.
Proof.
  cbn [Binary64.lt]. destruct (Z.ltb_spec a b) as [H|H].
  - destruct (Qle_bool _ _) eqn:E; [|reflexivity].
    apply Qle_bool_iff in E. rewrite <- Zle_Qle in E. lia.
  - replace (Qle_bool (inject_Z b) (inject_Z a)) with true; [reflexivity|].
    symmetry. apply Qle_bool_iff. rewrite <- Zle_Qle. exact H.
Qed.

Lemma ge_int (a b : Z) :
  Binary64.ge (Num (inject_Z a)) (Num (inject_Z b)) = (b <=? a)%Z.
Proof.
  unfold Binary64.ge. rewrite lt_int.
  destruct (Z.ltb_spec a b), (Z.leb_spec b a); try reflexivity; lia.
Qed.

Lemma raise_total_exact (fuel : nat) (t : Z) :
  (Z.abs t <= 2 ^ 53)%Z -> (- t <= 1440 * Z.of_nat fuel)%Z ->
  Rounded.raise_total fuel (Num (inject_Z t))
  = Some (Num (inject_Z (if (t <? 0)%Z then t mod 1440 else t)%Z)).
Proof.
  revert t. induction fuel as [|fuel IH]; intros t Ht Hf.
  - cbn [Rounded.raise_total]. change (Num 0) with (Num (inject_Z 0)).
    rewrite lt_int. destruct (Z.ltb_spec t 0); [lia | reflexivity].
  - cbn [Rounded.raise_total]. change (Num 0) with (Num (inject_Z 0)).
    rewrite lt_int. destruct (Z.ltb_spec t 0) as [Hneg|Hpos]; [|reflexivity].
    rewrite minutesInDay_value. change (Num 1440) with (Num (inject_Z 1440)).
    rewrite add_int by lia. rewrite IH by lia.
    do 3 f_equal.
    destruct (Z.ltb_spec (t + 1440) 0); Z.div_mod_to_equations; lia.
Qed.

Lemma lower_total_exact (fuel : nat) (t : Z) :
  (0 <= t <= 2 ^ 53)%Z -> (t <= 1440 * Z.of_nat fuel + 1439)%Z ->
  Rounded.lower_total fuel (Num (inject_Z t))
  = Some (Num (inject_Z (t mod 1440))).
Proof.
  revert t. induction fuel as [|fuel IH]; intros t Ht Hf.
  - cbn [Rounded.lower_total]. rewrite minutesInDay_value.
    change (Num 1440) with (Num (inject_Z 1440)).
    rewrite ge_int. destruct (Z.leb_spec 1440 t); [lia|].
    rewrite Z.mod_small by lia. reflexivity.
  - cbn [Rounded.lower_total]. rewrite minutesInDay_value.
    change (Num 1440) with (Num (inject_Z 1440)).
    rewrite ge_int. destruct (Z.leb_spec 1440 t) as [Hge|Hlt].
    + rewrite sub_int by lia. rewrite IH by lia.
      do 3 f_equal. Z.div_mod_to_equations; lia.
    + rewrite Z.mod_small by lia. reflexivity.
Qed.

(** The split of a wrapped total into hour and minute, on all 1440
    values. *)
Lemma split_total (T : Z) :
  (0 <= T < 1440)%Z ->
  Binary64.floor (Binary64.div_by (Num (inject_Z T)) 60)
  = Num (inject_Z (T / 60))
  /\ Binary64.rem_by (Num (inject_Z T)) 60 = Num (inject_Z (T mod 60)).
Proof.
  intros HT.
  assert (All : forallb (fun T =>
            match Binary64.floor (Binary64.div_by (Num (inject_Z T)) 60),
                  Binary64.rem_by (Num (inject_Z T)) 60 with
            | Num a, Num b =>
                Qeq_bool a (inject_Z (T / 60)) && Qeq_bool b (inject_Z (T mod 60))
                && (Zpos (Qden a) =? 1)%Z && (Zpos (Qden b) =? 1)%Z
            | _, _ => false
            end) (Times.below 1440) = true) by (vm_compute; reflexivity).
  rewrite forallb_forall in All.
  specialize (All T (below_In 1440 T ltac:(lia))).
  destruct (Binary64.floor _) as [a| | |]; try discriminate All.
  destruct (Binary64.rem_by _ _) as [b| | |]; try discriminate All.
  rewrite !andb_true_iff in All. destruct All as [[[Ea Eb] Da] Db].
  apply Qeq_bool_iff in Ea, Eb. apply Z.eqb_eq in Da, Db.
  destruct a as [an ad], b as [bn bd]. cbn in Da, Db.
  injection Da as ->. injection Db as ->.
  unfold Qeq in Ea, Eb. cbn in Ea, Eb. rewrite !Z.mul_1_r in Ea, Eb.
  subst. split; reflexivity.
Qed.

Lemma finite_or_value (x : option jsnum) (d : Q) :
  Rounded.finite_or x d = Num (JS.finite_or x d).
Proof. destruct x as [[q| | |]|]; reflexivity. Qed.

Lemma jitter_before_value (jit : option Resolver.JitterConfig) :
  Rounded.jitter_before jit = Num (Resolver.jitter_before jit).
Proof. apply finite_or_value. Qed.

Lemma jitter_after_value (jit : option Resolver.JitterConfig) :
  Rounded.jitter_after jit = Num (Resolver.jitter_after jit).
Proof. apply finite_or_value. Qed.

Lemma applyJitter_exact (h m : Z) (jit : option Resolver.JitterConfig)
    (random : Q) :
  (0 <= h <= 23)%Z -> (0 <= m <= 59)%Z ->
  Qabs (Resolver.jitter_before jit) <= inject_Z (2 ^ 50) ->
  Qabs (Resolver.jitter_after jit) <= inject_Z (2 ^ 50) ->
  0 <= random -> random <= 1 - (1 # 2 ^ 53) ->
  exists o : Z,
    (if negb (Resolver.jitter_is_enabled jit)
        || (Qeq_bool (Resolver.jitter_before jit) 0
            && Qeq_bool (Resolver.jitter_after jit) 0)
     then o = 0%Z
     else
       let lo := Qceiling (- Qabs (Resolver.jitter_before jit)) in
       let hi := Qfloor (Qabs (Resolver.jitter_after jit)) in
       exists y,
         round (random * inject_Z (hi - lo + 1)) = Num y
         /\ o = (Qfloor y + lo)%Z /\ (lo <= o <= hi)%Z)
    /\ forall fuel, (Rounded.enough jit <= fuel)%nat ->
         Rounded.applyJitter fuel h m jit random
         = Some {| hour := Num (inject_Z (((h * 60 + m + o) mod 1440) / 60));
                   minute := Num (inject_Z (((h * 60 + m + o) mod 1440) mod 60));
                   offsetMinutes := Num (inject_Z o) |}.
Proof.
  intros Hh Hm Hb Ha R0 R1.
  unfold Rounded.applyJitter, Rounded.enough.
  rewrite jitter_before_value, jitter_after_value.
  set (b := Resolver.jitter_before jit) in *.
  set (a := Resolver.jitter_after jit) in *.
  cbn [Binary64.is_zero].
  destruct (negb (Resolver.jitter_is_enabled jit) || (Qeq_bool b 0 && Qeq_bool a 0)).
  - exists 0%Z. split; [reflexivity|]. intros fuel _.
    rewrite Z.add_0_r, Z.mod_small by lia.
    replace ((h * 60 + m) / 60)%Z with h by (Z.div_mod_to_equations; lia).
    replace ((h * 60 + m) mod 60)%Z with m by (Z.div_mod_to_equations; lia).
    reflexivity.
  - unfold Rounded.getRandomInt.
    cbn [Binary64.abs Binary64.neg Binary64.ceil Binary64.floor].
    set (lo := Qceiling (- Qabs b)). set (hi := Qfloor (Qabs a)).
    assert (Hlo : (- 2 ^ 50 <= lo <= 0)%Z).
    { unfold lo. split.
      - rewrite <- (Qceiling_Z (- 2 ^ 50)). apply Qceiling_resp_le.
        rewrite inject_Z_opp. lra.
      - change 0%Z with (Qceiling 0). apply Qceiling_resp_le.
        pose proof (Qabs_nonneg b). lra. }
    assert (Hhi : (0 <= hi <= 2 ^ 50)%Z).
    { unfold hi. split.
      - apply Qfloor_nonneg, Qabs_nonneg.
      - rewrite <- (Qfloor_Z (2 ^ 50)). apply Qfloor_resp_le. exact Ha. }
    assert (P50 : (2 ^ 50 = 1125899906842624)%Z) by reflexivity.
    assert (P53 : (2 ^ 53 = 9007199254740992)%Z) by reflexivity.
    assert (P52 : (2 ^ 52 = 4503599627370496)%Z) by reflexivity.
    rewrite sub_int by lia.
    change (Num 1) with (Num (inject_Z 1)). rewrite add_int by lia.
    set (n := (hi - lo + 1)%Z).
    change (Binary64.mul (Num random) (Num (inject_Z n)))
      with (round (random * inject_Z n)).
    destruct (round_below (random * inject_Z n) n) as (y & Ey & Y0 & Y1 & _).
    { apply Qmult_le_0_compat; [exact R0|].
      change 0 with (inject_Z 0). rewrite <- Zle_Qle. unfold n. lia. }
    { rewrite (Qmult_comm random). apply Qmult_le_l; [|exact R1].
      change 0 with (inject_Z 0). rewrite <- Zlt_Qlt. unfold n. lia. }
    { unfold n. lia. }
    rewrite Ey. cbn [Binary64.floor].
    set (k := Qfloor y).
    assert (Hk : (0 <= k < n)%Z).
    { unfold k. split; [apply Qfloor_nonneg; exact Y0|].
      apply Qfloor_below. exact Y1. }
    rewrite add_int by (unfold n in *; lia).
    exists (k + lo)%Z. split.
    { cbv zeta. exists y. fold lo hi n. split; [reflexivity|]. split; [reflexivity|]. unfold n in *; lia. }
    intros fuel Hfuel.
    change (Num 60) with (Num (inject_Z 60)).
    rewrite mul_int by lia. rewrite add_int by lia.
    rewrite add_int by (unfold n in *; lia).
    set (t := (h * 60 + m + (k + lo))%Z).
    assert (Ht : (lo <= t <= 1439 + hi)%Z) by (unfold t, n in *; lia).
    assert (Hf : (hi - lo <= 1440 * Z.of_nat fuel - 1)%Z).
    { assert ((hi - lo) / 1440 + 1 <= Z.of_nat fuel)%Z.
      { fold hi in Hfuel.
        replace (Qfloor (Qabs b)) with (- lo)%Z in Hfuel.
        - replace (hi - lo)%Z with (- lo + hi)%Z by lia. lia.
        - unfold lo, Qceiling. rewrite Qopp_involutive. lia. }
      Z.div_mod_to_equations. lia. }
    rewrite raise_total_exact by lia.
    destruct (Z.ltb_spec t 0) as [Hneg|Hpos].
    + pose proof (Z.mod_pos_bound t 1440 ltac:(lia)) as Hr.
      rewrite lower_total_exact by lia.
      rewrite Z.mod_mod by lia.
      destruct (split_total (t mod 1440) Hr) as [S1 S2].
      rewrite S1, S2. reflexivity.
    + rewrite lower_total_exact by lia.
      pose proof (Z.mod_pos_bound t 1440 ltac:(lia)) as Hr.
      destruct (split_total (t mod 1440) Hr) as [S1 S2].
      rewrite S1, S2. reflexivity.
Qed.

(** X23. On a window of at most 2^50 minutes either way the double
    computation of [applyJitter] returns, and what it returns is what the
    integer embedding returns for some draw of [[0, 1)]: the two differ
    only in which draws give which offset of the window. *)
Theorem applyJitter_agrees (h m : Z) (jit : option Resolver.JitterConfig)
    (random : Q) :
  (0 <= h <= 23)%Z -> (0 <= m <= 59)%Z ->
  Qabs (Resolver.jitter_before jit) <= inject_Z (2 ^ 50) ->
  Qabs (Resolver.jitter_after jit) <= inject_Z (2 ^ 50) ->
  0 <= random -> random <= 1 - (1 # 2 ^ 53) ->
  exists random',
    0 <= random' /\ random' < 1
    /\ forall fuel, (Rounded.enough jit <= fuel)%nat ->
         Rounded.applyJitter fuel h m jit random
         = Some (Rounded.of_exact (Resolver.applyJitter h m jit random')).
Proof.
  intros Hh Hm Hb Ha R0 R1.
  destruct (applyJitter_exact h m jit random Hh Hm Hb Ha R0 R1) as (o & Ho & Hrun).
  unfold Resolver.applyJitter.
  destruct (negb (Resolver.jitter_is_enabled jit) || _).
  - subst o. exists 0. split; [lra|]. split; [lra|].
    intros fuel Hf. rewrite (Hrun fuel Hf).
    rewrite Z.add_0_r, Z.mod_small by lia.
    replace ((h * 60 + m) / 60)%Z with h by (Z.div_mod_to_equations; lia).
    replace ((h * 60 + m) mod 60)%Z with m by (Z.div_mod_to_equations; lia).
    reflexivity.
  - cbv zeta in Ho. destruct Ho as (y & _ & _ & Hlo & Hhi).
    set (lo := Qceiling (- Qabs (Resolver.jitter_before jit))) in *.
    set (hi := Qfloor (Qabs (Resolver.jitter_after jit))) in *.
    set (n := (hi - lo + 1)%Z).
    assert (Hn : 0 < inject_Z n).
    { change 0 with (inject_Z 0). rewrite <- Zlt_Qlt. unfold n. lia. }
    exists ((inject_Z (o - lo) + (1 # 2)) / inject_Z n).
    assert (Ek : (inject_Z (o - lo) + (1 # 2)) / inject_Z n * inject_Z n
                 == inject_Z (o - lo) + (1 # 2)).
    { field. lra. }
    assert (K0 : 0 <= inject_Z (o - lo)).
    { change 0 with (inject_Z 0). rewrite <- Zle_Qle. lia. }
    assert (K1 : inject_Z (o - lo) + 1 <= inject_Z n).
    { change 1 with (inject_Z 1). rewrite <- inject_Z_plus, <- Zle_Qle.
      unfold n. lia. }
    split; [apply Qle_shift_div_l; lra|].
    split; [apply Qlt_shift_div_r; lra|].
    intros fuel Hf. rewrite (Hrun fuel Hf).
    assert (G : Resolver.getRandomInt (- Qabs (Resolver.jitter_before jit))
                  (Qabs (Resolver.jitter_after jit))
                  ((inject_Z (o - lo) + (1 # 2)) / inject_Z n) = o).
    { unfold Resolver.getRandomInt. fold lo hi n.
      rewrite (Qfloor_comp _ _ Ek).
      assert (F : Qfloor (inject_Z (o - lo) + (1 # 2)) = (o - lo)%Z).
      { apply Z.le_antisymm.
        - apply Z.lt_succ_r. apply Qfloor_below.
          replace (Z.succ (o - lo)) with (o - lo + 1)%Z by lia.
          rewrite inject_Z_plus. change (inject_Z 1) with 1. lra.
        - rewrite <- (Qfloor_Z (o - lo)) at 1. apply Qfloor_resp_le. lra. }
      rewrite F. lia. }
    rewrite G, wrap_total. unfold Resolver.minutesInDay.
    change (24 * 60)%Z with 1440%Z.
    pose proof (Z.mod_pos_bound (h * 60 + m + o) 1440 ltac:(lia)) as Hr.
    unfold Rounded.of_exact. cbn [Resolver.hour Resolver.minute Resolver.offsetMinutes].
    rewrite Z.rem_mod_nonneg by lia. reflexivity.
Qed.

(** 09:00, the window 20 before and 30 after, the random source at 0.3. *)
Lemma applyJitter_agrees_example :
  let jit := Some {| Resolver.jitter_enabled := Some true;
                     Resolver.minMinutesBefore := None;
                     Resolver.maxMinutesAfter := None |} in
  Rounded.applyJitter 1 9 0 jit (3 # 10)
  = Some (Rounded.of_exact (Resolver.applyJitter 9 0 jit (3 # 10)))
  /\ exists random',
       0 <= random' /\ random' < 1
       /\ forall fuel, (Rounded.enough jit <= fuel)%nat ->
            Rounded.applyJitter fuel 9 0 jit (3 # 10)
            = Some (Rounded.of_exact (Resolver.applyJitter 9 0 jit random')).
Proof.
  intros jit. split; [vm_compute; reflexivity|].
  apply (applyJitter_agrees 9 0 jit (3 # 10));
    [lia | lia | vm_compute; discriminate | vm_compute; discriminate
    | discriminate | discriminate].
Defined.

(** A loop whose step does not move its variable never ends. *)
Lemma raise_total_stuck (x : jsnum) :
  Binary64.lt x (Num 0) = true -> Binary64.add x Rounded.minutesInDay = x ->
  forall fuel, Rounded.raise_total fuel x = None.
Proof.
  intros Hlt Hstep fuel. induction fuel as [|fuel IH];
    cbn [Rounded.raise_total]; rewrite Hlt; [reflexivity|].
  rewrite Hstep. exact IH.
Qed.

(** C5 (as amended). For every base time with hour in 0..23 and minute in
    0..59, every jitter window whose two bounds are at most 2^50 minutes in
    magnitude and every value of [Math.random()] (a double of [[0, 1)], so
    at most 1 - 2^-53), [applyJitter] on doubles returns; its offset is an
    integer, and its pair, read back as minutes of the day, is
    (base + offset) mod 1440, with the hour in 0..23 and the minute in
    0..59. *)
Theorem jitter_wraps_modulo_day (h m : Z) (jit : option Resolver.JitterConfig)
    (random : Q) :
  (0 <= h <= 23)%Z -> (0 <= m <= 59)%Z ->
  Qabs (Resolver.jitter_before jit) <= inject_Z (2 ^ 50) ->
  Qabs (Resolver.jitter_after jit) <= inject_Z (2 ^ 50) ->
  0 <= random -> random <= 1 - (1 # 2 ^ 53) ->
  exists H M o : Z,
    (forall fuel, (Rounded.enough jit <= fuel)%nat ->
       Rounded.applyJitter fuel h m jit random
       = Some {| hour := Num (inject_Z H); minute := Num (inject_Z M);
                 offsetMinutes := Num (inject_Z o) |})
    /\ (H * 60 + M = (h * 60 + m + o) mod 1440)%Z
    /\ (0 <= H <= 23)%Z /\ (0 <= M <= 59)%Z.
Proof.
  intros Hh Hm Hb Ha R0 R1.
  destruct (applyJitter_exact h m jit random Hh Hm Hb Ha R0 R1) as (o & _ & Hrun).
  exists (((h * 60 + m + o) mod 1440) / 60)%Z,
         (((h * 60 + m + o) mod 1440) mod 60)%Z, o.
  split; [exact Hrun|].
  pose proof (Z.mod_pos_bound (h * 60 + m + o) 1440 ltac:(lia)) as Hr.
  repeat split; Z.div_mod_to_equations; lia.
Qed.

(** The base time 00:10 with the offset -20 (window 20 before, random
    source at 0) gives 23:50. *)
Lemma jitter_wraps_modulo_day_midnight :
  let jit := Some {| Resolver.jitter_enabled := Some true;
                     Resolver.minMinutesBefore := Some (Num 20);
                     Resolver.maxMinutesAfter := Some (Num 30) |} in
  Rounded.applyJitter 1 0 10 jit 0
  = Some {| hour := Num 23; minute := Num 50; offsetMinutes := Num (-20) |}
  /\ exists H M o : Z,
       (forall fuel, (Rounded.enough jit <= fuel)%nat ->
          Rounded.applyJitter fuel 0 10 jit 0
          = Some {| hour := Num (inject_Z H); minute := Num (inject_Z M);
                    offsetMinutes := Num (inject_Z o) |})
       /\ (H * 60 + M = (0 * 60 + 10 + o) mod 1440)%Z
       /\ (0 <= H <= 23)%Z /\ (0 <= M <= 59)%Z.
Proof.
  intros jit. split; [vm_compute; reflexivity|].
  apply (jitter_wraps_modulo_day 0 10 jit 0);
    [lia | lia | vm_compute; discriminate | vm_compute; discriminate
    | discriminate | discriminate].
Defined.

(** Beyond the exact range the claim fails in three ways.  With the
    window 10^21 before, the total -10^21 + 540 rounds to -10^21 and adding
    1440 to it gives -10^21 again: the first loop never ends.  With the
    window 2^54 after and the random source at 1/2 the offset is 2^53, the
    total 1 + 2^53 rounds to 2^53, and the pair returned (after some
    6 * 10^12 exact subtractions) is 00:32 where (base + offset) mod 1440
    is 33.  With both bounds at the largest double and the random source
    at 0, the width of the window overflows, [0 * Infinity] is [NaN], and
    the pair returned is [NaN], [NaN]. *)
Lemma jitter_wrap_breaks_on_wide_window :
  let wide b a := Some {| Resolver.jitter_enabled := Some true;
                          Resolver.minMinutesBefore := b;
                          Resolver.maxMinutesAfter := a |} in
  let largest := Num (inject_Z ((2 ^ 53 - 1) * 2 ^ 971)) in
  (forall fuel,
     Rounded.applyJitter fuel 9 0
       (wide (Some (Num (inject_Z (10 ^ 21)))) None) 0 = None)
  /\ (forall fuel, (2 ^ 53 / 1440 < Z.of_nat fuel)%Z ->
        Rounded.applyJitter fuel 0 1
          (wide (Some (Num 0)) (Some (Num (inject_Z (2 ^ 54))))) (1 # 2)
        = Some {| hour := Num 0; minute := Num 32;
                  offsetMinutes := Num (inject_Z (2 ^ 53)) |})
  /\ (0 * 60 + 32 <> (0 * 60 + 1 + 2 ^ 53) mod 1440)%Z
  /\ (forall fuel,
        Rounded.applyJitter fuel 9 0
          (wide (Some largest) (Some largest)) 0
        = Some {| hour := NaN; minute := NaN; offsetMinutes := NaN |}).
Proof.
  intros wide largest. refine (conj _ (conj _ (conj _ _))).
  - intros fuel. unfold Rounded.applyJitter.
    replace (negb _ || _) with false by (vm_compute; reflexivity).
    match goal with
    | |- context [Rounded.raise_total fuel ?t] =>
        replace t with (Num (inject_Z (- 10 ^ 21))) by (vm_compute; reflexivity)
    end.
    rewrite raise_total_stuck; [reflexivity | | ]; vm_compute; reflexivity.
  - intros fuel Hfuel. unfold Rounded.applyJitter.
    replace (negb _ || _) with false by (vm_compute; reflexivity).
    match goal with
    | |- context [Rounded.getRandomInt ?a ?b ?c] =>
        replace (Rounded.getRandomInt a b c) with (Num (inject_Z (2 ^ 53)))
          by (vm_compute; reflexivity)
    end.
    match goal with
    | |- context [Rounded.raise_total fuel ?t] =>
        replace t with (Num (inject_Z (2 ^ 53))) by (vm_compute; reflexivity)
    end.
    rewrite raise_total_exact by lia.
    change (2 ^ 53 <? 0)%Z with false. cbv iota.
    rewrite lower_total_exact by (Z.div_mod_to_equations; lia).
    change (2 ^ 53 mod 1440)%Z with 32%Z.
    vm_compute. reflexivity.
  - vm_compute. discriminate.
  - intros fuel. unfold Rounded.applyJitter.
    replace (negb _ || _) with false by (vm_compute; reflexivity).
    match goal with
    | |- context [Rounded.getRandomInt ?a ?b ?c] =>
        replace (Rounded.getRandomInt a b c) with NaN
          by (vm_compute; reflexivity)
    end.
    match goal with
    | |- context [Rounded.raise_total fuel ?t] =>
        replace t with NaN by (vm_compute; reflexivity)
    end.
    destruct fuel; reflexivity.
Qed.

(** X5. When jitter is not enabled, [applyJitter] on doubles returns the
    offset 0 and the time as it came, whatever the window.  For a base
    time with hour in 0..23 and minute in 0..59, on a window whose bounds
    are at most 2^50 minutes in magnitude and with [Math.random()] a
    double of [[0, 1)], it returns an integer offset between minus the
    magnitude of the bound before and the magnitude of the bound after
    (20 and 30 when not configured). *)
Theorem offset_stays_in_window (h m : Z) (jit : option Resolver.JitterConfig)
    (random : Q) :
  (Resolver.jitter_is_enabled jit = false ->
   forall fuel,
     Rounded.applyJitter fuel h m jit random
     = Some {| hour := Num (inject_Z h); minute := Num (inject_Z m);
               offsetMinutes := Num 0 |})
  /\ ((0 <= h <= 23)%Z -> (0 <= m <= 59)%Z ->
      Qabs (Resolver.jitter_before jit) <= inject_Z (2 ^ 50) ->
      Qabs (Resolver.jitter_after jit) <= inject_Z (2 ^ 50) ->
      0 <= random -> random <= 1 - (1 # 2 ^ 53) ->
      exists o : Z,
        (forall fuel, (Rounded.enough jit <= fuel)%nat ->
           exists j, Rounded.applyJitter fuel h m jit random = Some j
                     /\ offsetMinutes j = Num (inject_Z o))
        /\ - Qabs (Resolver.jitter_before jit) <= inject_Z o
        /\ inject_Z o <= Qabs (Resolver.jitter_after jit)).
Proof.
  split.
  - intros He fuel. unfold Rounded.applyJitter. rewrite He. reflexivity.
  - intros Hh Hm Hb Ha R0 R1.
    destruct (applyJitter_exact h m jit random Hh Hm Hb Ha R0 R1) as (o & Ho & Hrun).
    exists o. split.
    + intros fuel Hf. eexists. split; [apply Hrun; exact Hf | reflexivity].
    + destruct (negb (Resolver.jitter_is_enabled jit) || _).
      * subst o. pose proof (Qabs_nonneg (Resolver.jitter_before jit)).
        pose proof (Qabs_nonneg (Resolver.jitter_after jit)).
        change (inject_Z 0) with 0. split; lra.
      * cbv zeta in Ho. destruct Ho as (y & _ & _ & Hlo & Hhi). split.
        -- apply Qle_trans with (inject_Z (Qceiling (- Qabs (Resolver.jitter_before jit))));
             [apply Qle_ceiling | rewrite <- Zle_Qle; exact Hlo].
        -- apply Qle_trans with (inject_Z (Qfloor (Qabs (Resolver.jitter_after jit))));
             [rewrite <- Zle_Qle; exact Hhi | apply Qfloor_le].
Qed.

(** The window 20 before and 30 after with the random source at 0.9. *)
Lemma offset_stays_in_window_example :
  let jit := Some {| Resolver.jitter_enabled := Some true;
                     Resolver.minMinutesBefore := None;
                     Resolver.maxMinutesAfter := None |} in
  Rounded.applyJitter 1 9 0 jit (9 # 10)
  = Some {| hour := Num 9; minute := Num 25; offsetMinutes := Num 25 |}
  /\ exists o : Z,
       (forall fuel, (Rounded.enough jit <= fuel)%nat ->
          exists j, Rounded.applyJitter fuel 9 0 jit (9 # 10) = Some j
                    /\ offsetMinutes j = Num (inject_Z o))
       /\ - Qabs (Resolver.jitter_before jit) <= inject_Z o
       /\ inject_Z o <= Qabs (Resolver.jitter_after jit).
Proof.
  intros jit. split; [vm_compute; reflexivity|].
  apply (proj2 (offset_stays_in_window 9 0 jit (9 # 10)));
    [lia | lia | vm_compute; discriminate | vm_compute; discriminate
    | discriminate | discriminate].
Defined.

(** C9. In [applyJitter] a bound that is absent or not a finite number is
    replaced by its default, 20 minutes before and 30 minutes after, and a
    negative bound acts as its magnitude: the call returns what it returns
    with the default, or with the magnitude, in its place.  The window is
    the one drawn from: with jitter enabled and both bounds defaulted the
    offset lies between -20 and 30, it is -20 when [Math.random()] returns
    0 and 30 when it returns the largest double below 1; a configured
    bound [q] before gives the offset [- floor |q|] at the draw 0, and a
    configured bound [q] after gives the offset [floor |q|] at the largest
    draw (for bounds of at most 2^50 minutes). *)
Theorem jitter_window_defaults (fuel : nat) (h m : Z) (en : option bool)
    (b a : option jsnum) (random : Q) :
  let cfg b a := Some {| Resolver.jitter_enabled := en;
                         Resolver.minMinutesBefore := b;
                         Resolver.maxMinutesAfter := a |} in
  let offset_is (r : option Rounded.Jittered) (o : Z) :=
    exists j, r = Some j /\ offsetMinutes j = Num (inject_Z o) in
  (isFinite b = false ->
     Rounded.applyJitter fuel h m (cfg b a) random
     = Rounded.applyJitter fuel h m (cfg (Some (Num 20)) a) random)
  /\ (isFinite a = false ->
     Rounded.applyJitter fuel h m (cfg b a) random
     = Rounded.applyJitter fuel h m (cfg b (Some (Num 30))) random)
  /\ (forall q,
     Rounded.applyJitter fuel h m (cfg (Some (Num (- q))) a) random
     = Rounded.applyJitter fuel h m (cfg (Some (Num q)) a) random)
  /\ (forall q,
     Rounded.applyJitter fuel h m (cfg b (Some (Num (- q)))) random
     = Rounded.applyJitter fuel h m (cfg b (Some (Num q))) random)
  /\ (en = Some true -> isFinite b = false -> isFinite a = false ->
      (0 <= h <= 23)%Z -> (0 <= m <= 59)%Z -> (1 <= fuel)%nat ->
      (0 <= random -> random <= 1 - (1 # 2 ^ 53) ->
       exists o, offset_is (Rounded.applyJitter fuel h m (cfg b a) random) o
                 /\ (-20 <= o <= 30)%Z)
      /\ offset_is (Rounded.applyJitter fuel h m (cfg b a) 0) (-20)%Z
      /\ offset_is (Rounded.applyJitter fuel h m (cfg b a) (1 - (1 # 2 ^ 53))) 30%Z)
  /\ (en = Some true -> isFinite a = false ->
      (0 <= h <= 23)%Z -> (0 <= m <= 59)%Z ->
      forall q, Qabs q <= inject_Z (2 ^ 50) ->
        (Rounded.enough (cfg (Some (Num q)) a) <= fuel)%nat ->
        offset_is (Rounded.applyJitter fuel h m (cfg (Some (Num q)) a) 0)
                  (- Qfloor (Qabs q))%Z)
  /\ (en = Some true -> isFinite b = false ->
      (0 <= h <= 23)%Z -> (0 <= m <= 59)%Z ->
      forall q, Qabs q <= inject_Z (2 ^ 50) ->
        (Rounded.enough (cfg b (Some (Num q))) <= fuel)%nat ->
        offset_is (Rounded.applyJitter fuel h m (cfg b (Some (Num q)))
                     (1 - (1 # 2 ^ 53)))
                  (Qfloor (Qabs q))).
Proof.
  intros cfg offset_is.
  assert (Db : forall b a, isFinite b = false ->
            Rounded.applyJitter fuel h m (cfg b a) random
            = Rounded.applyJitter fuel h m (cfg (Some (Num 20)) a) random).
  { intros b0 a0 Hb. destruct b0 as [[q| | |]|]; try discriminate Hb; reflexivity. }
  assert (Da : forall b a r, isFinite a = false ->
            Rounded.applyJitter fuel h m (cfg b a) r
            = Rounded.applyJitter fuel h m (cfg b (Some (Num 30))) r).
  { intros b0 a0 r Ha. destruct a0 as [[q| | |]|]; try discriminate Ha; reflexivity. }
  assert (Db' : forall b a r, isFinite b = false ->
            Rounded.applyJitter fuel h m (cfg b a) r
            = Rounded.applyJitter fuel h m (cfg (Some (Num 20)) a) r).
  { intros b0 a0 r Hb. destruct b0 as [[q| | |]|]; try discriminate Hb; reflexivity. }
  refine (conj (Db b a) (conj (Da b a random) (conj _ (conj _ (conj _ (conj _ _)))))).
  - intros q. unfold Rounded.applyJitter, cfg, Rounded.jitter_before, Rounded.jitter_after.
    cbn [Resolver.minMinutesBefore Resolver.maxMinutesAfter Rounded.finite_or
         Binary64.abs Binary64.is_zero].
    rewrite Qabs_opp_eq, Qeq_bool_opp_0. reflexivity.
  - intros q. unfold Rounded.applyJitter, cfg, Rounded.jitter_before, Rounded.jitter_after.
    cbn [Resolver.minMinutesBefore Resolver.maxMinutesAfter Rounded.finite_or
         Binary64.abs Binary64.is_zero].
    rewrite Qabs_opp_eq, Qeq_bool_opp_0. reflexivity.
  - intros He Hb Ha Hh Hm Hf. subst en.
    set (d := cfg (Some (Num 20)) (Some (Num 30))).
    assert (E : forall r, Rounded.applyJitter fuel h m (cfg b a) r
                          = Rounded.applyJitter fuel h m d r).
    { intros r. rewrite (Db' b a r Hb). apply Da. exact Ha. }
    assert (S20 : Qabs (Resolver.jitter_before d) <= inject_Z (2 ^ 50))
      by (vm_compute; discriminate).
    assert (S30 : Qabs (Resolver.jitter_after d) <= inject_Z (2 ^ 50))
      by (vm_compute; discriminate).
    assert (Hen : (Rounded.enough d <= fuel)%nat).
    { change (Rounded.enough d) with 1%nat. exact Hf. }
    assert (At : forall r, 0 <= r -> r <= 1 - (1 # 2 ^ 53) ->
              exists o, offset_is (Rounded.applyJitter fuel h m (cfg b a) r) o
                /\ exists y, round (r * inject_Z 51) = Num y
                             /\ o = (Qfloor y + -20)%Z /\ (-20 <= o <= 30)%Z).
    { intros r R0 R1. rewrite E.
      destruct (applyJitter_exact h m d r Hh Hm S20 S30 R0 R1) as (o & Ho & Hrun).
      exists o. split; [eexists; split; [apply Hrun; exact Hen | reflexivity]|].
      exact Ho. }
    split; [|split].
    + intros R0 R1. destruct (At random R0 R1) as (o & Ho & _ & _ & _ & Hr).
      exists o. split; assumption.
    + destruct (At 0 ltac:(discriminate) ltac:(discriminate))
        as (o & Ho & y & Ey & -> & _).
      replace (round (0 * inject_Z 51)) with (Num 0) in Ey by (vm_compute; reflexivity).
      injection Ey as <-. exact Ho.
    + destruct (At (1 - (1 # 2 ^ 53)) ltac:(discriminate) ltac:(apply Qle_refl))
        as (o & Ho & y & Ey & -> & _).
      revert Ey. 
      set (v := round ((1 - (1 # 2 ^ 53)) * inject_Z 51)).
      assert (Ev : exists y0, v = Num y0 /\ Qfloor y0 = 50%Z).
      { vm_compute. eexists. split; reflexivity. }
      destruct Ev as (y0 & -> & F). intros Ey. injection Ey as <-.
      rewrite F in Ho. exact Ho.
  - intros He Ha Hh Hm q Hq Hf. subst en.
    rewrite (Da (Some (Num q)) a 0 Ha) in *.
    assert (Hf' : (Rounded.enough (cfg (Some (Num q)) (Some (Num 30))) <= fuel)%nat).
    { destruct a as [[q'| | |]|]; try discriminate Ha; exact Hf. }
    set (d := cfg (Some (Num q)) (Some (Num 30))) in *.
    assert (S30 : Qabs (Resolver.jitter_after d) <= inject_Z (2 ^ 50))
      by (vm_compute; discriminate).
    destruct (applyJitter_exact h m d 0 Hh Hm Hq S30 ltac:(discriminate)
                ltac:(discriminate)) as (o & Ho & Hrun).
    assert (C : negb (Resolver.jitter_is_enabled d)
                || (Qeq_bool (Resolver.jitter_before d) 0
                    && Qeq_bool (Resolver.jitter_after d) 0) = false).
    { cbn. rewrite andb_false_r. reflexivity. }
    rewrite C in Ho. cbv zeta in Ho. destruct Ho as (y & Ey & -> & _).
    rewrite (round_ext _ 0) in Ey by ring.
    change (round 0) with (Num 0) in Ey. injection Ey as <-.
    exists {| hour := Num (inject_Z
                ((h * 60 + m + (Qfloor 0 + Qceiling (- Qabs (Resolver.jitter_before d))))
                   mod 1440 / 60));
              minute := Num (inject_Z
                (((h * 60 + m + (Qfloor 0 + Qceiling (- Qabs (Resolver.jitter_before d))))
                   mod 1440) mod 60));
              offsetMinutes := Num (inject_Z
                (Qfloor 0 + Qceiling (- Qabs (Resolver.jitter_before d)))) |}.
    split; [apply Hrun; exact Hf'|]. cbn [offsetMinutes]. do 2 f_equal.
    change (Resolver.jitter_before d) with q.
    unfold Qceiling. rewrite Qopp_involutive. change (Qfloor 0) with 0%Z. lia.
  - intros He Hb Hh Hm q Hq Hf. subst en.
    rewrite (Db' b (Some (Num q)) _ Hb) in *.
    assert (Hf' : (Rounded.enough (cfg (Some (Num 20)) (Some (Num q))) <= fuel)%nat).
    { destruct b as [[q'| | |]|]; try discriminate Hb; exact Hf. }
    set (d := cfg (Some (Num 20)) (Some (Num q))) in *.
    assert (S20 : Qabs (Resolver.jitter_before d) <= inject_Z (2 ^ 50))
      by (vm_compute; discriminate).
    destruct (applyJitter_exact h m d (1 - (1 # 2 ^ 53)) Hh Hm S20 Hq
                ltac:(discriminate) ltac:(apply Qle_refl)) as (o & Ho & Hrun).
    assert (C : negb (Resolver.jitter_is_enabled d)
                || (Qeq_bool (Resolver.jitter_before d) 0
                    && Qeq_bool (Resolver.jitter_after d) 0) = false).
    { cbn. reflexivity. }
    rewrite C in Ho. cbv zeta in Ho. destruct Ho as (y & Ey & Eo & Hr).
    change (Resolver.jitter_before d) with 20 in *.
    change (Resolver.jitter_after d) with q in *.
    change (Qceiling (- Qabs 20)) with (-20)%Z in *.
    set (hi := Qfloor (Qabs q)) in *.
    assert (Hhi : (0 <= hi <= 2 ^ 50)%Z).
    { unfold hi. split.
      - apply Qfloor_nonneg, Qabs_nonneg.
      - rewrite <- (Qfloor_Z (2 ^ 50)). apply Qfloor_resp_le. exact Hq. }
    assert (P50 : (2 ^ 50 = 1125899906842624)%Z) by reflexivity.
    assert (P52 : (2 ^ 52 = 4503599627370496)%Z) by reflexivity.
    destruct (round_below ((1 - (1 # 2 ^ 53)) * inject_Z (hi - -20 + 1)) (hi - -20 + 1))
      as (y' & Ey' & Y0 & Y1 & Y2).
    { apply Qmult_le_0_compat; [discriminate|].
      change 0 with (inject_Z 0). rewrite <- Zle_Qle. lia. }
    { rewrite Qmult_comm. apply Qle_refl. }
    { lia. }
    rewrite Ey in Ey'. injection Ey' as <-.
    specialize (Y2 ltac:(apply Qmult_comm)).
    assert (F : Qfloor y = (hi - -20)%Z).
    { apply Z.le_antisymm.
      - apply Z.lt_succ_r. apply Qfloor_below.
        replace (Z.succ (hi - -20)) with (hi - -20 + 1)%Z by lia. exact Y1.
      - rewrite <- (Qfloor_Z (hi - -20)) at 1. apply Qfloor_resp_le.
        rewrite inject_Z_plus in Y2. change (inject_Z 1) with 1 in Y2. lra. }
    eexists. split; [apply Hrun; exact Hf'|]. cbn [offsetMinutes].
    do 2 f_equal. lia.
Qed.

(** With jitter enabled, no lower bound and an upper bound that is not a
    number, the window is 20 before and 30 after; a bound of -15 acts as
    15. *)
Lemma jitter_window_defaults_example :
  let cfg b a := Some {| Resolver.jitter_enabled := Some true;
                         Resolver.minMinutesBefore := b;
                         Resolver.maxMinutesAfter := a |} in
  let offset_is (r : option Rounded.Jittered) (o : Z) :=
    exists j, r = Some j /\ offsetMinutes j = Num (inject_Z o) in
  Rounded.applyJitter 1 9 0 (cfg None (Some NaN)) (1 # 2)
  = Rounded.applyJitter 1 9 0 (cfg (Some (Num 20)) (Some NaN)) (1 # 2)
  /\ Rounded.applyJitter 1 9 0 (cfg None (Some NaN)) (1 # 2)
     = Rounded.applyJitter 1 9 0 (cfg None (Some (Num 30))) (1 # 2)
  /\ Rounded.applyJitter 1 9 0 (cfg (Some (Num (- (15)))) (Some NaN)) (1 # 2)
     = Rounded.applyJitter 1 9 0 (cfg (Some (Num 15)) (Some NaN)) (1 # 2)
  /\ offset_is (Rounded.applyJitter 1 9 0 (cfg None (Some NaN)) 0) (-20)%Z
  /\ offset_is (Rounded.applyJitter 1 9 0 (cfg None (Some NaN))
                  (1 - (1 # 2 ^ 53))) 30%Z
  /\ offset_is (Rounded.applyJitter 1 9 0 (cfg (Some (Num (- (15)))) (Some NaN)) 0)
               (- Qfloor (Qabs (- (15))))%Z.
Proof.
  intros cfg offset_is.
  pose proof (jitter_window_defaults 1 9 0 (Some true) None (Some NaN) (1 # 2))
    as (Hb & Ha & _ & _ & Hd & _ & _).
  pose proof (jitter_window_defaults 1 9 0 (Some true) None (Some NaN) (1 # 2))
    as (_ & _ & Hn & _ & _ & Hm & _).
  split; [exact (Hb eq_refl)|]. split; [exact (Ha eq_refl)|].
  split; [exact (Hn 15)|].
  destruct (Hd eq_refl eq_refl eq_refl ltac:(lia) ltac:(lia) ltac:(lia))
    as (_ & H0 & H1).
  split; [exact H0|]. split; [exact H1|].
  apply (Hm eq_refl eq_refl ltac:(lia) ltac:(lia) (- (15)));
    [vm_compute; discriminate | vm_compute; lia].
Defined.

End Doubles.

(* ===================================================================== *)
(** * The delays of [Retry.run] on doubles *)
(* ===================================================================== *)

Section RetryDoubles.

Import Binary64.
Local Open Scope Q_scope.

(** Rounding moves a value of magnitude at most [bound] by at most
    [bound * 2^-53 + 2^-100]. *)
Lemma round_near (x bound : Q) :
  Qabs x <= bound -> bound <= inject_Z (2 ^ 60) ->
  exists y,
    round x = Num y
    /\ x - (bound * (1 # 2 ^ 53) + (1 # 2 ^ 100)) <= y
    /\ y <= x + (bound * (1 # 2 ^ 53) + (1 # 2 ^ 100)).
Proof.
  intros Hx Hb.
  change (1 # 2 ^ 53) with (1 # 9007199254740992).
  change (1 # 2 ^ 100) with (1 # 1267650600228229401496703205376).
  change (inject_Z (2 ^ 60)) with 1152921504606846976 in Hb.
  pose proof (Qabs_nonneg x) as Hx0.
  destruct (Qeq_dec x 0) as [Z0|NZ].
  - exists 0. rewrite (round_ext _ _ Z0). split; [reflexivity|].
    rewrite Z0. split; lra.
  - unfold round.
    assert (Hr : Qred x == x) by apply Qred_correct.
    replace (Qeq_bool (Qred x) 0) with false.
    2:{ symmetry. destruct (Qeq_bool (Qred x) 0) eqn:C; [|reflexivity].
        apply Qeq_bool_iff in C. rewrite Hr in C. contradiction. }
    assert (Hax : Qabs (Qred x) == Qabs x) by (rewrite Hr; reflexivity).
    set (xr := Qred x) in *. set (e := ulp_exp xr).
    set (m := nearest_even (xr * pow2 (- e))).
    set (y := Qred (inject_Z m * pow2 e)).
    assert (Ey : y == inject_Z m * pow2 e) by apply Qred_correct.
    pose proof (pow2_pos e) as Pe. pose proof (pow2_pos (- e)) as Pne.
    pose proof (nearest_even_close (xr * pow2 (- e))) as [Lo Hi]. fold m in Lo, Hi.
    assert (C := pow2_cancel e).
    assert (Yhi : y <= xr + pow2 e * (1 # 2)).
    { rewrite Ey.
      apply Qle_trans with ((xr * pow2 (- e) + (1 # 2)) * pow2 e).
      - apply Qmult_le_compat_r; [exact Hi | lra].
      - setoid_replace ((xr * pow2 (- e) + (1 # 2)) * pow2 e)
          with (xr * (pow2 (- e) * pow2 e) + pow2 e * (1 # 2)) by ring.
        rewrite C. lra. }
    assert (Ylo : xr - pow2 e * (1 # 2) <= y).
    { rewrite Ey.
      apply Qle_trans with ((xr * pow2 (- e) - (1 # 2)) * pow2 e).
      - setoid_replace ((xr * pow2 (- e) - (1 # 2)) * pow2 e)
          with (xr * (pow2 (- e) * pow2 e) - pow2 e * (1 # 2)) by ring.
        rewrite C. lra.
      - apply Qmult_le_compat_r; [exact Lo | lra]. }
    assert (Apos : 0 < Qabs xr).
    { rewrite Hax. destruct (Qlt_le_dec 0 (Qabs x)) as [H|H]; [exact H|].
      exfalso. apply NZ. apply Qabs_Qle_condition in H. lra. }
    assert (Ue : pow2 e * (1 # 2) <= Qabs xr * (1 # 9007199254740992)
                 \/ pow2 e * (1 # 2) <= pow2 (- 1075)).
    { unfold e, ulp_exp.
      destruct (Z.max_spec (ilog2 (Qabs xr) - 52) (- 1074)) as [[_ ->]|[_ ->]].
      - right. change (-1075)%Z with (- 1074 + - 1)%Z. rewrite (pow2_plus (-1074)).
        apply Qmult_le_l; [apply pow2_pos|]. vm_compute. discriminate.
      - left.
        replace (ilog2 (Qabs xr) - 52)%Z with (ilog2 (Qabs xr) + - 52)%Z by lia.
        rewrite pow2_plus. pose proof (ilog2_le (Qabs xr) Apos) as Hl.
        setoid_replace (pow2 (ilog2 (Qabs xr)) * pow2 (- 52) * (1 # 2))
          with (pow2 (ilog2 (Qabs xr)) * (1 # 9007199254740992)).
        + apply Qmult_le_compat_r; [exact Hl | discriminate].
        + rewrite <- Qmult_assoc. apply Qmult_comp; [reflexivity|].
          vm_compute. reflexivity. }
    assert (Eta : pow2 (-1075) < 1 # 1267650600228229401496703205376)
      by (vm_compute; reflexivity).
    assert (D : pow2 e * (1 # 2)
                <= bound * (1 # 9007199254740992)
                   + (1 # 1267650600228229401496703205376)).
    { rewrite Hax in Ue. destruct Ue as [U|U]; lra. }
    exists y. rewrite Hr in Yhi, Ylo.
    split; [|split; lra].
    rewrite (below_overflow y (2 ^ 61)); [reflexivity| |reflexivity].
    change (inject_Z (2 ^ 61)) with 2305843009213693952.
    apply Qabs_case; intros _; [|]; 
      apply Qabs_Qle_condition in Hx; lra.
Qed.

Lemma min_num (x y : Q) :
  exists q, Binary64.min (Num x) (Num y) = Num q /\ q == Qmin x y.
Proof.
  cbn [Binary64.min Binary64.lt].
  destruct (Qle_bool x y) eqn:E; cbn [negb].
  - exists x. split; [reflexivity|]. apply Qle_bool_iff in E.
    symmetry. apply Q.min_l. exact E.
  - exists y. split; [reflexivity|].
    assert (H : ~ x <= y) by (intros H; apply Qle_bool_iff in H; congruence).
    symmetry. apply Q.min_r. lra.
Qed.

Lemma max_num (x y : Q) :
  exists q, Binary64.max (Num x) (Num y) = Num q /\ q == Qmax x y.
Proof.
  cbn [Binary64.max Binary64.lt].
  destruct (Qle_bool y x) eqn:E; cbn [negb].
  - exists x. split; [reflexivity|]. apply Qle_bool_iff in E.
    symmetry. apply Q.max_l. exact E.
  - exists y. split; [reflexivity|].
    assert (H : ~ y <= x) by (intros H; apply Qle_bool_iff in H; congruence).
    symmetry. apply Q.max_r. lra.
Qed.

(** The factor of line 72 on doubles is within 2^-49 of the exact one. *)
Lemma jitterFactor_near (p : Retry.NumericPolicy) (r : Q) :
  0 <= Retry.jitter p -> Retry.jitter p <= 1 -> 0 <= r -> r < 1 ->
  exists f,
    Rounded.jitterFactor p r = Num f
    /\ Retry.jitterFactor p r - (1 # 2 ^ 49) <= f
    /\ f <= Retry.jitterFactor p r + (1 # 2 ^ 49).
Proof.
  intros J0 J1 R0 R1. unfold Rounded.jitterFactor, Retry.jitterFactor.
  set (j := Retry.jitter p) in *.
  change (1 # 2 ^ 49) with (1 # 562949953421312).
  assert (B60 : forall b, b <= 8 -> b <= inject_Z (2 ^ 60)).
  { intros b Hb. change (inject_Z (2 ^ 60)) with 1152921504606846976. lra. }
  (* Math.random() * 2 *)
  destruct (round_near (r * 2) 2) as (a0 & E0 & L0 & U0).
  { apply Qabs_Qle_condition. lra. }
  { apply B60. lra. }
  cbn [Binary64.mul]. rewrite E0.
  (* - 1 *)
  unfold Binary64.sub. cbn [Binary64.neg Binary64.add].
  change (1 # 2 ^ 53) with (1 # 9007199254740992) in *.
  change (1 # 2 ^ 100) with (1 # 1267650600228229401496703205376) in *.
  destruct (round_near (a0 + - (1)) 2) as (a1 & E1 & L1 & U1).
  { apply Qabs_Qle_condition. lra. }
  { apply B60. lra. }
  rewrite E1. cbn [Binary64.mul Binary64.add]. cbv iota.
  change (1 # 2 ^ 53) with (1 # 9007199254740992) in *.
  change (1 # 2 ^ 100) with (1 # 1267650600228229401496703205376) in *.
  (* * jitter *)
  assert (A1 : - (2) <= a1 /\ a1 <= 2) by (split; lra).
  assert (P2 : - (2) <= a1 * j /\ a1 * j <= 2) by (split; nra).
  destruct (round_near (a1 * j) 2) as (a2 & E2 & L2 & U2).
  { apply Qabs_Qle_condition. lra. }
  { apply B60. lra. }
  rewrite E2. cbn [Binary64.mul Binary64.add]. cbv iota.
  change (1 # 2 ^ 53) with (1 # 9007199254740992) in *.
  change (1 # 2 ^ 100) with (1 # 1267650600228229401496703205376) in *.
  (* 1 + *)
  destruct (round_near (1 + a2) 4) as (f & E3 & L3 & U3).
  { apply Qabs_Qle_condition. lra. }
  { apply B60. lra. }
  rewrite E3.
  change (1 # 2 ^ 53) with (1 # 9007199254740992) in *.
  change (1 # 2 ^ 100) with (1 # 1267650600228229401496703205376) in *.
  exists f. split; [reflexivity|].
  set (d1 := a1 - (r * 2 - 1)).
  assert (D1 : - (4 # 9007199254740992) - (2 # 1267650600228229401496703205376) <= d1
               /\ d1 <= (4 # 9007199254740992) + (2 # 1267650600228229401496703205376))
    by (unfold d1; split; lra).
  assert (Ej : a1 * j == (r * 2 - 1) * j + d1 * j) by (unfold d1; ring).
  assert (D1j : - (4 # 9007199254740992) - (2 # 1267650600228229401496703205376) <= d1 * j
               /\ d1 * j <= (4 # 9007199254740992) + (2 # 1267650600228229401496703205376)).
  { destruct D1 as [Da Db]. clearbody d1. split; nra. }
  clearbody d1. split; lra.
Qed.

(** X20. For a valid policy, a delay between 1 and 2^53 milliseconds and
    [Math.random()] in [[0, 1)], the time slept, as the doubles compute
    it, is within the jitter band of the delay up to the rounding of the
    arithmetic (a 2^-48 part of the delay) and the millisecond that
    [Math.floor] may take: at most the delay increased by the jitter
    fraction, at least the smaller of the cap and the delay decreased by
    the jitter fraction. *)
Theorem sleep_within_jitter_band (p : Retry.NumericPolicy) (delay r : Q) :
  Retry.valid p -> 1 <= delay -> delay <= inject_Z (2 ^ 53) ->
  0 <= r -> r < 1 ->
  exists s,
    Rounded.sleepFor p (Num delay) r = Num s
    /\ s <= delay * (1 + Retry.jitter p) + delay * (1 # 2 ^ 48)
    /\ Qmin (Retry.maxDelay p)
            (delay * (1 - Retry.jitter p) - delay * (1 # 2 ^ 48) - 1)
       <= s.
Proof.
  intros (_ & _ & HM & _ & Hj0 & Hj1) D1 D2 R0 R1.
  destruct (jitterFactor_near p r Hj0 Hj1 R0 R1) as (f & Ef & Lf & Uf).
  unfold Rounded.sleepFor. rewrite Ef. unfold Retry.jitterFactor in Lf, Uf.
  set (j := Retry.jitter p) in *. set (M := Retry.maxDelay p) in *.
  change (inject_Z (2 ^ 53)) with 9007199254740992 in D2.
  change (1 # 2 ^ 49) with (1 # 562949953421312) in *.
  change (1 # 2 ^ 48) with (1 # 281474976710656).
  set (F := 1 + (r * 2 - 1) * j) in *.
  assert (HF : 1 - j <= F /\ F <= 1 + j) by (unfold F; split; nra).
  assert (Hf : - (1) <= f /\ f <= 3) by (split; lra).
  destruct (round_near (delay * f) (delay * 3)) as (x & Ex & Lx & Ux).
  { apply Qabs_Qle_condition. split; nra. }
  { change (inject_Z (2 ^ 60)) with 1152921504606846976. lra. }
  cbn [Binary64.mul]. rewrite Ex. cbn [Binary64.floor].
  change (1 # 2 ^ 53) with (1 # 9007199254740992) in *.
  change (1 # 2 ^ 100) with (1 # 1267650600228229401496703205376) in *.
  destruct (max_num 0 (inject_Z (Qfloor x))) as (mx & Emx & Vmx).
  rewrite Emx.
  destruct (min_num M mx) as (s & Es & Vs). rewrite Es.
  exists s. split; [reflexivity|].
  set (df := f - F).
  assert (Df : - (1 # 562949953421312) <= df /\ df <= 1 # 562949953421312)
    by (unfold df; split; lra).
  assert (Edf : delay * f == delay * F + delay * df) by (unfold df; ring).
  assert (Ddf : - (delay * (1 # 562949953421312)) <= delay * df
                /\ delay * df <= delay * (1 # 562949953421312)).
  { destruct Df as [Da Db]. clearbody df. split; nra. }
  assert (HdF : delay * (1 - j) <= delay * F /\ delay * F <= delay * (1 + j)).
  { destruct HF as [Fa Fb]. clearbody F. split; nra. }
  assert (Hx1 : x <= delay * (1 + j) + delay * (1 # 281474976710656)) by lra.
  assert (Hx2 : delay * (1 - j) - delay * (1 # 281474976710656) <= x) by lra.
  assert (Hup : 0 <= delay * (1 + j) + delay * (1 # 281474976710656)) by nra.
  pose proof (Qfloor_le x) as F1. pose proof (Qlt_floor x) as F2.
  rewrite inject_Z_plus in F2. change (inject_Z 1) with 1 in F2.
  set (fl := inject_Z (Qfloor x)) in *. clearbody fl.
  set (hi := delay * (1 + j) + delay * (1 # 281474976710656)) in *.
  set (lo := delay * (1 - j) - delay * (1 # 281474976710656)) in *.
  clearbody hi lo. rewrite Vs, Vmx.
  clear Edf Ddf HdF Df Lx Ux Ex Lf Uf Ef Hf HF.
  destruct (Q.max_spec 0 fl) as [[Hfl Em]|[Hfl Em]];
    destruct (Q.min_spec M (Qmax 0 fl)) as [[Hc En]|[Hc En]];
    destruct (Q.min_spec M (lo - 1)) as [[Hc' En']|[Hc' En']];
    rewrite En, En'; rewrite Em in *; split; lra.
Qed.

(** The default policy, a delay of 1000 ms and the random source at 0.9. *)
Lemma sleep_within_jitter_band_example :
  let p := {| Retry.maxAttempts := 3; Retry.baseDelay := 1000;
              Retry.maxDelay := 30000; Retry.multiplier := 2;
              Retry.jitter := 2 # 10 |} in
  Rounded.sleepFor p (Num 1000) (9 # 10) = Num 1160
  /\ exists s,
       Rounded.sleepFor p (Num 1000) (9 # 10) = Num s
       /\ s <= 1000 * (1 + Retry.jitter p) + 1000 * (1 # 2 ^ 48)
       /\ Qmin (Retry.maxDelay p)
               (1000 * (1 - Retry.jitter p) - 1000 * (1 # 2 ^ 48) - 1)
          <= s.
Proof.
  intros p. split; [vm_compute; reflexivity|].
  apply (sleep_within_jitter_band p 1000 (9 # 10));
    [unfold Retry.valid, p; cbn; unfold Qle; cbn; lia
    | discriminate | discriminate | discriminate | reflexivity].
Defined.

(** ** The delays in closed form *)

(** With a jitter of 0 the factor of line 72 is exactly 1. *)
Lemma jitterFactor_without_jitter (p : Retry.NumericPolicy) (r : Q) :
  Retry.jitter p == 0 -> 0 <= r -> r < 1 ->
  Rounded.jitterFactor p r = Num 1.
Proof.
  intros J R0 R1. unfold Rounded.jitterFactor.
  destruct (round_near (r * 2) 2) as (a0 & E0 & L0 & U0).
  { apply Qabs_Qle_condition. lra. }
  { change (inject_Z (2 ^ 60)) with 1152921504606846976. lra. }
  cbn [Binary64.mul]. rewrite E0.
  unfold Binary64.sub. cbn [Binary64.neg Binary64.add].
  change (1 # 2 ^ 53) with (1 # 9007199254740992) in *.
  change (1 # 2 ^ 100) with (1 # 1267650600228229401496703205376) in *.
  destruct (round_near (a0 + - (1)) 2) as (a1 & E1 & _ & _).
  { apply Qabs_Qle_condition. lra. }
  { change (inject_Z (2 ^ 60)) with 1152921504606846976. lra. }
  rewrite E1. cbn [Binary64.mul Binary64.add]. cbv iota.
  rewrite (round_ext (a1 * Retry.jitter p) 0) by (rewrite J; ring).
  change (round 0) with (Num 0). cbv iota.
  apply (round_int _ 1); [reflexivity | reflexivity].
Qed.

Section ClosedFormDoubles.

Variable policy : Retry.NumericPolicy.
Hypothesis policy_valid : Retry.valid policy.
Hypothesis whole_base : Retry.whole (Retry.baseDelay policy).
Hypothesis whole_cap : Retry.whole (Retry.maxDelay policy).
Hypothesis whole_multiplier : Retry.whole (Retry.multiplier policy).
Hypothesis base_below_cap : Retry.baseDelay policy <= Retry.maxDelay policy.
Hypothesis products_exact :
  Retry.maxDelay policy * Retry.multiplier policy < inject_Z (2 ^ 53).

(** While no product leaves the exact range, the delay on doubles is
    the delay of the exact embedding. *)
Lemma delayAt_agrees (n : nat) :
  exists d, Rounded.delayAt policy (S n) = Num d
            /\ d == Retry.delayAt policy (S n).
Proof.
  destruct policy_valid as (_ & HB & HM & Hm & _).
  induction n as [|n (d & Ed & Vd)].
  - exists (Retry.baseDelay policy). split; reflexivity.
  - change (Rounded.delayAt policy (S (S n)))
      with (Rounded.nextDelay policy (Rounded.delayAt policy (S n))).
    change (Retry.delayAt policy (S (S n)))
      with (Retry.nextDelay policy (Retry.delayAt policy (S n))).
    rewrite Ed. unfold Rounded.nextDelay, Retry.nextDelay.
    destruct (delayAt_closed policy policy_valid whole_base whole_cap
                whole_multiplier base_below_cap n) as (Cl & [z Hz] & Cp).
    assert (Eff : Retry.effectiveMultiplier policy == Retry.multiplier policy).
    { unfold Retry.effectiveMultiplier.
      destruct (Qeq_bool (Retry.multiplier policy) 0) eqn:E; [|reflexivity].
      apply Qeq_bool_eq in E. rewrite E in Hm. lra. }
    destruct whole_multiplier as [mz Hmz].
    assert (Dle : Retry.delayAt policy (S n) <= Retry.maxDelay policy)
      by (rewrite Cl; apply Q.le_min_l).
    assert (D0 : 0 <= Retry.delayAt policy (S n))
      by (rewrite Cl; apply Q.min_glb; assumption).
    assert (Prod : d * Retry.effectiveMultiplier policy == inject_Z (z * mz)).
    { rewrite Vd, Eff, Hz, Hmz, inject_Z_mult. reflexivity. }
    assert (Small : (Z.abs (z * mz) < 2 ^ 53)%Z).
    { assert (P0 : 0 <= inject_Z (z * mz)).
      { rewrite inject_Z_mult, <- Hz, <- Hmz. apply Qmult_le_0_compat; lra. }
      assert (P1 : inject_Z (z * mz) < inject_Z (2 ^ 53)).
      { apply Qle_lt_trans
          with (Retry.maxDelay policy * Retry.multiplier policy);
          [|exact products_exact].
        rewrite inject_Z_mult, <- Hz, <- Hmz.
        apply Qmult_le_compat_r; lra. }
      change 0 with (inject_Z 0) in P0.
      rewrite <- Zle_Qle in P0. rewrite <- Zlt_Qlt in P1. lia. }
    cbn [Binary64.mul]. rewrite (round_int _ (z * mz) Small Prod).
    cbn [Binary64.floor]. rewrite Qfloor_Z.
    destruct (min_num (Retry.maxDelay policy) (inject_Z (z * mz)))
      as (q & Eq & Vq).
    exists q. split; [exact Eq|]. rewrite Vq.
    assert (Fl : inject_Z (Qfloor (Retry.delayAt policy (S n)
                                   * Retry.effectiveMultiplier policy))
                 == inject_Z (z * mz)).
    { rewrite <- Vd, Prod, Qfloor_Z. reflexivity. }
    rewrite Fl. reflexivity.
Qed.

(** X19. For a valid policy whose base delay, cap and multiplier are whole
    numbers, with the base delay not above the cap, the product of the cap
    and the multiplier below 2^53 and a jitter of 0, the time slept after
    the [k]-th failure, as the doubles compute it, is exactly
    min(maxDelay, baseDelay * multiplier^(k-1)), for every value of
    [Math.random()] in [[0, 1)]. *)
Theorem sleep_without_jitter_is_nominal (k : nat) (r : Q) :
  Retry.jitter policy == 0 -> (1 <= k)%nat -> 0 <= r -> r < 1 ->
  exists s,
    Rounded.sleepFor policy (Rounded.delayAt policy k) r = Num s
    /\ s == Qmin (Retry.maxDelay policy)
              (Retry.baseDelay policy
               * Qpower (Retry.multiplier policy) (Z.of_nat k - 1)).
Proof.
  intros Hj Hk R0 R1. destruct k as [|n]; [lia|].
  replace (Z.of_nat (S n) - 1)%Z with (Z.of_nat n) by lia.
  destruct (delayAt_agrees n) as (d & Ed & Vd).
  destruct (delayAt_closed policy policy_valid whole_base whole_cap
              whole_multiplier base_below_cap n) as (Cl & [z Hz] & Cp).
  destruct policy_valid as (_ & HB & HM & Hm & _).
  assert (Dle : Retry.delayAt policy (S n) <= Retry.maxDelay policy)
    by (rewrite Cl; apply Q.le_min_l).
  assert (D0 : 0 <= Retry.delayAt policy (S n))
    by (rewrite Cl; apply Q.min_glb; assumption).
  assert (Small : (Z.abs z < 2 ^ 53)%Z).
  { assert (P0 : inject_Z 0 <= inject_Z z) by (rewrite <- Hz; exact D0).
    assert (P1 : inject_Z z < inject_Z (2 ^ 53)).
    { rewrite <- Hz. apply Qle_lt_trans with (Retry.maxDelay policy); [exact Dle|].
      apply Qle_lt_trans
        with (Retry.maxDelay policy * Retry.multiplier policy);
        [|exact products_exact].
      nra. }
    rewrite <- Zle_Qle in P0. rewrite <- Zlt_Qlt in P1. lia. }
  unfold Rounded.sleepFor. rewrite Ed, (jitterFactor_without_jitter policy r Hj R0 R1).
  cbn [Binary64.mul].
  rewrite (round_int (d * 1) z Small) by (rewrite Vd, Hz; ring).
  cbn [Binary64.floor]. rewrite Qfloor_Z.
  destruct (max_num 0 (inject_Z z)) as (mx & Emx & Vmx). rewrite Emx.
  destruct (min_num (Retry.maxDelay policy) mx) as (s & Es & Vs). rewrite Es.
  exists s. split; [reflexivity|].
  rewrite Vs, Vmx, <- Hz, (Q.max_r 0 _) by exact D0.
  rewrite Q.min_r by exact Dle. exact Cl.
Qed.

End ClosedFormDoubles.

(** The default policy with the jitter set to 0: the second sleep is 2000. *)
Lemma sleep_without_jitter_is_nominal_example :
  let p := {| Retry.maxAttempts := 3; Retry.baseDelay := 1000;
              Retry.maxDelay := 30000; Retry.multiplier := 2;
              Retry.jitter := 0 |} in
  Rounded.sleepFor p (Rounded.delayAt p 2) (7 # 10) = Num 2000
  /\ exists s,
       Rounded.sleepFor p (Rounded.delayAt p 2) (7 # 10) = Num s
       /\ s == Qmin 30000 (1000 * Qpower 2 (Z.of_nat 2 - 1)).
Proof.
  intros p. split; [vm_compute; reflexivity|].
  apply (sleep_without_jitter_is_nominal p).
  - unfold Retry.valid, p. cbn. unfold Qle. cbn. lia.
  - exists 1000%Z. reflexivity.
  - exists 30000%Z. reflexivity.
  - exists 2%Z. reflexivity.
  - unfold Qle. cbn. lia.
  - reflexivity.
  - reflexivity.
  - lia.
  - discriminate.
  - reflexivity.
Defined.
End RetryDoubles.
